(** * Leaflet geo core: [LatLng] and [LatLngBounds]

    A shallow embedding of [src/geo/LatLng.js] and [src/geo/LatLngBounds.js].

    - JavaScript numbers are IEEE 754 binary64 values, taken from the
      Standard Library's [SpecFloat] at precision 53 and maximal exponent
      1024; arithmetic, comparison, [Math.min], [Math.max], [Math.abs] and
      [Number::toString] are written over that type.
    - JavaScript values are [undefined], [null], numbers, arrays, plain
      records and references to instances of the two classes.
    - Instances live in a store; a method is a function from the store to an
      outcome (a returned value or a thrown exception) and the next store,
      so that in-place mutation of corners and identity of instances are
      visible. *)

From Stdlib Require Import ZArith Bool String Ascii Lia.
From Stdlib Require Import Floats.SpecFloat.
From stdpp Require Import base list.

Open Scope Z_scope.

(** ** Numbers *)

Definition num := spec_float.

Definition prec : Z := 53.
Definition emax : Z := 1024.

Definition NaN : num := S754_nan.
Definition Infinity : num := S754_infinity false.
Definition zero : num := S754_zero false.

(** The Number value of an integer literal. *)
Definition num_of_Z (z : Z) : num := binary_normalize prec emax z 0 false.

(** The Number value of the decimal literal [p / q], for [p] and [q] exactly
    representable (below [2^53]): the correctly rounded quotient. *)
Definition num_of_ratio (p q : Z) : num :=
  SFdiv prec emax (num_of_Z p) (num_of_Z q).

Definition add (x y : num) : num := SFadd prec emax x y.
Definition sub (x y : num) : num := SFsub prec emax x y.
Definition mul (x y : num) : num := SFmul prec emax x y.
Definition div (x y : num) : num := SFdiv prec emax x y.
Definition neg (x : num) : num := SFopp x.

(** [x <= y], [x < y], [x >= y], [x > y] and [x == y] on numbers; every
    comparison with [NaN] is false. *)
Definition le (x y : num) : bool := SFleb x y.
Definition lt (x y : num) : bool := SFltb x y.
Definition ge (x y : num) : bool := SFleb y x.
Definition gt (x y : num) : bool := SFltb y x.
Definition num_eq (x y : num) : bool := SFeqb x y.

Definition is_nan (x : num) : bool :=
  match x with S754_nan => true | _ => false end.

Definition is_zero (x : num) : bool :=
  match x with S754_zero _ => true | _ => false end.

Definition is_finite (x : num) : bool :=
  match x with S754_zero _ | S754_finite _ _ _ => true | _ => false end.

Definition Math_abs (x : num) : num := SFabs x.

(** [Math.min] and [Math.max] of two arguments: [NaN] if either is [NaN];
    [-0] counts as smaller than [+0]. *)
Definition Math_min (x y : num) : num :=
  if is_nan x || is_nan y then NaN
  else match x, y with
       | S754_zero sx, S754_zero sy => S754_zero (sx || sy)
       | _, _ => if lt y x then y else x
       end.

Definition Math_max (x y : num) : num :=
  if is_nan x || is_nan y then NaN
  else match x, y with
       | S754_zero sx, S754_zero sy => S754_zero (sx && sy)
       | _, _ => if lt x y then y else x
       end.

(** *** The order of numbers

    A number that is not [NaN] is placed by its [key]: the class (negative
    infinity, negative, zero, positive, positive infinity), then exponent and
    mantissa, both negated for a negative number. The two zeros share a
    key. *)
Definition key (x : num) : Z * Z * Z :=
  match x with
  | S754_nan | S754_zero _ => (0, 0, 0)
  | S754_infinity s => (if s then -2 else 2, 0, 0)
  | S754_finite s m e => if s then (-1, - e, Zneg m) else (1, e, Zpos m)
  end.

Definition key_le (a b : Z * Z * Z) : Prop :=
  let '(a1, a2, a3) := a in
  let '(b1, b2, b3) := b in
  a1 < b1 \/ (a1 = b1 /\ (a2 < b2 \/ (a2 = b2 /\ a3 <= b3))).

Definition key_lt (a b : Z * Z * Z) : Prop :=
  let '(a1, a2, a3) := a in
  let '(b1, b2, b3) := b in
  a1 < b1 \/ (a1 = b1 /\ (a2 < b2 \/ (a2 = b2 /\ a3 < b3))).

(** *** Number::toString (radix 10)

    The shortest decimal digit string [s] of [k] digits and the exponent [n]
    such that [s * 10^(n-k)] rounds to the number, laid out the way
    ECMA-262 prescribes. *)

(** The Number value of the positive rational [p / q]. *)
Definition round_ratio (p q : Z) : num :=
  let '(mz, ez, lz) := SFdiv_core_binary prec emax p 0 q 0 in
  binary_round_aux prec emax false mz ez lz.

(** The value [m * 2^e] as a fraction. *)
Definition frac_of (m : positive) (e : Z) : Z * Z :=
  if 0 <=? e then (Zpos m * 2 ^ e, 1) else (Zpos m, 2 ^ (- e)).

Fixpoint mag_up (fuel : nat) (P Q n : Z) : Z :=
  match fuel with
  | O => n
  | S f => if P <? Q then n else mag_up f P (Q * 10) (n + 1)
  end.

Fixpoint mag_down (fuel : nat) (P Q n : Z) : Z :=
  match fuel with
  | O => n
  | S f => if Q <=? P * 10 then n else mag_down f (P * 10) Q (n - 1)
  end.

(** The [n] with [10^(n-1) <= P/Q < 10^n]; a binary64 value lies between
    [10^-324] and [10^309]. *)
Definition magnitude10 (P Q : Z) : Z :=
  if P <? Q then mag_down 400 P Q 0 else mag_up 400 P Q 0.

Definition scale10 (P Q d : Z) : Z * Z :=
  if 0 <=? d then (P * 10 ^ d, Q) else (P, Q * 10 ^ (- d)).

Definition rounds_to (x : num) (s n k : Z) : bool :=
  let '(p, q) := scale10 s 1 (n - k) in
  match x, round_ratio p q with
  | S754_finite _ m e, S754_finite _ m' e' => Pos.eqb m m' && Z.eqb e e'
  | _, _ => false
  end.

(** The two [k]-digit integers next to [P/Q * 10^(k-n)], nearest first. *)
Definition candidates (P Q n k : Z) : list (Z * Z) :=
  let '(a, b) := scale10 P Q (k - n) in
  let lo := a / b in
  let r := a mod b in
  let hi := if lo + 1 <? 10 ^ k then (lo + 1, n) else (10 ^ (k - 1), n + 1) in
  match 2 * r ?= b with
  | Lt => [(lo, n); hi]
  | Gt => [hi; (lo, n)]
  | Eq => if Z.even lo then [(lo, n); hi] else [hi; (lo, n)]
  end.

Fixpoint shortest (fuel : nat) (x : num) (P Q n k : Z) : Z * Z * Z :=
  match fuel with
  | O => (0, n, k)
  | S f =>
      match filter (fun c => Is_true (rounds_to x (fst c) (snd c) k))
                   (candidates P Q n k) with
      | (s, n') :: _ => (s, n', k)
      | [] => shortest f x P Q n (k + 1)
      end
  end.

Definition digit (d : Z) : ascii := ascii_of_nat (48 + Z.to_nat d).

Fixpoint digits (k : nat) (s : Z) (acc : list ascii) : list ascii :=
  match k with
  | O => acc
  | S k' => digits k' (s / 10) (digit (s mod 10) :: acc)
  end.

Definition decimal (z : Z) : list ascii :=
  if z <? 10 then digits 1 z []
  else if z <? 100 then digits 2 z []
  else digits 3 z [].

Definition zeros (n : Z) : list ascii := repeat "0"%char (Z.to_nat n).

Definition format (s n k : Z) : list ascii :=
  let ds := digits (Z.to_nat k) s [] in
  if (k <=? n) && (n <=? 21) then ds ++ zeros (n - k)
  else if (0 <? n) && (n <=? 21) then
    take (Z.to_nat n) ds ++ "."%char :: drop (Z.to_nat n) ds
  else if (-6 <? n) && (n <=? 0) then
    "0"%char :: "."%char :: zeros (- n) ++ ds
  else
    let e := n - 1 in
    let sign := if e <? 0 then "-"%char else "+"%char in
    if k =? 1 then ds ++ "e"%char :: sign :: decimal (Z.abs e)
    else take 1 ds ++ "."%char :: drop 1 ds ++ "e"%char :: sign :: decimal (Z.abs e).

Definition Number_toString (x : num) : string :=
  match x with
  | S754_nan => "NaN"
  | S754_zero _ => "0"
  | S754_infinity s => if s then "-Infinity" else "Infinity"
  | S754_finite sg m e =>
      let '(P, Q) := frac_of m e in
      let '(s, n, k) := shortest 17 x P Q (magnitude10 P Q) 1 in
      let body := string_of_list_ascii (format s n k) in
      if sg then String "-" body else body
  end.

(** ** Values *)

(** A reference to an instance in the store. *)
Abbreviation ref := nat.

#[local] Set Warnings "-register-all".

Inductive value :=
| VUndef
| VNull
| VNum (x : num)
| VArr (l : list value)
| VRec (props : list (string * value))
| VLatLng (r : ref)
| VBounds (r : ref).

Inductive jstype := TUndefined | TNumber | TObject.

Definition typeof (v : value) : jstype :=
  match v with
  | VUndef => TUndefined
  | VNum _ => TNumber
  | _ => TObject
  end.

Definition is_object (v : value) : bool :=
  match typeof v with TObject => true | _ => false end.

(** ToBoolean: [undefined], [null], [0], [-0] and [NaN] are falsy. *)
Definition truthy (v : value) : bool :=
  match v with
  | VUndef | VNull => false
  | VNum x => negb (is_zero x || is_nan x)
  | _ => true
  end.

(** [v === 0] *)
Definition is_zero_value (v : value) : bool :=
  match v with VNum x => is_zero x | _ => false end.

(** [v === undefined] *)
Definition is_undefined (v : value) : bool :=
  match v with VUndef => true | _ => false end.

(** [v == null] *)
Definition is_nullish (v : value) : bool :=
  match v with VUndef | VNull => true | _ => false end.

Definition isArray (v : value) : bool :=
  match v with VArr _ => true | _ => false end.

Definition instanceof_LatLng (v : value) : bool :=
  match v with VLatLng _ => true | _ => false end.

Definition instanceof_LatLngBounds (v : value) : bool :=
  match v with VBounds _ => true | _ => false end.

(** [a[i]] on an array: [undefined] out of range. *)
Definition index (a : list value) (i : nat) : value :=
  match a !! i with Some v => v | None => VUndef end.

Fixpoint get_prop (k : string) (props : list (string * value)) : value :=
  match props with
  | [] => VUndef
  | (k', v) :: rest => if String.eqb k k' then v else get_prop k rest
  end.

Fixpoint has_prop (k : string) (props : list (string * value)) : bool :=
  match props with
  | [] => false
  | (k', _) :: rest => String.eqb k k' || has_prop k rest
  end.

(** ToNumber, the unary [+]. An array goes through its string form: the
    empty array and one-element arrays of [undefined] or [null] read as [0],
    a one-element array of a number reads as that number (the sign of zero
    is lost), a longer array has a comma and reads as [NaN]; records and
    class instances read as [NaN]. *)
Fixpoint to_number (v : value) : num :=
  match v with
  | VUndef => NaN
  | VNull => zero
  | VNum x => x
  | VArr [] => zero
  | VArr [e] =>
      match e with
      | VUndef | VNull => zero
      | VNum x => if is_zero x then zero else x
      | VArr _ => to_number e
      | _ => NaN
      end
  | _ => NaN
  end.

(** ** Store, outcomes and the method monad *)

Record LatLngObj := mkLatLng {
  lat : num;
  lng : num;
  alt : option num
}.

Record LatLngBoundsObj := mkBounds {
  _southWest : option ref;
  _northEast : option ref
}.

Record store := mkStore {
  points : list LatLngObj;
  boxes : list LatLngBoundsObj
}.

Definition empty_store : store := mkStore [] [].

(** [InvalidLatLng] is the [Error] with message [Invalid LatLng object: ...]. *)
Inductive exn := InvalidLatLng | TypeError.

Inductive outcome (A : Type) :=
| Ret (a : A)
| Throw (e : exn).
Arguments Ret {A} a.
Arguments Throw {A} e.

Definition M (A : Type) : Type := store -> outcome A * store.

Definition ret {A} (a : A) : M A := fun h => (Ret a, h).
Definition throw {A} (e : exn) : M A := fun h => (Throw e, h).
Definition bind {A B} (m : M A) (k : A -> M B) : M B :=
  fun h => match m h with
           | (Ret a, h') => k a h'
           | (Throw e, h') => (Throw e, h')
           end.
Definition lift {A} (o : outcome A) : M A := fun h => (o, h).

Notation "'let*' x ':=' m 'in' k" := (bind m (fun x => k))
  (at level 10, x pattern, m at level 100, k at level 200).
Notation "m ';;' k" := (bind m (fun _ => k))
  (at level 100, k at level 200, right associativity).

(** Sequencing of outcomes without a store. *)
Definition obind {A B} (o : outcome A) (k : A -> outcome B) : outcome B :=
  match o with Ret a => k a | Throw e => Throw e end.

(** Reading a property of [undefined] throws a [TypeError]; so does a
    reference that is not in the store. *)
Definition get_point (r : ref) : M LatLngObj :=
  fun h => match points h !! r with
           | Some p => (Ret p, h)
           | None => (Throw TypeError, h)
           end.

Definition get_box (r : ref) : M LatLngBoundsObj :=
  fun h => match boxes h !! r with
           | Some b => (Ret b, h)
           | None => (Throw TypeError, h)
           end.

Definition alloc_point (p : LatLngObj) : M ref :=
  fun h => (Ret (length (points h)), mkStore (points h ++ [p]) (boxes h)).

Definition alloc_box (b : LatLngBoundsObj) : M ref :=
  fun h => (Ret (length (boxes h)), mkStore (points h) (boxes h ++ [b])).

Definition set_point (r : ref) (f : LatLngObj -> LatLngObj) : M unit :=
  fun h => match points h !! r with
           | Some p => (Ret tt, mkStore (<[r := f p]> (points h)) (boxes h))
           | None => (Throw TypeError, h)
           end.

Definition set_box (r : ref) (f : LatLngBoundsObj -> LatLngBoundsObj) : M unit :=
  fun h => match boxes h !! r with
           | Some b => (Ret tt, mkStore (points h) (<[r := f b]> (boxes h)))
           | None => (Throw TypeError, h)
           end.

Definition set_lat (x : num) (p : LatLngObj) : LatLngObj :=
  mkLatLng x (lng p) (alt p).
Definition set_lng (x : num) (p : LatLngObj) : LatLngObj :=
  mkLatLng (lat p) x (alt p).
Definition set_alt (x : option num) (p : LatLngObj) : LatLngObj :=
  mkLatLng (lat p) (lng p) x.
Definition set_southWest (r : ref) (b : LatLngBoundsObj) : LatLngBoundsObj :=
  mkBounds (Some r) (_northEast b).
Definition set_northEast (r : ref) (b : LatLngBoundsObj) : LatLngBoundsObj :=
  mkBounds (_southWest b) (Some r).

(** [o.lat] and [o.lng] where [o] is a corner that may be unset. *)
Definition corner (o : option ref) : M LatLngObj :=
  match o with
  | Some r => get_point r
  | None => throw TypeError
  end.

(** The elements of an array; [o.k] and [k in o] on a record, for the keys
    the code asks about. *)
Definition elements (v : value) : list value :=
  match v with VArr a => a | _ => [] end.

Definition prop (v : value) (k : string) : value :=
  match v with VRec props => get_prop k props | _ => VUndef end.

Definition in_ (k : string) (v : value) : outcome bool :=
  match v with
  | VUndef | VNull | VNum _ => Throw TypeError
  | VRec props => Ret (has_prop k props)
  | VLatLng _ => Ret (String.eqb k "lat" || String.eqb k "lng")
  | VArr _ | VBounds _ => Ret false
  end.

(** [for (const x of v) body(x)]: only arrays are iterable here. *)
Definition for_of (v : value) (body : value -> M unit) : M unit :=
  match v with
  | VArr a =>
      (fix each (l : list value) : M unit :=
         match l with
         | [] => ret tt
         | x :: rest => body x ;; each rest
         end) a
  | _ => throw TypeError
  end.

(** [a && b] with [b] evaluated only when [a] is true. *)
Definition and_then (a b : M bool) : M bool :=
  let* x := a in if x then b else ret false.

(** ** LatLng *)

Module LatLng.

(** [typeof v === 'object' && 'lat' in v] *)
Definition object_with_lat (v : value) : outcome bool :=
  if is_object v then in_ "lat" v else Ret false.

(** [static validate(lat, lng, alt)] *)
Definition validate (lat lng alt : value) : outcome bool :=
  obind (if instanceof_LatLng lat then Ret true else object_with_lat lat)
    (fun c =>
       if c then Ret true
       else if truthy lat && isArray lat
               && negb (is_object (index (elements lat) 0)) then
         if (length (elements lat) =? 3)%nat
            || (length (elements lat) =? 2)%nat then Ret true
         else Ret false
       else if (truthy lat || is_zero_value lat)
               && (truthy lng || is_zero_value lng) then Ret true
       else Ret false).

(** The assignments that end the constructor: [this.lat = +_lat],
    [this.lng = +_lng], and [this.alt = +_alt] unless [_alt] is
    [undefined]. *)
Definition init (_lat _lng _alt : value) : M ref :=
  alloc_point
    (mkLatLng (to_number _lat) (to_number _lng)
              (if is_undefined _alt then None else Some (to_number _alt))).

(** [new LatLng(lat, lng, alt)] *)
Definition new (lat lng alt : value) : M ref :=
  let* valid := lift (validate lat lng alt) in
  if negb valid then throw InvalidLatLng
  else
    match lat with
    | VLatLng r => ret r
    | VArr a =>
        if is_object (index a 0) then throw InvalidLatLng
        else if (length a =? 3)%nat then
          init (index a 0) (index a 1) (index a 2)
        else if (length a =? 2)%nat then
          init (index a 0) (index a 1) VUndef
        else throw InvalidLatLng
    | _ =>
        let* c := lift (object_with_lat lat) in
        if c then
          let* l := lift (in_ "lng" lat) in
          init (prop lat "lat")
               (if l then prop lat "lng" else prop lat "lon")
               (prop lat "alt")
        else init lat lng alt
    end.

(** [maxMargin ?? 1.0E-9] *)
Definition margin_or_default (maxMargin : value) : num :=
  if is_nullish maxMargin then num_of_ratio 1 1000000000
  else to_number maxMargin.

(** [equals(obj, maxMargin)] *)
Definition equals (this : ref) (obj maxMargin : value) : M bool :=
  if negb (truthy obj) then ret false
  else
    let* o := new obj VUndef VUndef in
    let* p := get_point this in
    let* q := get_point o in
    let margin := Math_max (Math_abs (sub (lat p) (lat q)))
                           (Math_abs (sub (lng p) (lng q))) in
    ret (le margin (margin_or_default maxMargin)).

(** [clone()]: a [new LatLng(0, 0)], to which the three fields of the
    receiver are then assigned. *)
Definition clone (this : ref) : M ref :=
  let* latlng := new (VNum zero) (VNum zero) VUndef in
  let* p := get_point this in
  set_point latlng (set_lat (lat p)) ;;
  let* p := get_point this in
  set_point latlng (set_lng (lng p)) ;;
  let* p := get_point this in
  set_point latlng (set_alt (alt p)) ;;
  ret latlng.

End LatLng.

(** ** LatLngBounds *)

Module LatLngBounds.

Definition unset : LatLngBoundsObj := mkBounds None None.

(** [c.f = op(c2.f, c.f)] for a corner [c] of the receiver. *)
Definition widen (op : num -> num -> num) (f : LatLngObj -> num)
           (set_f : num -> LatLngObj -> LatLngObj)
           (c : option ref) (c2 : ref) : M unit :=
  let* p2 := get_point c2 in
  match c with
  | None => throw TypeError
  | Some r =>
      let* p := get_point r in
      set_point r (set_f (op (f p2) (f p)))
  end.

(** The end of [extend], once [sw2] and [ne2] are known: the first
    extension copies them, a later one widens the corners in place. *)
Definition extend_with (this sw2 ne2 : ref) : M ref :=
  let* b := get_box this in
  match _southWest b, _northEast b with
  | None, None =>
      let* p := get_point sw2 in
      let* sw' := LatLng.new (VNum (lat p)) (VNum (lng p)) VUndef in
      set_box this (set_southWest sw') ;;
      let* q := get_point ne2 in
      let* ne' := LatLng.new (VNum (lat q)) (VNum (lng q)) VUndef in
      set_box this (set_northEast ne') ;;
      ret this
  | sw, ne =>
      widen Math_min lat set_lat sw sw2 ;;
      widen Math_min lng set_lng sw sw2 ;;
      widen Math_max lat set_lat ne ne2 ;;
      widen Math_max lng set_lng ne ne2 ;;
      ret this
  end.

(** [extend] with an instance of [LatLngBounds]: nothing happens when one
    of its corners is unset. *)
Definition extend_bounds (this b2 : ref) : M ref :=
  let* o := get_box b2 in
  match _southWest o, _northEast o with
  | Some sw2, Some ne2 => extend_with this sw2 ne2
  | _, _ => ret this
  end.

(** [extend(obj)]. The call [this.extend(new LatLng(obj))] takes the
    [LatLng] branch, the call [this.extend(new LatLngBounds(obj))] takes
    the [LatLngBounds] branch, after the constructor has extended a new
    instance with every element of [obj]. *)
Fixpoint extend (this : ref) (obj : value) {struct obj} : M ref :=
  match obj with
  | VLatLng p => extend_with this p p
  | VBounds b => extend_bounds this b
  | _ =>
      if negb (truthy obj) then ret this
      else
        let* v := lift (LatLng.validate obj VUndef VUndef) in
        if v then
          let* p := LatLng.new obj VUndef VUndef in
          extend_with this p p
        else
          let* b := alloc_box unset in
          for_of obj (fun latlng => extend b latlng ;; ret tt) ;;
          extend_bounds this b
  end.

(** [new LatLngBounds(corner1, corner2)] *)
Definition new (corner1 corner2 : value) : M ref :=
  if negb (truthy corner1) then alloc_box unset
  else
    match corner1 with
    | VBounds b => ret b
    | _ =>
        let latlngs :=
          if truthy corner2 then VArr [corner1; corner2] else corner1 in
        let* this := alloc_box unset in
        for_of latlngs (fun latlng => extend this latlng ;; ret tt) ;;
        ret this
    end.

Definition getSouthWest (this : ref) : M (option ref) :=
  let* b := get_box this in ret (_southWest b).

Definition getNorthEast (this : ref) : M (option ref) :=
  let* b := get_box this in ret (_northEast b).

Definition getWest (this : ref) : M num :=
  let* b := get_box this in
  let* p := corner (_southWest b) in ret (lng p).

Definition getSouth (this : ref) : M num :=
  let* b := get_box this in
  let* p := corner (_southWest b) in ret (lat p).

Definition getEast (this : ref) : M num :=
  let* b := get_box this in
  let* p := corner (_northEast b) in ret (lng p).

Definition getNorth (this : ref) : M num :=
  let* b := get_box this in
  let* p := corner (_northEast b) in ret (lat p).

Definition getNorthWest (this : ref) : M ref :=
  let* n := getNorth this in
  let* w := getWest this in
  LatLng.new (VNum n) (VNum w) VUndef.

Definition getSouthEast (this : ref) : M ref :=
  let* s := getSouth this in
  let* e := getEast this in
  LatLng.new (VNum s) (VNum e) VUndef.

(** [pad(bufferRatio)] *)
Definition pad (this : ref) (bufferRatio : value) : M ref :=
  let* b := get_box this in
  let sw := _southWest b in
  let ne := _northEast b in
  let* p := corner sw in
  let* q := corner ne in
  let heightBuffer :=
    mul (Math_abs (sub (lat p) (lat q))) (to_number bufferRatio) in
  let widthBuffer :=
    mul (Math_abs (sub (lng p) (lng q))) (to_number bufferRatio) in
  let* c1 := LatLng.new (VNum (sub (lat p) heightBuffer))
                        (VNum (sub (lng p) widthBuffer)) VUndef in
  let* c2 := LatLng.new (VNum (add (lat q) heightBuffer))
                        (VNum (add (lng q) widthBuffer)) VUndef in
  new (VLatLng c1) (VLatLng c2).

(** [getCenter()] *)
Definition getCenter (this : ref) : M ref :=
  let* b := get_box this in
  let* p := corner (_southWest b) in
  let* q := corner (_northEast b) in
  let two := num_of_Z 2 in
  LatLng.new (VNum (div (add (lat p) (lat q)) two))
             (VNum (div (add (lng p) (lng q)) two)) VUndef.

(** [a.f >= b.f] and the like, reading [a] before [b]. *)
Definition cmp (op : num -> num -> bool) (f : LatLngObj -> num)
           (a b : option ref) : M bool :=
  let* x := corner a in
  let* y := corner b in
  ret (op (f x) (f y)).

(** [contains(obj)] *)
Definition contains (this : ref) (obj : value) : M bool :=
  let* v := lift (LatLng.validate obj VUndef VUndef) in
  let* obj :=
    (if v then let* p := LatLng.new obj VUndef VUndef in ret (VLatLng p)
     else let* b := new obj VUndef in ret (VBounds b)) in
  let* b := get_box this in
  let sw := _southWest b in
  let ne := _northEast b in
  let* c :=
    match obj with
    | VBounds o =>
        let* sw2 := getSouthWest o in
        let* ne2 := getNorthEast o in
        ret (sw2, ne2)
    | VLatLng p => ret (Some p, Some p)
    | _ => throw TypeError
    end in
  let '(sw2, ne2) := c in
  and_then (and_then (and_then (cmp ge lat sw2 sw) (cmp le lat ne2 ne))
                     (cmp ge lng sw2 sw))
           (cmp le lng ne2 ne).

(** [intersects(bounds)] *)
Definition intersects (this : ref) (bounds : value) : M bool :=
  let* o := new bounds VUndef in
  let* b := get_box this in
  let sw := _southWest b in
  let ne := _northEast b in
  let* sw2 := getSouthWest o in
  let* ne2 := getNorthEast o in
  let* latIntersects := and_then (cmp ge lat ne2 sw) (cmp le lat sw2 ne) in
  let* lngIntersects := and_then (cmp ge lng ne2 sw) (cmp le lng sw2 ne) in
  ret (latIntersects && lngIntersects).

(** [overlaps(bounds)] *)
Definition overlaps (this : ref) (bounds : value) : M bool :=
  let* o := new bounds VUndef in
  let* b := get_box this in
  let sw := _southWest b in
  let ne := _northEast b in
  let* sw2 := getSouthWest o in
  let* ne2 := getNorthEast o in
  let* latOverlaps := and_then (cmp gt lat ne2 sw) (cmp lt lat sw2 ne) in
  let* lngOverlaps := and_then (cmp gt lng ne2 sw) (cmp lt lng sw2 ne) in
  ret (latOverlaps && lngOverlaps).

(** [numbers.join(',')] *)
Fixpoint join (l : list num) : string :=
  match l with
  | [] => ""
  | [x] => Number_toString x
  | x :: rest => String.append (Number_toString x) (String "," (join rest))
  end.

(** [toBBoxString()] *)
Definition toBBoxString (this : ref) : M string :=
  let* w := getWest this in
  let* s := getSouth this in
  let* e := getEast this in
  let* n := getNorth this in
  ret (join [w; s; e; n]).

Definition corner_value (o : option ref) : value :=
  match o with Some r => VLatLng r | None => VUndef end.

(** [equals(bounds, maxMargin)] *)
Definition equals (this : ref) (bounds maxMargin : value) : M bool :=
  if negb (truthy bounds) then ret false
  else
    let* o := new bounds VUndef in
    let* b := get_box this in
    and_then
      (match _southWest b with
       | None => throw TypeError
       | Some sw =>
           let* sw2 := getSouthWest o in
           LatLng.equals sw (corner_value sw2) maxMargin
       end)
      (let* b := get_box this in
       match _northEast b with
       | None => throw TypeError
       | Some ne =>
           let* ne2 := getNorthEast o in
           LatLng.equals ne (corner_value ne2) maxMargin
       end).

(** [isValid()] *)
Definition isValid (this : ref) : M bool :=
  let* b := get_box this in
  ret (match _southWest b, _northEast b with
       | Some _, Some _ => true
       | _, _ => false
       end).

End LatLngBounds.

(** ** States of a bounds instance *)

Definition not_nan (p : LatLngObj) : bool :=
  negb (is_nan (lat p)) && negb (is_nan (lng p)).

(** [p.lat <= q.lat && p.lng <= q.lng] *)
Definition ordered (p q : LatLngObj) : bool :=
  le (lat p) (lat q) && le (lng p) (lng q).

Definition is_empty (b : LatLngBoundsObj) : Prop :=
  _southWest b = None /\ _northEast b = None.

Definition is_defined (h : store) (b : LatLngBoundsObj) : Prop :=
  exists sw ne p q,
    _southWest b = Some sw /\ _northEast b = Some ne /\
    points h !! sw = Some p /\ points h !! ne = Some q /\
    ordered p q = true.

Definition corner_refs (b : LatLngBoundsObj) : list ref :=
  option_list (_southWest b) ++ option_list (_northEast b).

(** Every bounds instance is empty or defined, and a corner belongs to one
    instance only. *)
Record well_formed (h : store) : Prop := {
  wf_state : forall i b, boxes h !! i = Some b -> is_empty b \/ is_defined h b;
  wf_owned : forall i j bi bj c,
      boxes h !! i = Some bi -> boxes h !! j = Some bj ->
      c ∈ corner_refs bi -> c ∈ corner_refs bj -> i = j
}.

(** The arguments of [extend] whose coordinates are numbers other than
    [NaN]: nothing, a point, a point literal, a bounds instance, or an array
    of such arguments that is no point literal. *)
Inductive extend_arg (h : store) : value -> Prop :=
| arg_absent v : truthy v = false -> extend_arg h v
| arg_point r p :
    points h !! r = Some p -> not_nan p = true -> extend_arg h (VLatLng r)
| arg_literal v p :
    instanceof_LatLng v = false ->
    LatLng.new v VUndef VUndef h = alloc_point p h -> not_nan p = true ->
    extend_arg h v
| arg_bounds r b : boxes h !! r = Some b -> extend_arg h (VBounds r)
| arg_array l :
    LatLng.validate (VArr l) VUndef VUndef = Ret false ->
    Forall (extend_arg h) l -> extend_arg h (VArr l).

(** The arguments with a point in them: a point, a point literal, a
    defined bounds instance, or an array of arguments one of which has a
    point in it. *)
Inductive holds_point (h : store) : value -> Prop :=
| holds_instance r : holds_point h (VLatLng r)
| holds_literal v p :
    instanceof_LatLng v = false ->
    LatLng.new v VUndef VUndef h = alloc_point p h -> holds_point h v
| holds_bounds r b :
    boxes h !! r = Some b -> is_defined h b -> holds_point h (VBounds r)
| holds_array l :
    LatLng.validate (VArr l) VUndef VUndef = Ret false ->
    Exists (holds_point h) l -> holds_point h (VArr l).

(** From [h] to [h'] the objects of [h] are as they were, except the box
    [this] and the corners it had (the box [b]); the corners it has got
    since (the box [b']) are new objects. *)
Definition evolves (this : ref) (b b' : LatLngBoundsObj) (h h' : store) : Prop :=
  (forall j p, points h !! j = Some p -> j ∉ corner_refs b ->
               points h' !! j = Some p) /\
  (forall j x, boxes h !! j = Some x -> j <> this -> boxes h' !! j = Some x) /\
  (forall c, c ∈ corner_refs b' ->
             c ∈ corner_refs b \/ (length (points h) <= c)%nat).

(** From [h] to [h'] all the objects of [h] are as they were. *)
Definition frozen (h h' : store) : Prop :=
  (forall j p, points h !! j = Some p -> points h' !! j = Some p) /\
  (forall j x, boxes h !! j = Some x -> boxes h' !! j = Some x).

(** From [h] to [h'] no point is lost, and the points of [h] other than
    those in [cs] are as they were. *)
Definition writes_within (cs : list ref) (h h' : store) : Prop :=
  (length (points h) <= length (points h'))%nat /\
  forall j, (j < length (points h))%nat -> j ∉ cs ->
            points h' !! j = points h !! j.

(** From [h] to [h'] the box [this], which was [b], is still there, no point
    but its corners has been written, and the corners it has got since are
    new points. *)
Definition extends_box (this : ref) (b : LatLngBoundsObj) (h h' : store) : Prop :=
  exists b',
    boxes h' !! this = Some b' /\
    writes_within (corner_refs b) h h' /\
    forall c, c ∈ corner_refs b' ->
              c ∈ corner_refs b \/ (length (points h) <= c)%nat.

(** The point [p] lies between the corners [sw] and [ne], edges included. *)
Definition within (sw ne p : LatLngObj) : bool :=
  le (lat sw) (lat p) && le (lat p) (lat ne)
  && le (lng sw) (lng p) && le (lng p) (lng ne).

(** The bounds [this] has both corners set and the point [r] lies between
    them. *)
Definition encloses (h : store) (this r : ref) : Prop :=
  exists sw ne ps pn p,
    boxes h !! this = Some (mkBounds (Some sw) (Some ne)) /\
    points h !! sw = Some ps /\ points h !! ne = Some pn /\
    points h !! r = Some p /\ within ps pn p = true.

(** The store [h] after the bounds [this], new in the store [h0], has been
    extended with the points [seen] of [h0]: the points of [h0] are as they
    were, and the bounds is empty if nothing was seen and otherwise has two
    corners of its own, in order, between which every point seen lies. *)
Definition grown (h0 : store) (this : ref) (seen : list ref) (h : store) : Prop :=
  (length (points h0) <= length (points h))%nat /\
  (forall j, (j < length (points h0))%nat -> points h !! j = points h0 !! j) /\
  exists b, boxes h !! this = Some b /\
    ((b = LatLngBounds.unset /\ seen = []) \/
     exists sw ne ps pn,
       b = mkBounds (Some sw) (Some ne) /\
       (length (points h0) <= sw)%nat /\ (length (points h0) <= ne)%nat /\
       sw <> ne /\
       points h !! sw = Some ps /\ points h !! ne = Some pn /\
       ordered ps pn = true /\
       forall r, r ∈ seen ->
                 exists p, points h0 !! r = Some p /\ within ps pn p = true).

(** A new bounds extended with each point of a sequence in turn:
    [const b = new LatLngBounds(); for (const p of ps) b.extend(p);] *)
Definition bounds_of_points (ps : list ref) : M ref :=
  let* this := LatLngBounds.new VUndef VUndef in
  for_of (VArr (VLatLng <$> ps))
         (fun latlng => LatLngBounds.extend this latlng ;; ret tt) ;;
  ret this.

(** Two rectangles share a point; an edge of one lies on the opposite edge
    of the other. Rectangles that share only an edge or a corner do both. *)
Definition share_a_point (sw ne sw2 ne2 : LatLngObj) : Prop :=
  exists p, within sw ne p = true /\ within sw2 ne2 p = true.

Definition edges_meet (sw ne sw2 ne2 : LatLngObj) : Prop :=
  num_eq (lat ne) (lat sw2) = true \/ num_eq (lat ne2) (lat sw) = true \/
  num_eq (lng ne) (lng sw2) = true \/ num_eq (lng ne2) (lng sw) = true.

(** [h'] is the store after a call, on the store [h], of a method of
    [LatLngBounds] other than [extend]. *)
Definition after_reader (this : ref) (v w : value) (h h' : store) : Prop :=
  (exists o, LatLngBounds.pad this v h = (o, h')) \/
  (exists o, LatLngBounds.getCenter this h = (o, h')) \/
  (exists o, LatLngBounds.getSouthWest this h = (o, h')) \/
  (exists o, LatLngBounds.getNorthEast this h = (o, h')) \/
  (exists o, LatLngBounds.getNorthWest this h = (o, h')) \/
  (exists o, LatLngBounds.getSouthEast this h = (o, h')) \/
  (exists o, LatLngBounds.getWest this h = (o, h')) \/
  (exists o, LatLngBounds.getSouth this h = (o, h')) \/
  (exists o, LatLngBounds.getEast this h = (o, h')) \/
  (exists o, LatLngBounds.getNorth this h = (o, h')) \/
  (exists o, LatLngBounds.contains this v h = (o, h')) \/
  (exists o, LatLngBounds.intersects this v h = (o, h')) \/
  (exists o, LatLngBounds.overlaps this v h = (o, h')) \/
  (exists o, LatLngBounds.toBBoxString this h = (o, h')) \/
  (exists o, LatLngBounds.equals this v w h = (o, h')) \/
  (exists o, LatLngBounds.isValid this h = (o, h')).

(** The arguments with no point in them: nothing, or an empty bounds
    instance. *)
Definition no_op_arg (h : store) (obj : value) : Prop :=
  truthy obj = false \/
  exists r b, obj = VBounds r /\ boxes h !! r = Some b /\ is_empty b.

(** The boxes below [L] other than [this] are the same in [h'] as in [h]. *)
Definition frames (L : nat) (this : ref) (h h' : store) : Prop :=
  (L <= length (boxes h))%nat ->
  (L <= length (boxes h'))%nat /\
  forall j, (j < L)%nat -> j <> this -> boxes h' !! j = boxes h !! j.

(** All boxes below [L] are the same in [h'] as in [h]. *)
Definition keeps (L : nat) (h h' : store) : Prop :=
  (L <= length (boxes h))%nat ->
  (L <= length (boxes h'))%nat /\
  forall j, (j < L)%nat -> boxes h' !! j = boxes h !! j.

(** A corner that is set stays set, to the same object. *)
Definition corners_kept (b b' : LatLngBoundsObj) : Prop :=
  (forall c, _southWest b = Some c -> _southWest b' = Some c) /\
  (forall c, _northEast b = Some c -> _northEast b' = Some c).

(** [c.f = op(c2.f, c.f)] on the list of points. *)
Definition widen_points (op : num -> num -> num) (f : LatLngObj -> num)
           (set_f : num -> LatLngObj -> LatLngObj) (c c2 : ref)
           (pts : list LatLngObj) : list LatLngObj :=
  match pts !! c2, pts !! c with
  | Some p2, Some p => <[c := set_f (op (f p2) (f p)) p]> pts
  | _, _ => pts
  end.

(** The store after [new LatLngBounds(c1, c2)], for two points that hold
    numbers: a new box whose corners are two copies of [c1], widened to the
    point at [r2]. *)
Definition two_point_store (h : store) (r2 : ref) (c1 : LatLngObj) : store :=
  let L := length (points h) in
  mkStore
    (widen_points Math_max lng set_lng (S L) r2
      (widen_points Math_max lat set_lat (S L) r2
        (widen_points Math_min lng set_lng L r2
          (widen_points Math_min lat set_lat L r2
            (points h ++ [mkLatLng (lat c1) (lng c1) None;
                          mkLatLng (lat c1) (lng c1) None])))))
    (boxes h ++ [mkBounds (Some L) (Some (S L))]).

(** On the axis [f] (latitude or longitude) the corners [sw] and [ne] are
    ordered and the corners [sw2] and [ne2] hold numbers. *)
Definition axis_ordered (f : LatLngObj -> num) (sw ne sw2 ne2 : ref)
           (pts : list LatLngObj) : Prop :=
  exists a b c d,
    f <$> pts !! sw = Some a /\ f <$> pts !! ne = Some b /\
    f <$> pts !! sw2 = Some c /\ f <$> pts !! ne2 = Some d /\
    is_nan c = false /\ is_nan d = false /\ le a b = true.

(** What [extend] does to the boxes: the other boxes are as they were, and
    a corner of the receiver that was set is still set to the same object. *)
Definition boxes_extended (this : ref) (h h' : store) : Prop :=
  length (boxes h') = length (boxes h) /\
  (forall j, j <> this -> boxes h' !! j = boxes h !! j) /\
  (forall b, boxes h !! this = Some b ->
             exists b', boxes h' !! this = Some b' /\ corners_kept b b').

(** The branch of [extend] for an argument that is no instance. *)
Definition extend_other (this : ref) (obj : value) : M ref :=
  if negb (truthy obj) then ret this
  else
    let* v := lift (LatLng.validate obj VUndef VUndef) in
    if v then
      let* p := LatLng.new obj VUndef VUndef in
      LatLngBounds.extend_with this p p
    else
      let* b := alloc_box LatLngBounds.unset in
      for_of obj (fun latlng => LatLngBounds.extend b latlng ;; ret tt) ;;
      LatLngBounds.extend_bounds this b.

(** ** The bounding box of a sequence of points *)

(** The order in which [Math.min] and [Math.max] place two numbers: the
    order of the keys, then [-0] before [+0]. *)
Definition zero_rank (x : num) : Z :=
  match x with S754_zero true => -1 | _ => 0 end.

Definition total_le (x y : num) : Prop :=
  let '(a1, a2, a3) := key x in
  let '(b1, b2, b3) := key y in
  a1 < b1 \/
  (a1 = b1 /\
   (a2 < b2 \/
    (a2 = b2 /\ (a3 < b3 \/ (a3 = b3 /\ zero_rank x <= zero_rank y))))).

(** The value that the assignments [c.f = op(p.f, c.f)], made for each
    point [p] of a sequence in turn, leave in [c.f], from the value [a]. *)
Definition fold_axis (op : num -> num -> num) (f : LatLngObj -> num)
           (ps : list LatLngObj) (a : num) : num :=
  fold_left (fun acc p => op (f p) acc) ps a.

(** The corners of the bounding box of the point [p] followed by the
    points [ps]. *)
Definition south_west_of (p : LatLngObj) (ps : list LatLngObj) : LatLngObj :=
  mkLatLng (fold_axis Math_min lat ps (lat p))
           (fold_axis Math_min lng ps (lng p)) None.

Definition north_east_of (p : LatLngObj) (ps : list LatLngObj) : LatLngObj :=
  mkLatLng (fold_axis Math_max lat ps (lat p))
           (fold_axis Math_max lng ps (lng p)) None.

(** ** LatLng: [toBounds] *)

(** [Math.PI], the number nearest to the ratio of a circle's circumference
    to its diameter. *)
Definition Math_PI : num := S754_finite false 7074237752028440 (-51).

(** [toBounds(sizeInMeters)]. The language leaves the value of [Math.cos]
    to the implementation: it is a parameter here. *)
Definition LatLng_toBounds (Math_cos : num -> num) (this : ref)
           (sizeInMeters : value) : M ref :=
  let* p := get_point this in
  let latAccuracy :=
    div (mul (num_of_Z 180) (to_number sizeInMeters)) (num_of_Z 40075017) in
  let lngAccuracy :=
    div latAccuracy (Math_cos (mul (div Math_PI (num_of_Z 180)) (lat p))) in
  LatLngBounds.new
    (VArr [VNum (sub (lat p) latAccuracy); VNum (sub (lng p) lngAccuracy)])
    (VArr [VNum (add (lat p) latAccuracy); VNum (add (lng p) lngAccuracy)]).

(** * Properties *)

#[local] Arguments Number_toString : simpl never.
#[local] Arguments le : simpl never.
#[local] Arguments lt : simpl never.
#[local] Arguments ge : simpl never.
#[local] Arguments gt : simpl never.
#[local] Arguments sub : simpl never.
#[local] Arguments add : simpl never.
#[local] Arguments mul : simpl never.
#[local] Arguments div : simpl never.
#[local] Arguments Math_min : simpl never.
#[local] Arguments Math_max : simpl never.
#[local] Arguments Math_abs : simpl never.
#[local] Arguments num_of_Z : simpl never.
#[local] Arguments num_of_ratio : simpl never.

(** ** Numbers *)

Section NumberOrder.

Ltac cmp_cases :=
  repeat match goal with
  | |- context [Z.compare ?a ?b] => destruct (Z.compare_spec a b)
  | |- context [Pos.compare_cont Eq ?a ?b] =>
      change (Pos.compare_cont Eq a b) with (Pos.compare a b);
      destruct (Pos.compare_spec a b)
  end.

Ltac by_cases x y :=
  destruct x as [[]|[]| |[] ? ?], y as [[]|[]| |[] ? ?]; simpl;
  cmp_cases; simpl;
  split; try (intros; discriminate);
  try (intros (?&?&?); try discriminate; try reflexivity; lia);
  try (intros; repeat split; try reflexivity; lia).

Lemma le_key x y :
  le x y = true <->
  is_nan x = false /\ is_nan y = false /\ key_le (key x) (key y).
Proof. unfold le, SFleb. by_cases x y. Qed.

Lemma lt_key x y :
  lt x y = true <->
  is_nan x = false /\ is_nan y = false /\ key_lt (key x) (key y).
Proof. unfold lt, SFltb. by_cases x y. Qed.

Lemma num_eq_key x y :
  num_eq x y = true <->
  is_nan x = false /\ is_nan y = false /\ key x = key y.
Proof.
  unfold num_eq, SFeqb.
  destruct x as [[]|[]| |[] ? ?], y as [[]|[]| |[] ? ?]; simpl;
  cmp_cases; simpl;
  split; try (intros; discriminate);
  try (intros (?&?&Hk); try discriminate; try reflexivity;
       injection Hk; intros; lia);
  try (intros; repeat split; try reflexivity; congruence).
Qed.

End NumberOrder.

Lemma key_le_refl a : key_le a a.
Proof. destruct a as [[a1 a2] a3]; simpl; lia. Qed.

Lemma key_le_trans a b c : key_le a b -> key_le b c -> key_le a c.
Proof.
  destruct a as [[a1 a2] a3], b as [[b1 b2] b3], c as [[c1 c2] c3]; simpl; lia.
Qed.

Lemma key_lt_not_le a b : key_lt a b <-> ~ key_le b a.
Proof. destruct a as [[a1 a2] a3], b as [[b1 b2] b3]; simpl; lia. Qed.

Lemma le_refl x : is_nan x = false -> le x x = true.
Proof. intros H. apply le_key. auto using key_le_refl. Qed.

Lemma le_trans x y z : le x y = true -> le y z = true -> le x z = true.
Proof.
  rewrite !le_key. intros (?&?&?) (?&?&?). eauto using key_le_trans.
Qed.

Lemma le_not_nan x y :
  le x y = true -> is_nan x = false /\ is_nan y = false.
Proof. rewrite le_key. tauto. Qed.


Lemma key_total a b : key_le a b \/ key_lt b a.
Proof. destruct a as [[a1 a2] a3], b as [[b1 b2] b3]; simpl; lia. Qed.

Lemma key_lt_le a b : key_lt a b -> key_le a b.
Proof. destruct a as [[a1 a2] a3], b as [[b1 b2] b3]; simpl; lia. Qed.

Lemma key_lt_irrefl a b : key_lt a b -> key_le b a -> False.
Proof. destruct a as [[a1 a2] a3], b as [[b1 b2] b3]; simpl; lia. Qed.

Lemma key_le_antisym a b : key_le a b -> key_le b a -> a = b.
Proof.
  destruct a as [[a1 a2] a3], b as [[b1 b2] b3]; simpl; intros.
  repeat f_equal; lia.
Qed.

Lemma lt_false_le x y :
  is_nan x = false -> is_nan y = false -> lt x y = false -> le y x = true.
Proof.
  intros Hx Hy H. apply le_key. repeat split; auto.
  destruct (key_total (key y) (key x)) as [|K]; auto.
  assert (lt x y = true) by (apply lt_key; auto). congruence.
Qed.

Lemma lt_true_le x y : lt x y = true -> le x y = true.
Proof. rewrite lt_key, le_key. intros (?&?&?). auto using key_lt_le. Qed.

Lemma lt_true_not_le x y : lt x y = true -> le y x = false.
Proof.
  rewrite lt_key. intros (?&?&?). destruct (le y x) eqn:E; auto.
  apply le_key in E as (?&?&?). exfalso. eauto using key_lt_irrefl.
Qed.

Lemma num_eq_not_lt x y : num_eq x y = true -> lt x y = false /\ lt y x = false.
Proof.
  rewrite num_eq_key. intros (?&?&K).
  split; [destruct (lt x y) eqn:E | destruct (lt y x) eqn:E]; auto;
    apply lt_key in E as (?&?&E); exfalso;
    eapply key_lt_irrefl; eauto; rewrite K; apply key_le_refl.
Qed.

Lemma Math_min_key x y :
  is_nan x = false -> is_nan y = false ->
  is_nan (Math_min x y) = false /\
  (key (Math_min x y) = key x /\ key_le (key x) (key y) \/
   key (Math_min x y) = key y /\ key_le (key y) (key x)).
Proof.
  intros Hx Hy. unfold Math_min. rewrite Hx, Hy. simpl.
  assert (D : is_nan (if lt y x then y else x) = false /\
    (key (if lt y x then y else x) = key x /\ key_le (key x) (key y) \/
     key (if lt y x then y else x) = key y /\ key_le (key y) (key x))).
  { destruct (lt y x) eqn:E.
    - split; auto. right. split; auto. apply lt_true_le, le_key in E. tauto.
    - split; auto. left. split; auto.
      apply lt_false_le, le_key in E; auto. tauto. }
  destruct x, y; exact D.
Qed.

Lemma Math_max_key x y :
  is_nan x = false -> is_nan y = false ->
  is_nan (Math_max x y) = false /\
  (key (Math_max x y) = key x /\ key_le (key y) (key x) \/
   key (Math_max x y) = key y /\ key_le (key x) (key y)).
Proof.
  intros Hx Hy. unfold Math_max. rewrite Hx, Hy. simpl.
  assert (D : is_nan (if lt x y then y else x) = false /\
    (key (if lt x y then y else x) = key x /\ key_le (key y) (key x) \/
     key (if lt x y then y else x) = key y /\ key_le (key x) (key y))).
  { destruct (lt x y) eqn:E.
    - split; auto. right. split; auto. apply lt_true_le, le_key in E. tauto.
    - split; auto. left. split; auto.
      apply lt_false_le, le_key in E; auto. tauto. }
  destruct x, y; exact D.
Qed.

Lemma Math_min_le_l x y :
  is_nan x = false -> is_nan y = false -> le (Math_min x y) x = true.
Proof.
  intros Hx Hy. destruct (Math_min_key x y Hx Hy) as (N & [[K L]|[K L]]);
    apply le_key; repeat split; auto; rewrite K; auto using key_le_refl.
Qed.

Lemma Math_min_le_r x y :
  is_nan x = false -> is_nan y = false -> le (Math_min x y) y = true.
Proof.
  intros Hx Hy. destruct (Math_min_key x y Hx Hy) as (N & [[K L]|[K L]]);
    apply le_key; repeat split; auto; rewrite K; auto using key_le_refl.
Qed.

Lemma Math_max_ge_l x y :
  is_nan x = false -> is_nan y = false -> le x (Math_max x y) = true.
Proof.
  intros Hx Hy. destruct (Math_max_key x y Hx Hy) as (N & [[K L]|[K L]]);
    apply le_key; repeat split; auto; rewrite K; auto using key_le_refl.
Qed.

Lemma Math_max_ge_r x y :
  is_nan x = false -> is_nan y = false -> le y (Math_max x y) = true.
Proof.
  intros Hx Hy. destruct (Math_max_key x y Hx Hy) as (N & [[K L]|[K L]]);
    apply le_key; repeat split; auto; rewrite K; auto using key_le_refl.
Qed.

Lemma Math_max_nan x y :
  is_nan (Math_max x y) = is_nan x || is_nan y.
Proof.
  destruct (is_nan x) eqn:Hx, (is_nan y) eqn:Hy;
    try (unfold Math_max; rewrite Hx, Hy; reflexivity).
  simpl. apply Math_max_key; auto.
Qed.

(** [Math.max(a, b) <= m] exactly when [a <= m] and [b <= m]. *)
Lemma Math_max_le a b m :
  le (Math_max a b) m = le a m && le b m.
Proof.
  apply eq_true_iff_eq. rewrite andb_true_iff, !le_key, Math_max_nan, orb_false_iff.
  split.
  - intros ((Ha & Hb) & Hm & K).
    destruct (Math_max_key a b Ha Hb) as (_ & [[E L]|[E L]]); rewrite E in K;
      repeat split; eauto using key_le_trans.
  - intros ((Ha & Hm & Ka) & (Hb & _ & Kb)).
    destruct (Math_max_key a b Ha Hb) as (_ & [[E L]|[E L]]); rewrite E; auto.
Qed.

(** ** LatLng: validation and construction *)

Lemma validate_scalars x y alt :
  LatLng.validate (VNum x) (VNum y) alt = Ret (negb (is_nan x) && negb (is_nan y)).
Proof.
  destruct x, y; reflexivity.
Qed.

Lemma new_scalars x y alt h :
  LatLng.new (VNum x) (VNum y) alt h =
  if is_nan x || is_nan y then (Throw InvalidLatLng, h)
  else alloc_point
         (mkLatLng x y (if is_undefined alt then None else Some (to_number alt))) h.
Proof.
  unfold LatLng.new, bind, lift. rewrite validate_scalars.
  destruct (is_nan x), (is_nan y); reflexivity.
Qed.







(** C8: zero is a valid coordinate. With [z] a zero and [x] any number that
    is not [NaN] (zero included), [validate] accepts [(z, x)] and [(x, z)]
    and the constructor stores them. *)
Theorem zero_is_a_valid_coordinate z x alt h
  (Hz : is_zero z = true) (Hx : is_nan x = false) :
  LatLng.validate (VNum z) (VNum x) alt = Ret true
  /\ LatLng.validate (VNum x) (VNum z) alt = Ret true
  /\ LatLng.new (VNum z) (VNum x) VUndef h = alloc_point (mkLatLng z x None) h
  /\ LatLng.new (VNum x) (VNum z) VUndef h = alloc_point (mkLatLng x z None) h.
Proof.
  assert (Hn : is_nan z = false) by (destruct z; simpl in *; congruence).
  rewrite !validate_scalars, !new_scalars, Hn, Hx. simpl. auto.
Qed.

Lemma zero_is_a_valid_coordinate_witness :
  LatLng.validate (VNum zero) (VNum zero) VUndef = Ret true
  /\ LatLng.new (VNum zero) (VNum zero) VUndef empty_store
     = (Ret 0%nat, mkStore [mkLatLng zero zero None] []).
Proof.
  destruct (zero_is_a_valid_coordinate zero zero VUndef empty_store
              eq_refl eq_refl) as (V & _ & N & _).
  split; [exact V | exact N].
Defined.

(** C9: constructing from an instance returns that instance, and the store
    is left as it was. *)
Theorem copy_construction_aliases :
  (forall p lng alt h, LatLng.new (VLatLng p) lng alt h = (Ret p, h))
  /\ (forall b corner2 h, LatLngBounds.new (VBounds b) corner2 h = (Ret b, h)).
Proof. split; reflexivity. Qed.

Lemma new_sole_argument_truthy other h o h' :
  LatLng.new other VUndef VUndef h = (Ret o, h') -> truthy other = true.
Proof.
  destruct other as [| |x| | | |]; try reflexivity;
    unfold LatLng.new, bind, lift; try discriminate.
  destruct x; discriminate.
Qed.

(** ** Running the store operations *)

Lemma bind_run {A B} (m : M A) (k : A -> M B) h :
  bind m k h = match m h with
               | (Ret a, h') => k a h'
               | (Throw e, h') => (Throw e, h')
               end.
Proof. reflexivity. Qed.

Lemma get_point_run (h : store) r p :
  points h !! r = Some p -> get_point r h = (Ret p, h).
Proof. intros H. unfold get_point. now rewrite H. Qed.

Lemma get_box_run (h : store) r b :
  boxes h !! r = Some b -> get_box r h = (Ret b, h).
Proof. intros H. unfold get_box. now rewrite H. Qed.

Lemma set_box_run (h : store) r b f :
  boxes h !! r = Some b ->
  set_box r f h = (Ret tt, mkStore (points h) (<[r := f b]> (boxes h))).
Proof. intros H. unfold set_box. now rewrite H. Qed.

Lemma widen_run op f set_f c c2 (h : store) p2 p :
  points h !! c2 = Some p2 -> points h !! c = Some p ->
  LatLngBounds.widen op f set_f (Some c) c2 h
  = (Ret tt, mkStore (widen_points op f set_f c c2 (points h)) (boxes h)).
Proof.
  intros H2 H. unfold LatLngBounds.widen, widen_points.
  rewrite bind_run, (get_point_run _ _ _ H2), bind_run, (get_point_run _ _ _ H).
  unfold set_point. now rewrite H, H2.
Qed.

Lemma widen_points_length op f set_f c c2 pts :
  length (widen_points op f set_f c c2 pts) = length pts.
Proof.
  unfold widen_points. destruct (pts !! c2), (pts !! c); auto.
  apply length_insert.
Qed.

Lemma widen_points_valid op f set_f c c2 (pts : list LatLngObj) r :
  is_Some (pts !! r) -> is_Some (widen_points op f set_f c c2 pts !! r).
Proof.
  rewrite !lookup_lt_is_Some, widen_points_length. auto.
Qed.

Lemma not_nan_spec p :
  not_nan p = true <-> is_nan (lat p) = false /\ is_nan (lng p) = false.
Proof.
  unfold not_nan. rewrite andb_true_iff, !negb_true_iff. tauto.
Qed.

Lemma new_copy (h : store) p :
  not_nan p = true ->
  LatLng.new (VNum (lat p)) (VNum (lng p)) VUndef h
  = alloc_point (mkLatLng (lat p) (lng p) None) h.
Proof.
  intros [N1 N2]%not_nan_spec. rewrite new_scalars, N1, N2. reflexivity.
Qed.

(** The first extension copies the corners of the argument. *)
Lemma extend_with_unset (h : store) this sw2 ne2 p q :
  boxes h !! this = Some LatLngBounds.unset ->
  points h !! sw2 = Some p -> points h !! ne2 = Some q ->
  not_nan p = true -> not_nan q = true ->
  LatLngBounds.extend_with this sw2 ne2 h
  = (Ret this,
     mkStore (points h ++ [mkLatLng (lat p) (lng p) None;
                           mkLatLng (lat q) (lng q) None])
             (<[this := mkBounds (Some (length (points h)))
                                 (Some (S (length (points h))))]> (boxes h))).
Proof.
  intros Hb Hp Hq Np Nq.
  assert (Hlt : (this < length (boxes h))%nat) by (eapply lookup_lt_Some; eauto).
  unfold LatLngBounds.extend_with.
  rewrite bind_run, (get_box_run _ _ _ Hb). simpl.
  rewrite bind_run, (get_point_run _ _ _ Hp), bind_run, (new_copy _ _ Np).
  unfold alloc_point. rewrite bind_run, (set_box_run _ _ LatLngBounds.unset) by auto.
  rewrite bind_run. unfold get_point at 1. simpl.
  rewrite lookup_app_l by (eapply lookup_lt_Some; eauto). rewrite Hq.
  rewrite bind_run, (new_copy _ _ Nq). unfold alloc_point. simpl.
  rewrite bind_run.
  erewrite set_box_run by (simpl; apply list_lookup_insert_eq; auto).
  simpl. unfold ret. f_equal. f_equal.
  - now rewrite <- app_assoc.
  - rewrite list_insert_insert_eq, length_app. simpl.
    replace (length (points h) + 1)%nat with (S (length (points h))) by lia.
    reflexivity.
Qed.

(** A later extension widens the corners in place. *)
Lemma extend_with_set (h : store) this sw2 ne2 sw ne :
  boxes h !! this = Some (mkBounds (Some sw) (Some ne)) ->
  is_Some (points h !! sw2) -> is_Some (points h !! ne2) ->
  is_Some (points h !! sw) -> is_Some (points h !! ne) ->
  LatLngBounds.extend_with this sw2 ne2 h
  = (Ret this,
     mkStore (widen_points Math_max lng set_lng ne ne2
               (widen_points Math_max lat set_lat ne ne2
                 (widen_points Math_min lng set_lng sw sw2
                   (widen_points Math_min lat set_lat sw sw2 (points h)))))
             (boxes h)).
Proof.
  intros Hb V1 V2 V3 V4.
  unfold LatLngBounds.extend_with.
  rewrite bind_run, (get_box_run _ _ _ Hb). simpl.
  set (p1 := widen_points Math_min lat set_lat sw sw2 (points h)).
  set (p2 := widen_points Math_min lng set_lng sw sw2 p1).
  set (p3 := widen_points Math_max lat set_lat ne ne2 p2).
  assert (W1 : forall r, is_Some (points h !! r) -> is_Some (p1 !! r))
    by (intros; apply widen_points_valid; auto).
  assert (W2 : forall r, is_Some (p1 !! r) -> is_Some (p2 !! r))
    by (intros; apply widen_points_valid; auto).
  assert (W3 : forall r, is_Some (p2 !! r) -> is_Some (p3 !! r))
    by (intros; apply widen_points_valid; auto).
  destruct V1 as [a1 A1], V3 as [c1 C1].
  rewrite bind_run, (widen_run _ _ _ _ _ _ _ _ A1 C1). fold p1.
  destruct (W1 sw2 (mk_is_Some _ _ A1)) as [a2 A2], (W1 sw (mk_is_Some _ _ C1)) as [c2 C2].
  rewrite bind_run, (widen_run _ _ _ _ _ (mkStore p1 _) _ _ A2 C2). simpl. fold p2.
  destruct (W2 _ (W1 _ V2)) as [b3 B3], (W2 _ (W1 _ V4)) as [d3 D3].
  rewrite bind_run, (widen_run _ _ _ _ _ (mkStore p2 _) _ _ B3 D3). simpl. fold p3.
  destruct (W3 _ (mk_is_Some _ _ B3)) as [b4 B4], (W3 _ (mk_is_Some _ _ D3)) as [d4 D4].
  rewrite bind_run, (widen_run _ _ _ _ _ (mkStore p3 _) _ _ B4 D4). simpl.
  reflexivity.
Qed.

(** ** LatLng: equality within a margin *)

(** [equals] of [LatLng] once its argument is converted. *)
Lemma LatLng_equals_max this other maxMargin h o h' p q :
  LatLng.new other VUndef VUndef h = (Ret o, h') ->
  points h' !! this = Some p ->
  points h' !! o = Some q ->
  LatLng.equals this other maxMargin h
  = (Ret (le (Math_max (Math_abs (sub (lat p) (lat q)))
                       (Math_abs (sub (lng p) (lng q))))
             (LatLng.margin_or_default maxMargin)),
     h').
Proof.
  intros Hnew Hp Hq. unfold LatLng.equals.
  rewrite (new_sole_argument_truthy _ _ _ _ Hnew). simpl.
  now rewrite bind_run, Hnew, bind_run, (get_point_run _ _ _ Hp),
    bind_run, (get_point_run _ _ _ Hq).
Qed.

Lemma LatLng_equals_run this other maxMargin h o h' p q :
  LatLng.new other VUndef VUndef h = (Ret o, h') ->
  points h' !! this = Some p ->
  points h' !! o = Some q ->
  LatLng.equals this other maxMargin h
  = (Ret (le (Math_abs (sub (lat p) (lat q))) (LatLng.margin_or_default maxMargin)
          && le (Math_abs (sub (lng p) (lng q))) (LatLng.margin_or_default maxMargin)),
     h').
Proof.
  intros Hnew Hp Hq.
  rewrite (LatLng_equals_max _ _ _ _ _ _ _ _ Hnew Hp Hq).
  now rewrite Math_max_le.
Qed.

(** C6: [equals] converts its argument with the constructor and answers
    whether the maximum of the two per-axis absolute differences is at most
    the margin, that is whether both differences are; the margin is [1e-9]
    when none is given; an absent or [null] argument gives [false] and
    nothing is thrown. *)
Theorem equals_within_margin :
  (forall this other maxMargin h o h' p q,
      LatLng.new other VUndef VUndef h = (Ret o, h') ->
      points h' !! this = Some p ->
      points h' !! o = Some q ->
      LatLng.equals this other maxMargin h
      = (Ret (le (Math_max (Math_abs (sub (lat p) (lat q)))
                           (Math_abs (sub (lng p) (lng q))))
                 (LatLng.margin_or_default maxMargin)),
         h'))
  /\ (forall a b m, le (Math_max a b) m = le a m && le b m)
  /\ LatLng.margin_or_default VUndef = num_of_ratio 1 1000000000
  /\ (forall m, LatLng.margin_or_default (VNum m) = m)
  /\ (forall this maxMargin h,
         LatLng.equals this VUndef maxMargin h = (Ret false, h)
         /\ LatLng.equals this VNull maxMargin h = (Ret false, h)).
Proof.
  split; [|split; [exact Math_max_le|repeat split; reflexivity]].
  intros this other maxMargin h o h' p q Hnew Hp Hq.
  eapply LatLng_equals_max; eauto.
Qed.

(** [new LatLng([50, 30]).equals({lat: 50, lng: 30})] is [true]. *)
Lemma equals_within_margin_witness :
  let h := snd (LatLng.new (VArr [VNum (num_of_Z 50); VNum (num_of_Z 30)])
                           VUndef VUndef empty_store) in
  let other := VRec [("lat"%string, VNum (num_of_Z 50));
                     ("lng"%string, VNum (num_of_Z 30))] in
  fst (LatLng.equals 0%nat other VUndef h) = Ret true.
Proof.
  intros h other.
  destruct equals_within_margin as (E & _).
  rewrite (E 0%nat other VUndef h 1%nat
             (snd (LatLng.new other VUndef VUndef h))
             (mkLatLng (num_of_Z 50) (num_of_Z 30) None)
             (mkLatLng (num_of_Z 50) (num_of_Z 30) None)
             eq_refl eq_refl eq_refl).
  reflexivity.
Defined.

(** ** LatLngBounds: the bounding-box string *)



Lemma corner_set (h : store) c p :
  points h !! c = Some p -> corner (Some c) h = (Ret p, h).
Proof. intros H. unfold corner, get_point. now rewrite H. Qed.

Lemma edge_set (f : LatLngObj -> num) (sel : LatLngBoundsObj -> option ref)
      this (h : store) b c p :
  boxes h !! this = Some b -> sel b = Some c -> points h !! c = Some p ->
  (let* b := get_box this in let* p := corner (sel b) in ret (f p)) h
  = (Ret (f p), h).
Proof.
  intros Hb Hc Hp. unfold bind, get_box. rewrite Hb, Hc.
  now rewrite (corner_set _ _ _ Hp).
Qed.

(** C7: on bounds with both corners set, [toBBoxString] is the west, south,
    east and north edges, in that order, each printed as a number, with a
    single comma between two of them. *)
Theorem toBBoxString_west_south_east_north this h sw ne p q
  (Hbox : boxes h !! this = Some (mkBounds (Some sw) (Some ne)))
  (Hsw : points h !! sw = Some p)
  (Hne : points h !! ne = Some q) :
  LatLngBounds.toBBoxString this h
  = (Ret (String.append (Number_toString (lng p))
         (String ","
         (String.append (Number_toString (lat p))
         (String ","
         (String.append (Number_toString (lng q))
         (String ","
         (Number_toString (lat q)))))))), h).
Proof.
  unfold LatLngBounds.toBBoxString, LatLngBounds.getWest,
    LatLngBounds.getSouth, LatLngBounds.getEast, LatLngBounds.getNorth.
  unfold bind at 1.
  rewrite (edge_set lng _southWest _ _ _ _ _ Hbox eq_refl Hsw).
  unfold bind at 1.
  rewrite (edge_set lat _southWest _ _ _ _ _ Hbox eq_refl Hsw).
  unfold bind at 1.
  rewrite (edge_set lng _northEast _ _ _ _ _ Hbox eq_refl Hne).
  unfold bind at 1.
  rewrite (edge_set lat _northEast _ _ _ _ _ Hbox eq_refl Hne).
  reflexivity.
Qed.

(** [new LatLngBounds([39.61, -105.02], [39.77, -104.8]).toBBoxString()] *)
Lemma toBBoxString_west_south_east_north_witness :
  let c1 := VArr [VNum (num_of_ratio 3961 100); VNum (neg (num_of_ratio 10502 100))] in
  let c2 := VArr [VNum (num_of_ratio 3977 100); VNum (neg (num_of_ratio 1048 10))] in
  let h := snd (LatLngBounds.new c1 c2 empty_store) in
  fst (LatLngBounds.new c1 c2 empty_store) = Ret 0%nat
  /\ fst (LatLngBounds.toBBoxString 0%nat h) = Ret "-105.02,39.61,-104.8,39.77"%string.
Proof.
  intros c1 c2 h. split; [reflexivity|].
  rewrite (toBBoxString_west_south_east_north 0%nat h 1%nat 2%nat
             (mkLatLng (num_of_ratio 3961 100) (neg (num_of_ratio 10502 100)) None)
             (mkLatLng (num_of_ratio 3977 100) (neg (num_of_ratio 1048 10)) None)
             eq_refl eq_refl eq_refl).
  vm_compute. reflexivity.
Defined.

(** ** Widening the corners *)

Lemma widen_points_lookup op f set_f c c2 (pts : list LatLngObj) p2 p r :
  pts !! c2 = Some p2 -> pts !! c = Some p ->
  widen_points op f set_f c c2 pts !! r
  = if decide (r = c) then Some (set_f (op (f p2) (f p)) p) else pts !! r.
Proof.
  intros H2 H. unfold widen_points. rewrite H2, H.
  destruct (decide (r = c)) as [->|Hne].
  - apply list_lookup_insert_eq. eapply lookup_lt_Some; eauto.
  - apply list_lookup_insert_ne. auto.
Qed.

Lemma widen_points_other op f set_f c c2 (pts : list LatLngObj) r :
  r <> c -> widen_points op f set_f c c2 pts !! r = pts !! r.
Proof.
  intros Hne. unfold widen_points.
  destruct (pts !! c2), (pts !! c); auto.
  apply list_lookup_insert_ne. auto.
Qed.

(** A step on one axis leaves the values on the other axis alone. *)
Lemma widen_points_other_axis (g : LatLngObj -> num) op f set_f c c2
      (pts : list LatLngObj) r :
  (forall x p, g (set_f x p) = g p) ->
  g <$> widen_points op f set_f c c2 pts !! r = g <$> pts !! r.
Proof.
  intros Hg. unfold widen_points.
  destruct (pts !! c2) as [p2|] eqn:H2, (pts !! c) as [p|] eqn:H; auto.
  destruct (decide (r = c)) as [->|Hne].
  - rewrite list_lookup_insert_eq by (eapply lookup_lt_Some; eauto).
    rewrite H. simpl. now rewrite Hg.
  - now rewrite list_lookup_insert_ne by auto.
Qed.

Lemma widen_points_axis op (f : LatLngObj -> num) set_f c c2
      (pts : list LatLngObj) a b r :
  (forall x p, f (set_f x p) = x) ->
  f <$> pts !! c2 = Some a -> f <$> pts !! c = Some b ->
  f <$> widen_points op f set_f c c2 pts !! r
  = if decide (r = c) then Some (op a b) else f <$> pts !! r.
Proof.
  intros Hf H2 H.
  destruct (pts !! c2) as [p2|] eqn:E2; [|discriminate].
  destruct (pts !! c) as [p|] eqn:E; [|discriminate].
  simpl in H2, H. injection H2 as <-. injection H as <-.
  rewrite (widen_points_lookup _ _ _ _ _ _ _ _ _ E2 E).
  destruct (decide (r = c)); auto. simpl. now rewrite Hf.
Qed.

Section Axis.

Variables (f : LatLngObj -> num) (set_f : num -> LatLngObj -> LatLngObj).
Hypothesis f_set : forall x p, f (set_f x p) = x.
Variables (sw ne sw2 ne2 : ref).

#[local] Abbreviation axis_ok := (axis_ordered f sw ne sw2 ne2).

Lemma axis_ok_min pts :
  axis_ok pts -> axis_ok (widen_points Math_min f set_f sw sw2 pts).
Proof.
  intros (a & b & c & d & Ha & Hb & Hc & Hd & Nc & Nd & Hab).
  destruct (le_not_nan _ _ Hab) as [Na Nb].
  pose proof (Math_min_key c a Nc Na) as [Nm _].
  pose proof (Math_min_le_r c a Nc Na) as Hm.
  unfold axis_ok, axis_ordered.
  setoid_rewrite (widen_points_axis Math_min f set_f sw sw2 pts c a _ f_set Hc Ha).
  exists (Math_min c a),
    (if decide (ne = sw) then Math_min c a else b),
    (if decide (sw2 = sw) then Math_min c a else c),
    (if decide (ne2 = sw) then Math_min c a else d).
  rewrite decide_True by auto.
  repeat split; try (case_decide; auto).
  - apply le_refl; auto.
  - eapply le_trans; eauto.
Qed.

Lemma axis_ok_max pts :
  axis_ok pts -> axis_ok (widen_points Math_max f set_f ne ne2 pts).
Proof.
  intros (a & b & c & d & Ha & Hb & Hc & Hd & Nc & Nd & Hab).
  destruct (le_not_nan _ _ Hab) as [Na Nb].
  pose proof (Math_max_key d b Nd Nb) as [Nm _].
  pose proof (Math_max_ge_r d b Nd Nb) as Hm.
  unfold axis_ok, axis_ordered.
  setoid_rewrite (widen_points_axis Math_max f set_f ne ne2 pts d b _ f_set Hd Hb).
  exists (if decide (sw = ne) then Math_max d b else a),
    (Math_max d b),
    (if decide (sw2 = ne) then Math_max d b else c),
    (if decide (ne2 = ne) then Math_max d b else d).
  rewrite (decide_True (P := ne = ne)) by auto.
  repeat split; try (case_decide; auto).
  - apply le_refl; auto.
  - eapply le_trans; eauto.
Qed.

Lemma axis_ok_other op g set_g c c2 pts :
  (forall x p, f (set_g x p) = f p) ->
  axis_ok pts -> axis_ok (widen_points op g set_g c c2 pts).
Proof.
  intros Hg. unfold axis_ok, axis_ordered.
  now setoid_rewrite (widen_points_other_axis f op g set_g c c2 pts _ Hg).
Qed.

End Axis.

(** The four assignments of a later extension, on the list of points. *)
Lemma widen_all_ordered (pts : list LatLngObj) sw ne sw2 ne2 ps pn p2 q2 :
  pts !! sw = Some ps -> pts !! ne = Some pn ->
  pts !! sw2 = Some p2 -> pts !! ne2 = Some q2 ->
  ordered ps pn = true -> not_nan p2 = true -> not_nan q2 = true ->
  exists ps' pn',
    widen_points Math_max lng set_lng ne ne2
      (widen_points Math_max lat set_lat ne ne2
        (widen_points Math_min lng set_lng sw sw2
          (widen_points Math_min lat set_lat sw sw2 pts))) !! sw = Some ps' /\
    widen_points Math_max lng set_lng ne ne2
      (widen_points Math_max lat set_lat ne ne2
        (widen_points Math_min lng set_lng sw sw2
          (widen_points Math_min lat set_lat sw sw2 pts))) !! ne = Some pn' /\
    ordered ps' pn' = true.
Proof.
  intros Hs Hn H2 Hq2 [O1 O2]%andb_true_iff [N1 N2]%not_nan_spec
         [N3 N4]%not_nan_spec.
  set (pts' := widen_points Math_max lng set_lng ne ne2 _).
  assert (A1 : axis_ordered lat sw ne sw2 ne2 pts').
  { apply axis_ok_other; [reflexivity|].
    apply (axis_ok_max lat set_lat); [reflexivity|].
    apply axis_ok_other; [reflexivity|].
    apply (axis_ok_min lat set_lat); [reflexivity|].
    exists (lat ps), (lat pn), (lat p2), (lat q2).
    rewrite Hs, Hn, H2, Hq2. auto 10. }
  assert (A2 : axis_ordered lng sw ne sw2 ne2 pts').
  { apply (axis_ok_max lng set_lng); [reflexivity|].
    apply axis_ok_other; [reflexivity|].
    apply (axis_ok_min lng set_lng); [reflexivity|].
    apply axis_ok_other; [reflexivity|].
    exists (lng ps), (lng pn), (lng p2), (lng q2).
    rewrite Hs, Hn, H2, Hq2. auto 10. }
  destruct A1 as (a & b & _ & _ & Ha & Hb & _ & _ & _ & _ & Hab).
  destruct A2 as (a' & b' & _ & _ & Ha' & Hb' & _ & _ & _ & _ & Hab').
  destruct (pts' !! sw) as [ps'|]; [|discriminate].
  destruct (pts' !! ne) as [pn'|]; [|discriminate].
  simpl in *. exists ps', pn'. repeat split.
  unfold ordered. injection Ha as ->. injection Hb as ->.
  injection Ha' as ->. injection Hb' as ->. now rewrite Hab, Hab'.
Qed.

Lemma widen_all_other (pts : list LatLngObj) sw ne sw2 ne2 r :
  r <> sw -> r <> ne ->
  widen_points Math_max lng set_lng ne ne2
    (widen_points Math_max lat set_lat ne ne2
      (widen_points Math_min lng set_lng sw sw2
        (widen_points Math_min lat set_lat sw sw2 pts))) !! r = pts !! r.
Proof. intros. now rewrite !widen_points_other by auto. Qed.

(** ** Well-formed stores *)

Lemma is_defined_corners h b c :
  is_defined h b -> c ∈ corner_refs b -> is_Some (points h !! c).
Proof.
  intros (sw & ne & p & q & Hs & Hn & Hp & Hq & _). unfold corner_refs.
  rewrite Hs, Hn. simpl. intros [->|[->|[]%elem_of_nil]%elem_of_cons]%elem_of_cons; eauto.
Qed.

Lemma is_empty_corners b c : is_empty b -> c ∈ corner_refs b -> False.
Proof.
  intros [Hs Hn]. unfold corner_refs. rewrite Hs, Hn. simpl.
  apply not_elem_of_nil.
Qed.

Lemma wf_corner_valid h i b c :
  well_formed h -> boxes h !! i = Some b -> c ∈ corner_refs b ->
  is_Some (points h !! c).
Proof.
  intros W Hb Hc. destruct (wf_state h W i b Hb) as [E|D].
  - destruct (is_empty_corners _ _ E Hc).
  - eapply is_defined_corners; eauto.
Qed.

Lemma is_defined_grow h b extra obs :
  is_defined h b ->
  is_defined (mkStore (points h ++ extra) obs) b.
Proof.
  intros (sw & ne & p & q & Hs & Hn & Hp & Hq & O).
  exists sw, ne, p, q. simpl. repeat split; auto using lookup_app_l_Some.
Qed.

Lemma well_formed_empty : well_formed empty_store.
Proof. split; simpl; intros *; rewrite lookup_nil; discriminate. Qed.

Lemma well_formed_alloc_point h p :
  well_formed h -> well_formed (snd (alloc_point p h)).
Proof.
  intros [W1 W2]. split; simpl.
  - intros i b Hb. destruct (W1 i b Hb); auto using is_defined_grow.
  - exact W2.
Qed.

Lemma well_formed_alloc_box h :
  well_formed h -> well_formed (snd (alloc_box LatLngBounds.unset h)).
Proof.
  intros [W1 W2]. split; simpl.
  - intros i b [Hb|[_ Hb]]%lookup_app_Some.
    + destruct (W1 i b Hb); auto.
    + apply list_lookup_singleton_Some in Hb as [_ <-].
      left. split; reflexivity.
  - intros i j bi bj c [Hi|[Li Hi]]%lookup_app_Some [Hj|[Lj Hj]]%lookup_app_Some Ci Cj.
    + eauto.
    + apply list_lookup_singleton_Some in Hj as [_ <-].
      destruct (is_empty_corners LatLngBounds.unset c); auto. split; reflexivity.
    + apply list_lookup_singleton_Some in Hi as [_ <-].
      destruct (is_empty_corners LatLngBounds.unset c); auto. split; reflexivity.
    + apply list_lookup_singleton_Some in Hi as [Hi _].
      apply list_lookup_singleton_Some in Hj as [Hj _]. lia.
Qed.

(** The first extension of an empty instance, in a well-formed store. *)
Lemma well_formed_first_extension h this p q :
  well_formed h -> boxes h !! this = Some LatLngBounds.unset ->
  ordered p q = true ->
  well_formed
    (mkStore (points h ++ [mkLatLng (lat p) (lng p) None;
                           mkLatLng (lat q) (lng q) None])
             (<[this := mkBounds (Some (length (points h)))
                                 (Some (S (length (points h))))]> (boxes h))).
Proof.
  intros W Hb O. pose proof W as [W1 W2].
  assert (Hlt : (this < length (boxes h))%nat) by (eapply lookup_lt_Some; eauto).
  set (L := length (points h)).
  assert (Fresh : forall i b c, i <> this -> boxes h !! i = Some b ->
                                c ∈ corner_refs b -> (c < L)%nat).
  { intros i b c _ Hi Hc. eapply lookup_lt_is_Some, wf_corner_valid; eauto. }
  split; simpl.
  - intros i b Hi. destruct (decide (i = this)) as [->|Hne].
    + rewrite list_lookup_insert_eq in Hi by auto. injection Hi as <-.
      right. exists L, (S L), (mkLatLng (lat p) (lng p) None),
               (mkLatLng (lat q) (lng q) None). simpl.
      repeat split; auto.
      * rewrite lookup_app_r by (unfold L; lia).
        replace (L - length (points h))%nat with 0%nat by (unfold L; lia).
        reflexivity.
      * rewrite lookup_app_r by (unfold L; lia).
        replace (S L - length (points h))%nat with 1%nat by (unfold L; lia).
        reflexivity.
    + rewrite list_lookup_insert_ne in Hi by auto.
      destruct (W1 i b Hi); auto using is_defined_grow.
  - intros i j bi bj c Hi Hj Ci Cj.
    destruct (decide (i = this)) as [->|Ni], (decide (j = this)) as [->|Nj]; auto.
    + rewrite list_lookup_insert_eq in Hi by auto. injection Hi as <-.
      rewrite list_lookup_insert_ne in Hj by auto.
      pose proof (Fresh j bj c Nj Hj Cj).
      unfold corner_refs in Ci. simpl in Ci.
      apply elem_of_cons in Ci as [->|[->|[]%elem_of_nil]%elem_of_cons]; lia.
    + rewrite list_lookup_insert_eq in Hj by auto. injection Hj as <-.
      rewrite list_lookup_insert_ne in Hi by auto.
      pose proof (Fresh i bi c Ni Hi Ci).
      unfold corner_refs in Cj. simpl in Cj.
      apply elem_of_cons in Cj as [->|[->|[]%elem_of_nil]%elem_of_cons]; lia.
    + rewrite list_lookup_insert_ne in Hi, Hj by auto. eauto.
Qed.

(** A later extension, in a well-formed store. *)
Lemma well_formed_later_extension h this sw ne sw2 ne2 p2 q2 :
  well_formed h -> boxes h !! this = Some (mkBounds (Some sw) (Some ne)) ->
  points h !! sw2 = Some p2 -> points h !! ne2 = Some q2 ->
  not_nan p2 = true -> not_nan q2 = true ->
  well_formed
    (mkStore (widen_points Math_max lng set_lng ne ne2
               (widen_points Math_max lat set_lat ne ne2
                 (widen_points Math_min lng set_lng sw sw2
                   (widen_points Math_min lat set_lat sw sw2 (points h)))))
             (boxes h)).
Proof.
  intros W Hb H2 Hq2 N2 Nq2. pose proof W as [W1 W2].
  destruct (W1 _ _ Hb) as [[E _]|D]; [discriminate|].
  destruct D as (sw' & ne' & ps & pn & Es & En & Hs & Hn & O).
  simpl in Es, En. injection Es as <-. injection En as <-.
  split; simpl; [|exact W2].
  intros i b Hi. destruct (W1 i b Hi) as [|D]; auto. right.
  destruct (decide (i = this)) as [->|Ni].
  - rewrite Hb in Hi. injection Hi as <-.
    destruct (widen_all_ordered _ _ _ _ _ _ _ _ _ Hs Hn H2 Hq2 O N2 Nq2)
      as (ps' & pn' & Hs' & Hn' & O').
    exists sw, ne, ps', pn'. simpl. auto.
  - destruct D as (s & n & p & q & Es & En & Hp & Hq & O').
    assert (Own : forall c, c ∈ corner_refs b -> c <> sw /\ c <> ne).
    { intros c Hc. split; intros ->; apply Ni;
        apply (W2 i this b _ _ Hi Hb Hc); unfold corner_refs; simpl;
        rewrite !elem_of_cons; auto. }
    assert (Cs : s ∈ corner_refs b)
      by (unfold corner_refs; rewrite Es, En; simpl; rewrite !elem_of_cons; auto).
    assert (Cn : n ∈ corner_refs b)
      by (unfold corner_refs; rewrite Es, En; simpl; rewrite !elem_of_cons; auto).
    exists s, n, p, q. simpl.
    rewrite !widen_all_other by (apply Own; auto). auto.
Qed.

(** ** What a method may change among the boxes *)

Lemma bind_inv {A B} (m : M A) (k : A -> M B) h o h' :
  bind m k h = (o, h') ->
  (exists a h1, m h = (Ret a, h1) /\ k a h1 = (o, h')) \/
  (exists e, m h = (Throw e, h') /\ o = Throw e).
Proof.
  unfold bind. destruct (m h) as [[a|e] h1]; intros H.
  - left. eauto.
  - right. injection H as <- <-. eauto.
Qed.

Ltac inv_bind H :=
  let a := fresh "a" in
  let h1 := fresh "h" in
  let e := fresh "e" in
  let H1 := fresh "Hm" in
  apply bind_inv in H as [(a & h1 & H1 & H) | (e & H1 & ->)].

Lemma keeps_refl L h : keeps L h h.
Proof. intros H. auto. Qed.

Lemma keeps_trans L h1 h2 h3 : keeps L h1 h2 -> keeps L h2 h3 -> keeps L h1 h3.
Proof.
  intros H12 H23 H1. destruct (H12 H1) as [H2 E12].
  destruct (H23 H2) as [H3 E23]. split; auto.
  intros j Hj. rewrite E23, E12; auto.
Qed.

Lemma frames_refl L this h : frames L this h h.
Proof. intros H. auto. Qed.

Lemma frames_trans L this h1 h2 h3 :
  frames L this h1 h2 -> frames L this h2 h3 -> frames L this h1 h3.
Proof.
  intros H12 H23 H1. destruct (H12 H1) as [H2 E12].
  destruct (H23 H2) as [H3 E23]. split; auto.
  intros j Hj Hne. rewrite E23, E12; auto.
Qed.

Lemma keeps_frames L this h h' : keeps L h h' -> frames L this h h'.
Proof. intros K H. destruct (K H). auto. Qed.

Lemma frames_keeps L this h h' :
  (L <= this)%nat -> frames L this h h' -> keeps L h h'.
Proof. intros Hle F H. destruct (F H) as [H' E]. split; auto. intros. apply E; lia. Qed.

Lemma same_boxes_keeps L h h' : boxes h' = boxes h -> keeps L h h'.
Proof. intros E H. rewrite E. auto. Qed.

Lemma keeps_alloc_box L b h : keeps L h (snd (alloc_box b h)).
Proof.
  intros H. simpl. rewrite length_app. split; [lia|].
  intros j Hj. apply lookup_app_l. lia.
Qed.

(** The constructor of [LatLng] returns its argument, or throws, or adds
    one point to the store. *)
Lemma new_LatLng_store lat lng alt h o h' :
  LatLng.new lat lng alt h = (o, h') ->
  h' = h \/ exists p, (o, h') = alloc_point p h.
Proof.
  unfold LatLng.new, LatLng.init, throw, ret. rewrite bind_run. unfold lift.
  destruct (LatLng.validate lat lng alt) as [[]|]; simpl;
    [|intros [= <- <-]; auto..].
  destruct lat; try rewrite bind_run; unfold lift;
    repeat match goal with
      | |- context [LatLng.object_with_lat ?v] =>
          destruct (LatLng.object_with_lat v) as [[]|]
      | |- context [in_ ?k ?v] => rewrite bind_run; destruct (in_ k v) as [[]|]
      | |- context [if ?c then _ else _] => destruct c
      end;
    intros H; first [ injection H as <- <-; now left
                    | right; eexists; symmetry; exact H ].
Qed.

Lemma new_LatLng_boxes lat lng alt h o h' :
  LatLng.new lat lng alt h = (o, h') -> boxes h' = boxes h.
Proof.
  intros [->|[p E]]%new_LatLng_store; auto. injection E as _ ->. reflexivity.
Qed.

Lemma get_point_store r h o h' : get_point r h = (o, h') -> h' = h.
Proof. unfold get_point. destruct (_ !! _); now intros [= _ <-]. Qed.

Lemma get_box_store r h o h' :
  get_box r h = (o, h') ->
  h' = h /\ (forall b, o = Ret b -> boxes h !! r = Some b).
Proof.
  unfold get_box. destruct (_ !! _); intros [= <- <-]; split; auto; congruence.
Qed.

Lemma corner_store c h o h' : corner c h = (o, h') -> h' = h.
Proof.
  destruct c; simpl; [apply get_point_store|]. now intros [= _ <-].
Qed.

Lemma set_point_boxes r f h o h' : set_point r f h = (o, h') -> boxes h' = boxes h.
Proof. unfold set_point. destruct (_ !! _); now intros [= _ <-]. Qed.

Lemma widen_boxes op f set_f c c2 h o h' :
  LatLngBounds.widen op f set_f c c2 h = (o, h') -> boxes h' = boxes h.
Proof.
  unfold LatLngBounds.widen. intros H. inv_bind H.
  - apply get_point_store in Hm as ->. destruct c; [|now injection H as _ <-].
    inv_bind H.
    + apply get_point_store in Hm as ->. eapply set_point_boxes; eauto.
    + now apply get_point_store in Hm as ->.
  - now apply get_point_store in Hm as ->.
Qed.

Lemma set_box_store r f h o h' :
  set_box r f h = (o, h') ->
  h' = h \/ exists b, boxes h !! r = Some b /\
                      h' = mkStore (points h) (<[r := f b]> (boxes h)).
Proof.
  unfold set_box. destruct (boxes h !! r) as [b|]; intros [= <- <-]; eauto.
Qed.

Lemma corners_kept_refl b : corners_kept b b.
Proof. split; auto. Qed.

Lemma corners_kept_trans b1 b2 b3 :
  corners_kept b1 b2 -> corners_kept b2 b3 -> corners_kept b1 b3.
Proof. intros [A B] [C D]. split; auto. Qed.

Lemma boxes_extended_same this h h' :
  boxes h' = boxes h -> boxes_extended this h h'.
Proof.
  intros E. unfold boxes_extended. rewrite E.
  repeat split; eauto using corners_kept_refl.
Qed.

Lemma boxes_extended_trans this h1 h2 h3 :
  boxes_extended this h1 h2 -> boxes_extended this h2 h3 ->
  boxes_extended this h1 h3.
Proof.
  intros (L1 & F1 & K1) (L2 & F2 & K2). repeat split.
  - congruence.
  - intros j Hj. rewrite F2, F1; auto.
  - intros b Hb. destruct (K1 b Hb) as (b' & Hb' & Kb).
    destruct (K2 b' Hb') as (b'' & Hb'' & Kb').
    eauto using corners_kept_trans.
Qed.

Lemma boxes_extended_insert this b b' h h' :
  boxes h !! this = Some b -> corners_kept b b' ->
  boxes h' = <[this := b']> (boxes h) -> boxes_extended this h h'.
Proof.
  intros Hb K E. unfold boxes_extended. rewrite E. repeat split.
  - apply length_insert.
  - intros j Hj. now apply list_lookup_insert_ne.
  - intros b0 Hb0. exists b'. split.
    + apply list_lookup_insert_eq. eapply lookup_lt_Some; eauto.
    + congruence.
Qed.

Lemma boxes_extended_frames L this h h' :
  boxes_extended this h h' -> frames L this h h'.
Proof.
  intros (E & F & _) H. split; [lia|]. intros j _ Hj. auto.
Qed.

Lemma bind_boxes {A B} (m : M A) (k : A -> M B) h o h' :
  (forall o1 h1, m h = (o1, h1) -> boxes h1 = boxes h) ->
  (forall a h1 o2 h2, k a h1 = (o2, h2) -> boxes h2 = boxes h1) ->
  bind m k h = (o, h') -> boxes h' = boxes h.
Proof.
  intros Hm Hk H. inv_bind H.
  - rewrite (Hk _ _ _ _ H). eauto.
  - eauto.
Qed.

Lemma extend_with_boxes this sw2 ne2 h o h' :
  LatLngBounds.extend_with this sw2 ne2 h = (o, h') ->
  boxes_extended this h h'.
Proof.
  unfold LatLngBounds.extend_with. intros H. inv_bind H.
  2: { apply get_box_store in Hm as [-> _]. now apply boxes_extended_same. }
  apply get_box_store in Hm as [-> Hb]. specialize (Hb _ eq_refl).
  destruct (_southWest a) as [sw|] eqn:Esw.
  { apply boxes_extended_same. revert H.
    repeat (apply bind_boxes; [intros *; apply widen_boxes|intros ? ? ? ?]).
    now intros [= _ <-]. }
  destruct (_northEast a) as [ne|] eqn:Ene.
  { apply boxes_extended_same. revert H.
    repeat (apply bind_boxes; [intros *; apply widen_boxes|intros ? ? ? ?]).
    now intros [= _ <-]. }
  inv_bind H.
  2: { apply get_point_store in Hm as ->. now apply boxes_extended_same. }
  apply get_point_store in Hm as ->.
  inv_bind H.
  2: { apply new_LatLng_boxes in Hm. now apply boxes_extended_same. }
  apply new_LatLng_boxes in Hm. rename Hm into E1.
  rewrite bind_run, (set_box_run _ _ a) in H by congruence.
  assert (K1 : corners_kept a (set_southWest a1 a))
    by (split; simpl; auto; congruence).
  inv_bind H.
  2: { apply get_point_store in Hm as ->.
       eapply boxes_extended_insert; eauto. simpl. congruence. }
  apply get_point_store in Hm as ->.
  inv_bind H.
  2: { apply new_LatLng_boxes in Hm. simpl in Hm.
       eapply boxes_extended_insert; eauto. congruence. }
  apply new_LatLng_boxes in Hm. simpl in Hm. rename Hm into E2.
  assert (Hlt : (this < length (boxes h))%nat) by (eapply lookup_lt_Some; eauto).
  rewrite bind_run, (set_box_run _ _ (set_southWest a1 a)) in H
    by (rewrite E2, E1; apply list_lookup_insert_eq; auto).
  injection H as _ <-.
  eapply (boxes_extended_insert this a
            (set_northEast a3 (set_southWest a1 a))); eauto.
  - split; simpl; auto; congruence.
  - simpl. rewrite E2, E1. apply list_insert_insert_eq.
Qed.

Lemma extend_bounds_boxes this b2 h o h' :
  LatLngBounds.extend_bounds this b2 h = (o, h') ->
  boxes_extended this h h'.
Proof.
  unfold LatLngBounds.extend_bounds. intros H. inv_bind H.
  2: { apply get_box_store in Hm as [-> _]. now apply boxes_extended_same. }
  apply get_box_store in Hm as [-> _].
  destruct (_southWest a), (_northEast a);
    try (injection H as _ <-; now apply boxes_extended_same).
  eapply extend_with_boxes; eauto.
Qed.

(** Induction on values, with the elements of an array as sub-values. *)
Lemma value_nested_ind (P : value -> Prop) :
  P VUndef -> P VNull -> (forall x, P (VNum x)) ->
  (forall l, Forall P l -> P (VArr l)) ->
  (forall props, P (VRec props)) ->
  (forall r, P (VLatLng r)) -> (forall r, P (VBounds r)) ->
  forall v, P v.
Proof.
  intros HU HN Hnum HArr HRec HL HB. fix IH 1.
  intros [| |x|l|props|r|r]; try (clear IH; auto; fail).
  apply HArr. induction l as [|e l IHl]; constructor; [apply IH|exact IHl].
Qed.

Lemma extend_unfold this obj :
  LatLngBounds.extend this obj =
  match obj with
  | VLatLng p => LatLngBounds.extend_with this p p
  | VBounds b => LatLngBounds.extend_bounds this b
  | _ => extend_other this obj
  end.
Proof. destruct obj; reflexivity. Qed.

Lemma bind_rel (R : store -> store -> Prop) {A B} (m : M A) (k : A -> M B)
      h o h' :
  (forall h1 h2 h3, R h1 h2 -> R h2 h3 -> R h1 h3) ->
  (forall o1 h1, m h = (o1, h1) -> R h h1) ->
  (forall a h1 o2 h2, k a h1 = (o2, h2) -> R h1 h2) ->
  bind m k h = (o, h') -> R h h'.
Proof.
  intros T Hm Hk H. inv_bind H; eauto.
Qed.

Lemma for_of_rel (R : store -> store -> Prop) v body :
  (forall h, R h h) ->
  (forall h1 h2 h3, R h1 h2 -> R h2 h3 -> R h1 h3) ->
  Forall (fun e => forall h o h', body e h = (o, h') -> R h h') (elements v) ->
  forall h o h', for_of v body h = (o, h') -> R h h'.
Proof.
  intros Rr Rt HF.
  destruct v; simpl; try (intros h o h' [= _ <-]; apply Rr).
  simpl in HF. induction HF as [|e l He _ IH]; intros h o h'.
  - intros [= _ <-]; apply Rr.
  - apply bind_rel; auto. intros; eapply He; eauto.
Qed.

Lemma extend_other_frames this obj :
  Forall (fun e => forall this h o h' L,
              LatLngBounds.extend this e h = (o, h') -> frames L this h h')
         (elements obj) ->
  forall h o h' L, extend_other this obj h = (o, h') -> frames L this h h'.
Proof.
  intros IH h o h' L. unfold extend_other.
  destruct (negb (truthy obj)); [intros [= _ <-]; apply frames_refl|].
  rewrite bind_run. unfold lift.
  destruct (LatLng.validate obj VUndef VUndef) as [[]|];
    [| |intros [= _ <-]; apply frames_refl].
  - apply bind_rel; [apply frames_trans| |].
    + intros o1 h1 H. apply keeps_frames, same_boxes_keeps.
      eapply new_LatLng_boxes; eauto.
    + intros a h1 o2 h2 H. eapply boxes_extended_frames, extend_with_boxes; eauto.
  - intros H HL. cut (frames L this h h'); [intros F; exact (F HL)|].
    inv_bind H.
    2: discriminate Hm.
    injection Hm as <- <-.
    assert (K1 := keeps_alloc_box L LatLngBounds.unset h).
    set (h1 := snd (alloc_box LatLngBounds.unset h)) in *.
    assert (K2 : forall o2 h2,
               for_of obj (fun latlng => LatLngBounds.extend (length (boxes h)) latlng ;; ret tt)
                      h1 = (o2, h2) -> keeps L h1 h2).
    { apply for_of_rel; [apply keeps_refl|apply keeps_trans|].
      eapply Forall_impl; [exact IH|]. simpl. intros e He h2 o2 h3.
      apply bind_rel; [apply keeps_trans| |].
      - intros o1 h4 Hx. eapply frames_keeps; [|eapply He; eauto]. exact HL.
      - intros a h4 o3 h5 [= _ <-]. apply keeps_refl. }
    apply (frames_trans _ _ _ h1); [apply keeps_frames, K1|].
    revert H. apply bind_rel; [apply frames_trans| |].
    + intros o1 h2 H. apply keeps_frames. eauto.
    + intros. eapply boxes_extended_frames, extend_bounds_boxes; eauto.
Qed.

(** [extend], whatever its argument and its outcome, leaves the other boxes
    as they were. *)
Lemma extend_frames obj :
  forall this h o h' L,
    LatLngBounds.extend this obj h = (o, h') -> frames L this h h'.
Proof.
  induction obj using value_nested_ind; intros this h o h' L;
    rewrite extend_unfold;
    try (apply extend_other_frames; simpl; auto; fail).
  - intros. eapply boxes_extended_frames, extend_with_boxes; eauto.
  - intros. eapply boxes_extended_frames, extend_bounds_boxes; eauto.
Qed.

Lemma for_of_extend_keeps L b v h o h' :
  (L <= b)%nat ->
  for_of v (fun latlng => LatLngBounds.extend b latlng ;; ret tt) h = (o, h') ->
  keeps L h h'.
Proof.
  intros Hle. apply for_of_rel; [apply keeps_refl|apply keeps_trans|].
  apply Forall_forall. intros e _ h1 o1 h2.
  apply bind_rel; [apply keeps_trans| |].
  - intros o2 h3 H. eapply frames_keeps; [|eapply extend_frames; eauto]. exact Hle.
  - intros a h3 o3 h4 [= _ <-]. apply keeps_refl.
Qed.

(** [extend], whatever its argument and its outcome, never unsets a corner
    of the receiver nor moves it to another object. *)
Lemma extend_corners_kept obj this h o h' b :
  LatLngBounds.extend this obj h = (o, h') ->
  boxes h !! this = Some b ->
  exists b', boxes h' !! this = Some b' /\ corners_kept b b'.
Proof.
  intros H Hb. rewrite extend_unfold in H.
  assert (G : extend_other this obj h = (o, h') ->
              exists b', boxes h' !! this = Some b' /\ corners_kept b b').
  { clear H. unfold extend_other.
    destruct (negb (truthy obj));
      [intros [= _ <-]; eauto using corners_kept_refl|].
    rewrite bind_run. unfold lift.
    destruct (LatLng.validate obj VUndef VUndef) as [[]|];
      [| |intros [= _ <-]; eauto using corners_kept_refl].
    - intros H. inv_bind H.
      + apply new_LatLng_boxes in Hm. apply extend_with_boxes in H as (_ & _ & K).
        apply K. congruence.
      + apply new_LatLng_boxes in Hm. rewrite Hm. eauto using corners_kept_refl.
    - intros H. inv_bind H; [|discriminate Hm]. injection Hm as <- <-.
      assert (Hlt : (this < length (boxes h))%nat) by (eapply lookup_lt_Some; eauto).
      assert (K1 := keeps_alloc_box (length (boxes h)) LatLngBounds.unset h).
      set (h1 := snd (alloc_box LatLngBounds.unset h)) in *.
      inv_bind H.
      + apply for_of_extend_keeps with (L := length (boxes h)) in Hm; [|lia].
        destruct (keeps_trans _ _ _ _ K1 Hm) as [_ E]; [lia|].
        apply extend_bounds_boxes in H as (_ & _ & K). apply K.
        rewrite E; auto.
      + apply for_of_extend_keeps with (L := length (boxes h)) in Hm; [|lia].
        destruct (keeps_trans _ _ _ _ K1 Hm) as [_ E]; [lia|].
        rewrite E by auto. eauto using corners_kept_refl. }
  destruct obj; try (apply G; exact H); clear G.
  apply extend_bounds_boxes in H as (_ & _ & K). auto.
Qed.

(** The constructor of [LatLngBounds], whatever its arguments and its
    outcome, leaves the boxes of the store as they were. *)
Lemma new_LatLngBounds_keeps corner1 corner2 h o h' L :
  LatLngBounds.new corner1 corner2 h = (o, h') -> keeps L h h'.
Proof.
  unfold LatLngBounds.new.
  assert (A : forall o h', alloc_box LatLngBounds.unset h = (o, h') -> keeps L h h')
    by (intros ? ? [= _ <-]; apply keeps_alloc_box).
  assert (G : forall latlngs,
    (let* this := alloc_box LatLngBounds.unset in
     for_of latlngs (fun latlng => LatLngBounds.extend this latlng ;; ret tt) ;;
     ret this) h = (o, h') -> keeps L h h').
  { intros latlngs H HL. cut (keeps L h h'); [intros F; exact (F HL)|].
    inv_bind H; [|discriminate Hm]. injection Hm as <- <-.
    apply (keeps_trans _ _ (snd (alloc_box LatLngBounds.unset h)));
      [apply keeps_alloc_box|].
    revert H. apply bind_rel; [apply keeps_trans| |].
    - intros o1 h1. apply for_of_extend_keeps. exact HL.
    - intros a h1 o2 h2 [= _ <-]. apply keeps_refl. }
  destruct (negb (truthy corner1)); [apply A|].
  destruct corner1; try apply G.
  intros [= _ <-]. apply keeps_refl.
Qed.

(** ** The methods that only read *)

Lemma ret_keeps {A} L (a : A) h o h' : ret a h = (o, h') -> keeps L h h'.
Proof. intros [= _ <-]. apply keeps_refl. Qed.

Lemma throw_keeps {A} L e h (o : outcome A) h' :
  throw e h = (o, h') -> keeps L h h'.
Proof. intros [= _ <-]. apply keeps_refl. Qed.

Lemma lift_keeps {A} L (x : outcome A) h o h' :
  lift x h = (o, h') -> keeps L h h'.
Proof. intros [= _ <-]. apply keeps_refl. Qed.

Lemma get_box_keeps L r h o h' : get_box r h = (o, h') -> keeps L h h'.
Proof. intros [-> _]%get_box_store. apply keeps_refl. Qed.

Lemma get_point_keeps L r h o h' : get_point r h = (o, h') -> keeps L h h'.
Proof. intros ->%get_point_store. apply keeps_refl. Qed.

Lemma corner_keeps L c h o h' : corner c h = (o, h') -> keeps L h h'.
Proof. intros ->%corner_store. apply keeps_refl. Qed.

Lemma new_LatLng_keeps L lat lng alt h o h' :
  LatLng.new lat lng alt h = (o, h') -> keeps L h h'.
Proof. intros H. eapply same_boxes_keeps, new_LatLng_boxes; eauto. Qed.

Ltac keeps_tac :=
  repeat first
    [ apply new_LatLng_keeps | apply new_LatLngBounds_keeps
    | apply get_box_keeps | apply get_point_keeps | apply corner_keeps
    | apply ret_keeps | apply throw_keeps | apply lift_keeps
    | apply bind_rel; [apply keeps_trans | intros ? ? | intros ? ? ? ?]
    | match goal with
      | |- (if ?x then _ else _) _ = _ -> _ => destruct x
      | |- (match ?x with _ => _ end) _ = _ -> _ => destruct x
      | |- (let (_, _) := ?x in _) _ = _ -> _ => destruct x
      end ].

Lemma LatLng_equals_keeps L this obj maxMargin h o h' :
  LatLng.equals this obj maxMargin h = (o, h') -> keeps L h h'.
Proof. unfold LatLng.equals. keeps_tac. Qed.

Lemma cmp_keeps L op f a b h o h' :
  LatLngBounds.cmp op f a b h = (o, h') -> keeps L h h'.
Proof. unfold LatLngBounds.cmp. keeps_tac. Qed.

Lemma and_then_keeps L (a b : M bool) h o h' :
  (forall h o h', a h = (o, h') -> keeps L h h') ->
  (forall h o h', b h = (o, h') -> keeps L h h') ->
  and_then a b h = (o, h') -> keeps L h h'.
Proof.
  intros Ha Hb. unfold and_then.
  apply bind_rel; [apply keeps_trans|intros; eapply Ha; eauto|].
  intros [] ? ? ?; [apply Hb|apply ret_keeps].
Qed.

Ltac keeps_more :=
  repeat first
    [ apply cmp_keeps | apply LatLng_equals_keeps
    | apply and_then_keeps; intros ? ? ?
    | progress keeps_tac ].

(** Every method other than [extend], whatever its arguments and its
    outcome, leaves all the boxes of the store as they were. *)
Lemma readers_keep_boxes L this (v w : value) h h' :
  after_reader this v w h h' -> keeps L h h'.
Proof.
  unfold after_reader, LatLngBounds.pad, LatLngBounds.getCenter,
    LatLngBounds.getNorthWest,
    LatLngBounds.getSouthEast, LatLngBounds.contains, LatLngBounds.intersects,
    LatLngBounds.overlaps, LatLngBounds.toBBoxString, LatLngBounds.equals,
    LatLngBounds.isValid, LatLngBounds.getWest, LatLngBounds.getSouth,
    LatLngBounds.getEast, LatLngBounds.getNorth, LatLngBounds.getSouthWest,
    LatLngBounds.getNorthEast.
  intros H.
  repeat (destruct H as [[o H]|H]; [revert H; keeps_more|]).
  destruct H as [o H]. revert H. keeps_more.
Qed.

(** ** [extend] on a well-formed store *)

Lemma is_empty_unset b : is_empty b -> b = LatLngBounds.unset.
Proof. destruct b as [s n]. intros [E1 E2]. simpl in *. now subst. Qed.

Lemma ordered_not_nan p q :
  ordered p q = true -> not_nan p = true /\ not_nan q = true.
Proof.
  intros [[A B]%le_not_nan [C D]%le_not_nan]%andb_true_iff.
  rewrite !not_nan_spec. auto.
Qed.

Lemma ordered_refl p : not_nan p = true -> ordered p p = true.
Proof.
  intros [A B]%not_nan_spec. unfold ordered. now rewrite !le_refl.
Qed.

Lemma well_formed_defined h i b sw :
  well_formed h -> boxes h !! i = Some b ->
  _southWest b = Some sw \/ _northEast b = Some sw -> is_defined h b.
Proof.
  intros W Hb Hc. destruct (wf_state h W i b Hb) as [[E1 E2]|]; auto.
  destruct Hc; congruence.
Qed.

Lemma frozen_refl h : frozen h h.
Proof. split; auto. Qed.

Lemma frozen_trans h1 h2 h3 : frozen h1 h2 -> frozen h2 h3 -> frozen h1 h3.
Proof. intros [A B] [C D]. split; auto. Qed.

Lemma frozen_length h h' :
  frozen h h' -> (length (points h) <= length (points h'))%nat.
Proof.
  intros [A _]. destruct (decide (length (points h) <= length (points h'))%nat); auto.
  destruct (lookup_lt_is_Some_2 (points h) (length (points h'))) as [p Hp]; [lia|].
  apply A, lookup_lt_Some in Hp. lia.
Qed.

Lemma frozen_alloc_point h p : frozen h (snd (alloc_point p h)).
Proof. split; simpl; auto using lookup_app_l_Some. Qed.

Lemma frozen_alloc_box h b : frozen h (snd (alloc_box b h)).
Proof. split; simpl; auto using lookup_app_l_Some. Qed.

Lemma evolves_refl this b h : evolves this b b h h.
Proof. repeat split; auto. Qed.

(** Extending with two corners that hold numbers, in order. *)
Lemma extend_with_well_formed h this b sw2 ne2 p q :
  well_formed h -> boxes h !! this = Some b ->
  points h !! sw2 = Some p -> points h !! ne2 = Some q ->
  ordered p q = true ->
  exists h' b',
    LatLngBounds.extend_with this sw2 ne2 h = (Ret this, h') /\
    well_formed h' /\ boxes h' !! this = Some b' /\
    corners_kept b b' /\ evolves this b b' h h' /\ is_defined h' b'.
Proof.
  intros W Hb Hp Hq O. destruct (ordered_not_nan _ _ O) as [Np Nq].
  assert (Hlt : (this < length (boxes h))%nat) by (eapply lookup_lt_Some; eauto).
  destruct (wf_state h W this b Hb) as [E|D].
  - apply is_empty_unset in E. subst b.
    eexists _, _. split; [apply extend_with_unset; eauto|].
    pose proof (well_formed_first_extension h this p q W Hb O) as W'.
    split; [exact W'|]. simpl.
    split; [apply list_lookup_insert_eq; auto|].
    split; [split; simpl; discriminate|].
    split.
    + split; [|split]; simpl.
      * intros. now apply lookup_app_l_Some.
      * intros j x Hj Hne. now rewrite list_lookup_insert_ne by auto.
      * intros c. unfold corner_refs. simpl. rewrite !elem_of_cons.
        intros [->|[->|[]%elem_of_nil]]; right; lia.
    + eapply well_formed_defined; [exact W'| |left; reflexivity].
      simpl. apply list_lookup_insert_eq; auto.
  - pose proof D as (sw & ne & ps & pn & Es & En & Hs & Hn & O').
    destruct b as [s n]. simpl in Es, En. subst s n.
    eexists _, _. split; [apply extend_with_set; eauto|].
    pose proof (well_formed_later_extension h this sw ne sw2 ne2 p q
                  W Hb Hp Hq Np Nq) as W'.
    split; [exact W'|]. simpl. split; [exact Hb|].
    split; [apply corners_kept_refl|].
    split.
    + split; [|split]; simpl; auto.
      intros j x Hj Hc. rewrite widen_all_other; auto.
      * intros ->. apply Hc. unfold corner_refs. simpl. rewrite !elem_of_cons. auto.
      * intros ->. apply Hc. unfold corner_refs. simpl. rewrite !elem_of_cons. auto.
    + eapply well_formed_defined; [exact W'|exact Hb|left; reflexivity].
Qed.

(** The constructor of [LatLng] does the same in every store: it returns
    its argument, or throws, or adds a point that depends on the arguments
    only. *)
Lemma new_LatLng_uniform lat lng alt :
  (exists r, lat = VLatLng r) \/
  (exists e, forall h, LatLng.new lat lng alt h = (Throw e, h)) \/
  (exists p, forall h, LatLng.new lat lng alt h = alloc_point p h).
Proof.
  destruct (instanceof_LatLng lat) eqn:I; [destruct lat; try discriminate; eauto|].
  right. unfold LatLng.new, LatLng.init, throw, lift.
  destruct (LatLng.validate lat lng alt) as [[]|e];
    [| left; exists InvalidLatLng; reflexivity | left; exists e; reflexivity].
  destruct lat; try discriminate I;
    repeat match goal with
      | |- context [LatLng.object_with_lat ?v] =>
          destruct (LatLng.object_with_lat v) as [[]|]
      | |- context [in_ ?k ?v] => destruct (in_ k v) as [[]|]
      | |- context [if ?c then _ else _] => destruct c
      end;
    first [ left; eexists; intros; reflexivity
          | right; eexists; intros; reflexivity ].
Qed.

Lemma alloc_point_inj p p' h : alloc_point p h = alloc_point p' h -> p = p'.
Proof.
  intros [= E]. apply app_inv_head in E. now injection E.
Qed.

Lemma literal_uniform v p h h' :
  instanceof_LatLng v = false ->
  LatLng.new v VUndef VUndef h = alloc_point p h ->
  LatLng.new v VUndef VUndef h' = alloc_point p h'.
Proof.
  intros I H.
  destruct (new_LatLng_uniform v VUndef VUndef) as [[r ->]|[[e E]|[p' E]]].
  - discriminate I.
  - rewrite E in H. discriminate H.
  - rewrite E in H. apply alloc_point_inj in H as ->. apply E.
Qed.

Lemma literal_is_validated v h p :
  instanceof_LatLng v = false ->
  LatLng.new v VUndef VUndef h = alloc_point p h ->
  truthy v = true /\ LatLng.validate v VUndef VUndef = Ret true.
Proof.
  intros Hi Hnew. split; [exact (new_sole_argument_truthy v h _ _ Hnew)|].
  revert Hnew. unfold LatLng.new. rewrite bind_run. unfold lift.
  destruct (LatLng.validate v VUndef VUndef) as [[]|]; auto; discriminate.
Qed.

(** An argument that is good for [extend] stays good while the objects of
    the store stay as they are. *)
Lemma extend_arg_frozen v :
  forall h h', extend_arg h v -> frozen h h' -> extend_arg h' v.
Proof.
  induction v as [| |x|l IH|props|r|r] using value_nested_ind;
    intros h h' A [FP FB]; inversion A; subst;
    try (apply arg_absent; assumption);
    try (eapply arg_literal; eauto using literal_uniform; fail);
    try (eapply arg_point; eauto; fail);
    try (eapply arg_bounds; eauto; fail).
  match goal with H : Forall (extend_arg h) l |- _ => rename H into HF end.
  apply arg_array; [assumption|].
  clear - IH HF FP FB. induction HF as [|e l He HF IHl]; constructor.
  - apply Forall_cons in IH as [IHe _]. eapply IHe; eauto. split; auto.
  - apply Forall_cons in IH as [_ IHr]. auto.
Qed.

Lemma is_defined_frozen h h' b : is_defined h b -> frozen h h' -> is_defined h' b.
Proof.
  intros (sw & ne & p & q & Es & En & Hp & Hq & O) [FP _].
  exists sw, ne, p, q. auto 10.
Qed.

(** An argument with a point in it keeps it while the objects of the store
    stay as they are. *)
Lemma holds_point_frozen v :
  forall h h', holds_point h v -> frozen h h' -> holds_point h' v.
Proof.
  induction v as [| |x|l IH|props|r|r] using value_nested_ind;
    intros h h' A Fz; inversion A; subst;
    try (eapply holds_literal; eauto using literal_uniform; fail);
    try (apply holds_instance);
    try (eapply holds_bounds; [apply Fz; eassumption
                              |eapply is_defined_frozen; eassumption]).
  match goal with H : Exists (holds_point h) l |- _ => rename H into HE end.
  apply holds_array; [assumption|].
  clear - IH HE Fz. induction HE as [e l He|e l HE IHl].
  - apply Forall_cons in IH as [IHe _]. left. eapply IHe; eauto.
  - apply Forall_cons in IH as [_ IHr]. right. auto.
Qed.

(** The loop of the constructor over good arguments, on a new instance
    [tmp] of a store that grew from [h0]. *)
Lemma extend_loop h0 tmp (l : list value) :
  Forall (fun e => forall h this b,
              well_formed h -> boxes h !! this = Some b -> extend_arg h e ->
              exists h' b',
                LatLngBounds.extend this e h = (Ret this, h') /\
                well_formed h' /\ boxes h' !! this = Some b' /\
                corners_kept b b' /\ evolves this b b' h h' /\
                (holds_point h e -> is_defined h' b')) l ->
  Forall (extend_arg h0) l ->
  boxes h0 !! tmp = None ->
  forall h b,
    well_formed h -> boxes h !! tmp = Some b -> frozen h0 h ->
    (forall c, c ∈ corner_refs b -> (length (points h0) <= c)%nat) ->
    exists h' b',
      for_of (VArr l) (fun latlng => LatLngBounds.extend tmp latlng ;; ret tt) h
      = (Ret tt, h') /\
      well_formed h' /\ boxes h' !! tmp = Some b' /\ frozen h0 h' /\
      (forall c, c ∈ corner_refs b' -> (length (points h0) <= c)%nat) /\
      (is_defined h b \/ Exists (holds_point h0) l -> is_defined h' b').
Proof.
  intros IH HF Hfresh. induction HF as [|e l He HF IHl]; intros h b W Hb Fz Hc.
  - exists h, b. split; [reflexivity|].
    do 4 (split; [assumption|]). intros [D|HE]; [exact D|inversion HE].
  - apply Forall_cons in IH as [IHe IHr].
    destruct (IHe h tmp b W Hb (extend_arg_frozen e h0 h He Fz))
      as (h1 & b1 & E1 & W1 & Hb1 & K & (EP & EB & EC) & D1).
    assert (Fz1 : frozen h0 h1).
    { destruct Fz as [FP FB]. split.
      - intros j p Hj. apply EP; auto. intros Hin.
        apply Hc in Hin. apply lookup_lt_Some in Hj. lia.
      - intros j x Hj. apply EB; auto. intros ->. congruence. }
    assert (Hc1 : forall c, c ∈ corner_refs b1 -> (length (points h0) <= c)%nat).
    { intros c [Hin|Hge]%EC; auto. pose proof (frozen_length _ _ Fz). lia. }
    destruct (IHl IHr h1 b1 W1 Hb1 Fz1 Hc1) as (h' & b' & E & W' & Hb' & Fz' & Hc' & D').
    exists h', b'. split.
    { change (for_of (VArr (e :: l)) ?body h)
        with ((body e ;; for_of (VArr l) body) h).
      rewrite bind_run, bind_run, E1. exact E. }
    do 4 (split; [assumption|]). intros HD. apply D'.
    assert (Step : is_defined h b -> is_defined h1 b1).
    { intros (sw & ? & ? & ? & Es & _). apply (well_formed_defined h1 tmp b1 sw); auto.
      left. now apply K. }
    destruct HD as [D|HE]; [left; auto|].
    inversion HE; subst; [left|right; assumption].
    apply D1. eapply holds_point_frozen; eassumption.
Qed.

(** [extend] with an argument whose coordinates are numbers: it returns the
    receiver, the store stays well-formed, the corners that were set are
    kept, only the receiver and its corners are written; without a point
    in the argument nothing changes, with a point in the argument the
    receiver is defined. *)
Lemma extend_well_formed obj :
  forall h this b,
    well_formed h -> boxes h !! this = Some b -> extend_arg h obj ->
    exists h' b',
      LatLngBounds.extend this obj h = (Ret this, h') /\
      well_formed h' /\ boxes h' !! this = Some b' /\ corners_kept b b' /\
      evolves this b b' h h' /\
      (no_op_arg h obj -> h' = h) /\
      (holds_point h obj -> is_defined h' b').
Proof.
  assert (Absent : forall v h this b,
    well_formed h -> boxes h !! this = Some b -> truthy v = false ->
    exists h' b',
      LatLngBounds.extend this v h = (Ret this, h') /\
      well_formed h' /\ boxes h' !! this = Some b' /\ corners_kept b b' /\
      evolves this b b' h h' /\
      (no_op_arg h v -> h' = h) /\ (holds_point h v -> is_defined h' b')).
  { intros v h this b W Hb Hv. exists h, b. split.
    - rewrite extend_unfold. destruct v; try discriminate;
        unfold extend_other; now rewrite Hv.
    - split; [exact W|]. split; [exact Hb|]. split; [apply corners_kept_refl|].
      split; [apply evolves_refl|]. split; [reflexivity|].
      intros Hh. inversion Hh; subst; try discriminate Hv.
      match goal with N : LatLng.new _ _ _ _ = _ |- _ =>
        apply new_sole_argument_truthy in N end. congruence. }
  assert (Literal : forall v p h this b,
    well_formed h -> boxes h !! this = Some b ->
    instanceof_LatLng v = false ->
    LatLng.new v VUndef VUndef h = alloc_point p h -> not_nan p = true ->
    exists h' b',
      LatLngBounds.extend this v h = (Ret this, h') /\
      well_formed h' /\ boxes h' !! this = Some b' /\ corners_kept b b' /\
      evolves this b b' h h' /\
      (no_op_arg h v -> h' = h) /\ (holds_point h v -> is_defined h' b')).
  { intros v p h this b W Hb Hi Hnew Np.
    destruct (literal_is_validated v h p Hi Hnew) as (T & V).
    pose proof (well_formed_alloc_point h p W) as W1.
    set (h1 := snd (alloc_point p h)) in *.
    assert (Hp1 : points h1 !! length (points h) = Some p).
    { simpl. rewrite lookup_app_r by lia. now rewrite Nat.sub_diag. }
    destruct (extend_with_well_formed h1 this b _ _ p p W1 Hb Hp1 Hp1
                (ordered_refl _ Np))
      as (h' & b' & E & W' & Hb' & K & (EP & EB & EC) & D).
    exists h', b'. split.
    - rewrite extend_unfold.
      assert (G : extend_other this v h = (Ret this, h')).
      { unfold extend_other. rewrite T. simpl. rewrite bind_run. unfold lift.
        rewrite V. rewrite bind_run, Hnew. exact E. }
      destruct v; auto; discriminate.
    - do 3 (split; [assumption|]). split; [|split; [|auto]].
      + split; [|split].
        * intros j x Hj Hc. apply EP; auto. simpl. now apply lookup_app_l_Some.
        * exact EB.
        * intros c [Hin|Hge]%EC; auto. right. simpl in Hge.
          rewrite length_app in Hge. lia.
      + intros [F|(r' & b2 & -> & _)]; [congruence|].
        revert V. clear. discriminate. }
  induction obj as [| |x|l IH|props|r|r] using value_nested_ind;
    intros h this b W Hb A; inversion A; subst;
    try (apply Absent; assumption); try (eapply Literal; eassumption).
  - (* an array of arguments *)
    match goal with H : LatLng.validate _ _ _ = Ret false |- _ => rename H into V end.
    match goal with H : Forall (extend_arg h) l |- _ => rename H into HF end.
    set (tmp := length (boxes h)).
    set (h1 := snd (alloc_box LatLngBounds.unset h)).
    assert (W1 : well_formed h1) by now apply well_formed_alloc_box.
    assert (Htmp : boxes h1 !! tmp = Some LatLngBounds.unset).
    { simpl. rewrite lookup_app_r by (unfold tmp; lia).
      unfold tmp. now rewrite Nat.sub_diag. }
    assert (Hne : this <> tmp).
    { apply lookup_lt_Some in Hb. unfold tmp. lia. }
    destruct (extend_loop h tmp l) with (h := h1) (b := LatLngBounds.unset)
      as (h2 & b2 & E2 & W2 & Hb2 & [FP FB] & Hc2 & D2); auto.
    { eapply Forall_impl; [exact IH|]. simpl. intros e He h0 this0 b0 W0 Hb0 A0.
      destruct (He h0 this0 b0 W0 Hb0 A0) as (h' & b' & ? & ? & ? & ? & ? & _ & ?).
      eauto 10. }
    { apply lookup_ge_None. unfold tmp. lia. }
    { apply frozen_alloc_box. }
    { intros c Hin. destruct (is_empty_corners LatLngBounds.unset c); auto.
      split; reflexivity. }
    assert (Hb' : boxes h2 !! this = Some b) by auto.
    assert (Run : forall o h',
      LatLngBounds.extend_bounds this tmp h2 = (o, h') ->
      LatLngBounds.extend this (VArr l) h = (o, h')).
    { intros o h' E. rewrite extend_unfold. unfold extend_other.
      change (negb (truthy (VArr l))) with false. cbv iota.
      rewrite bind_run. unfold lift. rewrite V. rewrite bind_run.
      change (alloc_box LatLngBounds.unset h) with (Ret tmp, h1).
      cbv beta iota. now rewrite bind_run, E2. }
    assert (NoOp : ~ no_op_arg h (VArr l)).
    { intros [F|(r' & b3 & [=] & _)]. discriminate F. }
    assert (Point : holds_point h (VArr l) -> is_defined h2 b2).
    { intros Hh. inversion Hh; subst; [|auto].
      match goal with N : LatLng.new _ _ _ _ = _ |- _ =>
        apply literal_is_validated in N as [_ V']; [congruence|assumption] end. }
    destruct (wf_state h2 W2 tmp b2 Hb2) as [Em|D].
    + exists h2, b. split.
      * apply Run. unfold LatLngBounds.extend_bounds.
        rewrite bind_run, (get_box_run _ _ _ Hb2).
        destruct Em as [E1 _]. now rewrite E1.
      * split; [exact W2|]. split; [exact Hb'|].
        split; [apply corners_kept_refl|].
        split; [repeat split; auto|]. split; [tauto|].
        intros (? & ? & ? & ? & Es & _)%Point. destruct Em. congruence.
    + pose proof D as (sw2 & ne2 & p & q & Es & En & Hp & Hq & O).
      destruct (extend_with_well_formed h2 this b sw2 ne2 p q W2 Hb' Hp Hq O)
        as (h' & b' & E & W' & Hb'' & K & (EP & EB & EC) & D').
      exists h', b'. split.
      * apply Run. unfold LatLngBounds.extend_bounds.
        now rewrite bind_run, (get_box_run _ _ _ Hb2), Es, En.
      * do 3 (split; [assumption|]). split; [|split; tauto].
        split; [|split].
        -- intros j x Hj Hc. apply EP; auto.
        -- intros j x Hj Hn. apply EB; auto.
        -- intros c [Hin|Hge]%EC; auto. right.
           pose proof (frozen_length h h2 (conj FP FB)). lia.
  - (* a point *)
    match goal with H : points h !! r = Some ?p |- _ => rename H into Hp end.
    match goal with H : not_nan _ = true |- _ => rename H into Np end.
    destruct (extend_with_well_formed h this b r r _ _ W Hb Hp Hp
                (ordered_refl _ Np)) as (h' & b' & E & W' & Hb' & K & Ev & D).
    exists h', b'. do 5 (split; [assumption|]). split; [|auto].
    intros [F|(r' & b2 & [=] & _)]; discriminate.
  - (* a bounds instance *)
    match goal with H : boxes h !! r = Some ?x |- _ => rename H into Hb2; rename x into b2 end.
    destruct (wf_state h W r b2 Hb2) as [Em|D].
    + exists h, b. split.
      * simpl. unfold LatLngBounds.extend_bounds.
        rewrite bind_run, (get_box_run _ _ _ Hb2).
        destruct Em as [E1 E2]. rewrite E1. reflexivity.
      * split; [exact W|]. split; [exact Hb|].
        split; [apply corners_kept_refl|]. split; [apply evolves_refl|].
        split; [reflexivity|].
        intros Hh. inversion Hh as [|v p I N|r' b3 Hb3 D|]; subst.
        -- apply literal_is_validated in N as [_ V]; [discriminate V|exact I].
        -- rewrite Hb2 in Hb3. injection Hb3 as <-.
           destruct D as (? & ? & ? & ? & Es & _). destruct Em. congruence.
    + pose proof D as (sw2 & ne2 & p & q & Es & En & Hp & Hq & O).
      destruct (extend_with_well_formed h this b sw2 ne2 p q W Hb Hp Hq O)
        as (h' & b' & E & W' & Hb' & K & Ev & D').
      exists h', b'. split.
      * simpl. unfold LatLngBounds.extend_bounds.
        rewrite bind_run, (get_box_run _ _ _ Hb2), Es, En. exact E.
      * do 4 (split; [assumption|]). split; [|auto].
        intros [F|(r' & b3 & [= <-] & Hb3 & [E3 _])]; [discriminate|].
        congruence.
Qed.

(** ** What a method may change among the points *)

Lemma writes_within_refl cs h : writes_within cs h h.
Proof. split; auto. Qed.

Lemma writes_within_trans cs h1 h2 h3 :
  writes_within cs h1 h2 -> writes_within cs h2 h3 -> writes_within cs h1 h3.
Proof.
  intros [L1 E1] [L2 E2]. split; [lia|].
  intros j Hj Hc. rewrite E2, E1; auto. lia.
Qed.

Lemma writes_within_same cs h h' :
  points h' = points h -> writes_within cs h h'.
Proof. intros E. unfold writes_within. rewrite E. auto. Qed.

Lemma writes_within_weaken cs cs' h h' :
  (forall c, c ∈ cs -> (c < length (points h))%nat -> c ∈ cs') ->
  writes_within cs h h' -> writes_within cs' h h'.
Proof.
  intros S [L E]. split; [exact L|]. intros j Hj Hc. apply E; auto.
Qed.

Lemma new_LatLng_writes cs lat lng alt h o h' :
  LatLng.new lat lng alt h = (o, h') -> writes_within cs h h'.
Proof.
  intros [->|[p E]]%new_LatLng_store; [apply writes_within_refl|].
  injection E as _ ->. split; simpl.
  - rewrite length_app. lia.
  - intros j Hj _. now apply lookup_app_l.
Qed.

Lemma set_point_writes cs r f h o h' :
  r ∈ cs -> set_point r f h = (o, h') -> writes_within cs h h'.
Proof.
  intros Hr. unfold set_point.
  destruct (points h !! r); intros [= _ <-]; [|apply writes_within_refl].
  split; simpl.
  - now rewrite length_insert.
  - intros j _ Hj. apply list_lookup_insert_ne. intros ->. auto.
Qed.

Lemma widen_writes cs op f set_f c c2 h o h' :
  (forall r, c = Some r -> r ∈ cs) ->
  LatLngBounds.widen op f set_f c c2 h = (o, h') -> writes_within cs h h'.
Proof.
  intros Hc. unfold LatLngBounds.widen. intros H. inv_bind H.
  - apply get_point_store in Hm as ->.
    destruct c as [r|]; [|injection H as _ <-; apply writes_within_refl].
    inv_bind H.
    + apply get_point_store in Hm as ->. eapply set_point_writes; eauto.
    + apply get_point_store in Hm as ->. apply writes_within_refl.
  - apply get_point_store in Hm as ->. apply writes_within_refl.
Qed.

Lemma extends_box_same this b h h' :
  boxes h !! this = Some b -> boxes h' = boxes h ->
  writes_within (corner_refs b) h h' ->
  extends_box this b h h'.
Proof.
  intros Hb E W. exists b. rewrite E. auto.
Qed.

Lemma extend_with_writes this sw2 ne2 h o h' b :
  LatLngBounds.extend_with this sw2 ne2 h = (o, h') ->
  boxes h !! this = Some b -> extends_box this b h h'.
Proof.
  intros H Hb. unfold LatLngBounds.extend_with in H.
  rewrite bind_run, (get_box_run _ _ _ Hb) in H.
  assert (Widen : forall sw ne,
    _southWest b = sw -> _northEast b = ne ->
    (LatLngBounds.widen Math_min lat set_lat sw sw2 ;;
     LatLngBounds.widen Math_min lng set_lng sw sw2 ;;
     LatLngBounds.widen Math_max lat set_lat ne ne2 ;;
     LatLngBounds.widen Math_max lng set_lng ne ne2 ;;
     ret this) h = (o, h') -> extends_box this b h h').
  { intros sw ne Es En H'.
    assert (Cs : forall r, sw = Some r -> r ∈ corner_refs b).
    { intros r ->. unfold corner_refs. rewrite Es. simpl.
      apply elem_of_cons. auto. }
    assert (Cn : forall r, ne = Some r -> r ∈ corner_refs b).
    { intros r ->. unfold corner_refs. rewrite En. apply elem_of_app. right.
      simpl. apply elem_of_cons. auto. }
    set (R := fun h1 h2 : store =>
                boxes h2 = boxes h1 /\ writes_within (corner_refs b) h1 h2).
    assert (RT : forall h1 h2 h3, R h1 h2 -> R h2 h3 -> R h1 h3).
    { intros h1 h2 h3 [A B] [C D]. split; [congruence|].
      eapply writes_within_trans; eauto. }
    assert (RW : forall op f set_f c c2 o1 h1 h2,
               (forall r, c = Some r -> r ∈ corner_refs b) ->
               LatLngBounds.widen op f set_f c c2 h1 = (o1, h2) -> R h1 h2).
    { intros * Hc Hw.
      split; [eapply widen_boxes|eapply widen_writes]; eauto. }
    cut (R h h'); [intros [E W]; now apply extends_box_same|].
    revert H'.
    repeat (apply (bind_rel R);
            [exact RT
            |intros; eapply RW; [|eassumption]; auto
            |intros _ ? ? ?]).
    intros [= _ <-]. split; [reflexivity|apply writes_within_refl]. }
  destruct b as [[sw|] [ne|]]; simpl in H;
    try (eapply Widen; [reflexivity|reflexivity|exact H]).
  clear Widen.
  assert (Hlt : (this < length (boxes h))%nat) by (eapply lookup_lt_Some; eauto).
  unfold get_point at 1 in H. rewrite bind_run in H.
  destruct (points h !! sw2) as [p|].
  2: { injection H as _ <-. apply extends_box_same; auto using writes_within_refl. }
  rewrite bind_run, new_scalars in H.
  destruct (is_nan (lat p) || is_nan (lng p)).
  { injection H as _ <-. apply extends_box_same; auto using writes_within_refl. }
  unfold alloc_point in H.
  rewrite bind_run, (set_box_run _ _ (mkBounds None None)) in H by exact Hb.
  unfold get_point at 1 in H. rewrite bind_run in H. simpl in H.
  destruct ((points h ++ [mkLatLng (lat p) (lng p) None]) !! ne2) as [q|].
  2: { injection H as _ <-. eexists. split; [|split].
       - simpl. apply list_lookup_insert_eq. exact Hlt.
       - split; simpl; [rewrite length_app; lia|].
         intros j Hj _. now apply lookup_app_l.
       - unfold corner_refs. simpl. intros c [->|[]%elem_of_nil]%elem_of_cons.
         right. lia. }
  rewrite bind_run, new_scalars in H.
  destruct (is_nan (lat q) || is_nan (lng q)).
  { injection H as _ <-. eexists. split; [|split].
    - simpl. apply list_lookup_insert_eq. exact Hlt.
    - split; simpl; [rewrite length_app; lia|].
      intros j Hj _. now apply lookup_app_l.
    - unfold corner_refs. simpl. intros c [->|[]%elem_of_nil]%elem_of_cons.
      right. lia. }
  unfold alloc_point in H. simpl in H.
  rewrite bind_run,
    (set_box_run _ _ (set_southWest (length (points h)) (mkBounds None None)))
    in H
    by (simpl; apply list_lookup_insert_eq; exact Hlt).
  injection H as _ <-. eexists. split; [|split].
  - simpl. apply list_lookup_insert_eq. now rewrite length_insert.
  - split; simpl; [rewrite !length_app; lia|].
    intros j Hj _. rewrite <- app_assoc. now apply lookup_app_l.
  - unfold corner_refs. simpl.
    intros c [->|[->|[]%elem_of_nil]%elem_of_cons]%elem_of_cons; right.
    + lia.
    + rewrite length_app. lia.
Qed.

Lemma extend_bounds_writes this b2 h o h' b :
  LatLngBounds.extend_bounds this b2 h = (o, h') ->
  boxes h !! this = Some b -> extends_box this b h h'.
Proof.
  unfold LatLngBounds.extend_bounds. intros H Hb. inv_bind H.
  2: { apply get_box_store in Hm as [-> _].
       apply extends_box_same; auto using writes_within_refl. }
  apply get_box_store in Hm as [-> _].
  destruct (_southWest a), (_northEast a);
    try (injection H as _ <-;
         apply extends_box_same; auto using writes_within_refl).
  eapply extend_with_writes; eauto.
Qed.

Lemma extends_box_refl this b h :
  boxes h !! this = Some b -> extends_box this b h h.
Proof. intros Hb. apply extends_box_same; auto using writes_within_refl. Qed.

(** After writes that touch no point of [h], a further extension of the
    box [this] is an extension from [h]. *)
Lemma extends_box_after this b h h1 h' :
  writes_within [] h h1 -> extends_box this b h1 h' -> extends_box this b h h'.
Proof.
  intros [L E] (b' & Hb' & [L' E'] & C). exists b'. split; [exact Hb'|]. split.
  - split; [lia|]. intros j Hj Hc. rewrite E'.
    + apply E; auto. intros []%elem_of_nil.
    + lia.
    + exact Hc.
  - intros c [Hc|Hc]%C; auto. right. lia.
Qed.

(** The loop of the constructor, whatever the arguments and the outcome, on
    a new instance [tmp] whose corners are not points of [h0]: the points
    of [h0] stay as they are. *)
Lemma extend_loop_writes h0 tmp (l : list value) :
  Forall (fun e => forall this h o h' b,
              LatLngBounds.extend this e h = (o, h') ->
              boxes h !! this = Some b -> extends_box this b h h') l ->
  forall h b o h',
    boxes h !! tmp = Some b -> writes_within [] h0 h ->
    (forall c, c ∈ corner_refs b -> (length (points h0) <= c)%nat) ->
    for_of (VArr l) (fun latlng => LatLngBounds.extend tmp latlng ;; ret tt) h
    = (o, h') ->
    writes_within [] h0 h'.
Proof.
  intros IH. induction IH as [|e l He _ IHl]; intros h b o h' Hb W Hc.
  - intros [= _ <-]. exact W.
  - change (for_of (VArr (e :: l)) ?body h)
      with ((body e ;; for_of (VArr l) body) h).
    assert (Step : forall o1 h1,
      LatLngBounds.extend tmp e h = (o1, h1) ->
      writes_within [] h0 h1 /\
      exists b1, boxes h1 !! tmp = Some b1 /\
                 forall c, c ∈ corner_refs b1 -> (length (points h0) <= c)%nat).
    { intros o1 h1 E. destruct (He tmp h o1 h1 b E Hb) as (b1 & Hb1 & [L1 E1] & C1).
      destruct W as [L0 E0]. split.
      - split; [lia|]. intros j Hj _. rewrite E1.
        + apply E0; auto. intros []%elem_of_nil.
        + lia.
        + intros Hin%Hc. lia.
      - exists b1. split; [exact Hb1|]. intros c [Hin|Hge]%C1; auto. lia. }
    intros H. inv_bind H.
    + apply bind_inv in Hm as [(a0 & h2 & Hx & Hr)|(e0 & _ & [=])].
      injection Hr as _ <-.
      destruct (Step _ _ Hx) as (W1 & b1 & Hb1 & Hc1).
      eapply IHl; eauto.
    + apply bind_inv in Hm as [(a0 & h2 & _ & [=])|(e1 & Hx & _)].
      now destruct (Step _ _ Hx) as (W1 & _).
Qed.

Lemma extend_other_writes this obj :
  Forall (fun e => forall this h o h' b,
              LatLngBounds.extend this e h = (o, h') ->
              boxes h !! this = Some b -> extends_box this b h h')
         (elements obj) ->
  forall h o h' b,
    extend_other this obj h = (o, h') ->
    boxes h !! this = Some b -> extends_box this b h h'.
Proof.
  intros IH h o h' b H Hb. unfold extend_other in H.
  destruct (negb (truthy obj));
    [injection H as _ <-; now apply extends_box_refl|].
  rewrite bind_run in H. unfold lift in H.
  destruct (LatLng.validate obj VUndef VUndef) as [[]|];
    [| |injection H as _ <-; now apply extends_box_refl].
  - inv_bind H.
    + pose proof (new_LatLng_boxes _ _ _ _ _ _ Hm) as E.
      apply (new_LatLng_writes []) in Hm.
      apply (extends_box_after _ _ _ h0); [exact Hm|].
      eapply extend_with_writes; eauto. congruence.
    + pose proof (new_LatLng_boxes _ _ _ _ _ _ Hm) as E.
      apply (new_LatLng_writes (corner_refs b)) in Hm.
      now apply extends_box_same.
  - inv_bind H; [|discriminate Hm]. injection Hm as <- <-.
    assert (Hlt : (this < length (boxes h))%nat) by (eapply lookup_lt_Some; eauto).
    assert (K1 := keeps_alloc_box (length (boxes h)) LatLngBounds.unset h).
    set (h1 := snd (alloc_box LatLngBounds.unset h)) in *.
    assert (Loop : forall o2 h2,
      for_of obj (fun latlng => LatLngBounds.extend (length (boxes h)) latlng ;; ret tt)
             h1 = (o2, h2) ->
      boxes h2 !! this = Some b /\ writes_within [] h h2).
    { intros o2 h2 Hf. split.
      - apply for_of_extend_keeps with (L := length (boxes h)) in Hf; [|lia].
        destruct (keeps_trans _ _ _ _ K1 Hf) as [_ E]; [lia|]. rewrite E; auto.
      - destruct obj; try (injection Hf as _ <-; now apply writes_within_same).
        eapply (extend_loop_writes h _ l IH h1 LatLngBounds.unset); eauto.
        + simpl. rewrite lookup_app_r by lia. now rewrite Nat.sub_diag.
        + now apply writes_within_same.
        + intros c []%elem_of_nil. }
    inv_bind H.
    + destruct (Loop _ _ Hm) as [Hb2 W2].
      apply (extends_box_after _ _ _ h0); [exact W2|].
      eapply extend_bounds_writes; eauto.
    + destruct (Loop _ _ Hm) as [Hb2 [L2 E2]].
      exists b. split; [exact Hb2|]. split; [|auto].
      split; [exact L2|]. intros j Hj _. apply E2; auto. intros []%elem_of_nil.
Qed.

(** [extend], whatever its argument and its outcome, writes to no point of
    the store but the corners of the receiver; the corners that the
    receiver gets are new points. *)
Lemma extend_writes obj :
  forall this h o h' b,
    LatLngBounds.extend this obj h = (o, h') ->
    boxes h !! this = Some b -> extends_box this b h h'.
Proof.
  induction obj using value_nested_ind; intros this h o h' b;
    rewrite extend_unfold;
    try (apply extend_other_writes; simpl; auto; fail).
  - apply extend_with_writes.
  - apply extend_bounds_writes.
Qed.

(** [extend], whatever its argument and its outcome: the corners that were
    set are kept, and only the receiver and the corners it had are
    written. *)
Lemma extend_evolves obj this h o h' b :
  LatLngBounds.extend this obj h = (o, h') ->
  boxes h !! this = Some b ->
  exists b', boxes h' !! this = Some b' /\ corners_kept b b' /\
             evolves this b b' h h'.
Proof.
  intros H Hb.
  destruct (extend_corners_kept obj this h o h' b H Hb) as (b' & Hb' & K).
  destruct (extend_writes obj this h o h' b H Hb) as (b'' & Hb'' & [L E] & C).
  assert (b'' = b') by congruence. subst b''.
  exists b'. split; [exact Hb'|]. split; [exact K|]. split; [|split].
  - intros j p Hj Hc. rewrite E; auto. eapply lookup_lt_Some; eauto.
  - intros j x Hj Hne.
    destruct (extend_frames obj this h o h' (length (boxes h)) H) as [_ F]; [lia|].
    rewrite F; auto. eapply lookup_lt_Some; eauto.
  - exact C.
Qed.

Lemma frozen_of_writes h h' :
  writes_within [] h h' -> keeps (length (boxes h)) h h' -> frozen h h'.
Proof.
  intros [L E] K. destruct K as [_ K]; [lia|]. split.
  - intros j p Hj. rewrite E; auto.
    + eapply lookup_lt_Some; eauto.
    + intros []%elem_of_nil.
  - intros j x Hj. rewrite K; auto. eapply lookup_lt_Some; eauto.
Qed.

(** The constructor of [LatLngBounds], whatever its arguments and its
    outcome, leaves every object of the store as it was. *)
Lemma new_LatLngBounds_frozen corner1 corner2 h o h' :
  LatLngBounds.new corner1 corner2 h = (o, h') -> frozen h h'.
Proof.
  intros H. apply frozen_of_writes; [|eapply new_LatLngBounds_keeps; eauto].
  revert H. unfold LatLngBounds.new.
  assert (G : forall latlngs,
    (let* this := alloc_box LatLngBounds.unset in
     for_of latlngs (fun latlng => LatLngBounds.extend this latlng ;; ret tt) ;;
     ret this) h = (o, h') -> writes_within [] h h').
  { intros latlngs H. inv_bind H; [|discriminate Hm]. injection Hm as <- <-.
    set (h1 := snd (alloc_box LatLngBounds.unset h)) in *.
    assert (Loop : forall o2 h2,
      for_of latlngs (fun latlng => LatLngBounds.extend (length (boxes h)) latlng ;; ret tt)
             h1 = (o2, h2) -> writes_within [] h h2).
    { intros o2 h2 Hf.
      destruct latlngs; try (injection Hf as _ <-; now apply writes_within_same).
      eapply (extend_loop_writes h _ l) with (h := h1) (b := LatLngBounds.unset); eauto.
      + apply Forall_forall. intros e _. apply extend_writes.
      + simpl. rewrite lookup_app_r by lia. now rewrite Nat.sub_diag.
      + now apply writes_within_same.
      + intros c []%elem_of_nil. }
    inv_bind H; [|eauto]. injection H as _ <-. eauto. }
  destruct (negb (truthy corner1)); [intros [= _ <-]; now apply writes_within_same|].
  destruct corner1; try apply G.
  intros [= _ <-]. apply writes_within_refl.
Qed.

Lemma ret_frozen {A} (a : A) h o h' : ret a h = (o, h') -> frozen h h'.
Proof. intros [= _ <-]. apply frozen_refl. Qed.

Lemma throw_frozen {A} e h (o : outcome A) h' :
  throw e h = (o, h') -> frozen h h'.
Proof. intros [= _ <-]. apply frozen_refl. Qed.

Lemma lift_frozen {A} (x : outcome A) h o h' :
  lift x h = (o, h') -> frozen h h'.
Proof. intros [= _ <-]. apply frozen_refl. Qed.

Lemma get_box_frozen r h o h' : get_box r h = (o, h') -> frozen h h'.
Proof. intros [-> _]%get_box_store. apply frozen_refl. Qed.

Lemma get_point_frozen r h o h' : get_point r h = (o, h') -> frozen h h'.
Proof. intros ->%get_point_store. apply frozen_refl. Qed.

Lemma corner_frozen c h o h' : corner c h = (o, h') -> frozen h h'.
Proof. intros ->%corner_store. apply frozen_refl. Qed.

Lemma new_LatLng_frozen lat lng alt h o h' :
  LatLng.new lat lng alt h = (o, h') -> frozen h h'.
Proof.
  intros [->|[p E]]%new_LatLng_store; [apply frozen_refl|].
  injection E as _ ->. apply frozen_alloc_point.
Qed.

Ltac frozen_tac :=
  repeat first
    [ apply new_LatLng_frozen | apply new_LatLngBounds_frozen
    | apply get_box_frozen | apply get_point_frozen | apply corner_frozen
    | apply ret_frozen | apply throw_frozen | apply lift_frozen
    | apply bind_rel; [apply frozen_trans | intros ? ? | intros ? ? ? ?]
    | match goal with
      | |- (if ?x then _ else _) _ = _ -> _ => destruct x
      | |- (match ?x with _ => _ end) _ = _ -> _ => destruct x
      | |- (let (_, _) := ?x in _) _ = _ -> _ => destruct x
      end ].

Lemma LatLng_equals_frozen this obj maxMargin h o h' :
  LatLng.equals this obj maxMargin h = (o, h') -> frozen h h'.
Proof. unfold LatLng.equals. frozen_tac. Qed.

Lemma cmp_frozen op f a b h o h' :
  LatLngBounds.cmp op f a b h = (o, h') -> frozen h h'.
Proof. unfold LatLngBounds.cmp. frozen_tac. Qed.

Lemma and_then_frozen (a b : M bool) h o h' :
  (forall h o h', a h = (o, h') -> frozen h h') ->
  (forall h o h', b h = (o, h') -> frozen h h') ->
  and_then a b h = (o, h') -> frozen h h'.
Proof.
  intros Ha Hb. unfold and_then.
  apply bind_rel; [apply frozen_trans|intros; eapply Ha; eauto|].
  intros [] ? ? ?; [apply Hb|apply ret_frozen].
Qed.

Ltac frozen_more :=
  repeat first
    [ apply cmp_frozen | apply LatLng_equals_frozen
    | apply and_then_frozen; intros ? ? ?
    | progress frozen_tac ].

(** Every method other than [extend], whatever its arguments and its
    outcome, leaves every object of the store as it was: it can only add
    objects. *)
Lemma readers_freeze this (v w : value) h h' :
  after_reader this v w h h' -> frozen h h'.
Proof.
  unfold after_reader, LatLngBounds.pad, LatLngBounds.getCenter,
    LatLngBounds.getNorthWest,
    LatLngBounds.getSouthEast, LatLngBounds.contains, LatLngBounds.intersects,
    LatLngBounds.overlaps, LatLngBounds.toBBoxString, LatLngBounds.equals,
    LatLngBounds.isValid, LatLngBounds.getWest, LatLngBounds.getSouth,
    LatLngBounds.getEast, LatLngBounds.getNorth, LatLngBounds.getSouthWest,
    LatLngBounds.getNorthEast.
  intros H.
  repeat (destruct H as [[o H]|H]; [revert H; frozen_more|]).
  destruct H as [o H]. revert H. frozen_more.
Qed.

(** The constructor given an array of arguments whose coordinates are
    numbers: it returns a new instance, every instance is empty or defined
    afterwards, and the objects of the store are as they were. *)
Lemma new_from_good_array h (l : list value) :
  well_formed h -> Forall (extend_arg h) l ->
  exists h',
    LatLngBounds.new (VArr l) VUndef h = (Ret (length (boxes h)), h') /\
    well_formed h' /\ frozen h h'.
Proof.
  intros W HF.
  set (tmp := length (boxes h)).
  set (h1 := snd (alloc_box LatLngBounds.unset h)).
  assert (W1 : well_formed h1) by now apply well_formed_alloc_box.
  assert (Htmp : boxes h1 !! tmp = Some LatLngBounds.unset).
  { simpl. rewrite lookup_app_r by (unfold tmp; lia).
    unfold tmp. now rewrite Nat.sub_diag. }
  destruct (extend_loop h tmp l) with (h := h1) (b := LatLngBounds.unset)
    as (h2 & b2 & E2 & W2 & Hb2 & Fz & _); auto.
  { apply Forall_forall. intros e _ h0 this0 b0 W0 Hb0 A0.
    destruct (extend_well_formed e h0 this0 b0 W0 Hb0 A0)
      as (h' & b' & ? & ? & ? & ? & ? & _ & ?).
    eauto 10. }
  { apply lookup_ge_None. unfold tmp. lia. }
  { apply frozen_alloc_box. }
  { intros c Hin. destruct (is_empty_corners LatLngBounds.unset c); auto.
    split; reflexivity. }
  exists h2. split; [|auto].
  unfold LatLngBounds.new.
  change (negb (truthy (VArr l))) with false. change (truthy VUndef) with false.
  cbv iota. rewrite bind_run.
  change (alloc_box LatLngBounds.unset h) with (Ret tmp, h1).
  cbv beta iota. now rewrite bind_run, E2.
Qed.

(** The constructor given two corners. *)
Lemma new_from_good_corners h c1 c2 :
  well_formed h -> truthy c1 = true -> truthy c2 = true ->
  extend_arg h c1 -> extend_arg h c2 ->
  exists r h',
    LatLngBounds.new c1 c2 h = (Ret r, h') /\ well_formed h' /\ frozen h h'.
Proof.
  intros W T1 T2 A1 A2.
  destruct (instanceof_LatLngBounds c1) eqn:I.
  { destruct c1; try discriminate I. exists r, h.
    split; [reflexivity|]. split; [exact W|apply frozen_refl]. }
  destruct (new_from_good_array h [c1; c2] W) as (h' & E & W' & Fz).
  { constructor; [exact A1|]. constructor; [exact A2|constructor]. }
  exists (length (boxes h)), h'. split; [|auto].
  rewrite <- E. unfold LatLngBounds.new. rewrite T1, T2.
  destruct c1; try discriminate I; try discriminate T1; reflexivity.
Qed.

(** ** Containment *)

Lemma cmp_run op f a b (h : store) p q :
  points h !! a = Some p -> points h !! b = Some q ->
  LatLngBounds.cmp op f (Some a) (Some b) h = (Ret (op (f p) (f q)), h).
Proof.
  intros Ha Hb. unfold LatLngBounds.cmp.
  now rewrite bind_run, (corner_set _ _ _ Ha), bind_run, (corner_set _ _ _ Hb).
Qed.

Lemma and_then_run (a b : M bool) h x y :
  a h = (Ret x, h) -> b h = (Ret y, h) -> and_then a b h = (Ret (x && y), h).
Proof.
  intros Ha Hb. unfold and_then. rewrite bind_run, Ha.
  destruct x; simpl; auto.
Qed.

(** [contains] with a point, on bounds with both corners set. *)
Lemma contains_point_run (h : store) this sw ne r ps pn p :
  boxes h !! this = Some (mkBounds (Some sw) (Some ne)) ->
  points h !! sw = Some ps -> points h !! ne = Some pn ->
  points h !! r = Some p ->
  LatLngBounds.contains this (VLatLng r) h
  = (Ret (ge (lat p) (lat ps) && le (lat p) (lat pn)
          && ge (lng p) (lng ps) && le (lng p) (lng pn)), h).
Proof.
  intros Hb Hs Hn Hp. unfold LatLngBounds.contains.
  rewrite bind_run. unfold lift. simpl.
  rewrite !bind_run. simpl. rewrite bind_run, (get_box_run _ _ _ Hb).
  rewrite bind_run. simpl.
  repeat apply and_then_run; apply cmp_run; auto.
Qed.

Lemma encloses_contains h this r :
  encloses h this r ->
  LatLngBounds.contains this (VLatLng r) h = (Ret true, h).
Proof.
  intros (sw & ne & ps & pn & p & Hb & Hs & Hn & Hp & W).
  rewrite (contains_point_run _ _ _ _ _ _ _ _ Hb Hs Hn Hp).
  unfold within, ge, le in *. now rewrite W.
Qed.

(** A later extension with a point that is no corner of the receiver. *)
Lemma widen_all_with_point (pts : list LatLngObj) sw ne r ps pn p :
  sw <> ne -> r <> sw -> r <> ne ->
  pts !! sw = Some ps -> pts !! ne = Some pn -> pts !! r = Some p ->
  let pts' :=
    widen_points Math_max lng set_lng ne r
      (widen_points Math_max lat set_lat ne r
        (widen_points Math_min lng set_lng sw r
          (widen_points Math_min lat set_lat sw r pts))) in
  pts' !! sw = Some (mkLatLng (Math_min (lat p) (lat ps))
                              (Math_min (lng p) (lng ps)) (alt ps)) /\
  pts' !! ne = Some (mkLatLng (Math_max (lat p) (lat pn))
                              (Math_max (lng p) (lng pn)) (alt pn)) /\
  forall j, j <> sw -> j <> ne -> pts' !! j = pts !! j.
Proof.
  intros D1 D2 D3 Hs Hn Hp pts'.
  set (p1 := widen_points Math_min lat set_lat sw r pts).
  set (p2 := widen_points Math_min lng set_lng sw r p1).
  set (p3 := widen_points Math_max lat set_lat ne r p2).
  assert (R1 : p1 !! r = Some p) by (unfold p1; rewrite widen_points_other; auto).
  assert (R2 : p2 !! r = Some p) by (unfold p2; rewrite widen_points_other; auto).
  assert (R3 : p3 !! r = Some p) by (unfold p3; rewrite widen_points_other; auto).
  assert (S1 : p1 !! sw = Some (set_lat (Math_min (lat p) (lat ps)) ps)).
  { unfold p1. rewrite (widen_points_lookup _ _ _ _ _ _ _ _ _ Hp Hs).
    now rewrite decide_True. }
  assert (S2 : p2 !! sw = Some (mkLatLng (Math_min (lat p) (lat ps))
                                         (Math_min (lng p) (lng ps)) (alt ps))).
  { unfold p2. rewrite (widen_points_lookup _ _ _ _ _ _ _ _ _ R1 S1).
    now rewrite decide_True. }
  assert (N2 : p2 !! ne = Some pn).
  { unfold p2, p1. rewrite !widen_points_other; auto. }
  assert (N3 : p3 !! ne = Some (set_lat (Math_max (lat p) (lat pn)) pn)).
  { unfold p3. rewrite (widen_points_lookup _ _ _ _ _ _ _ _ _ R2 N2).
    now rewrite decide_True. }
  split; [|split].
  - unfold pts'. fold p1 p2 p3. rewrite widen_points_other by auto.
    unfold p3. rewrite widen_points_other by auto. exact S2.
  - unfold pts'. fold p1 p2 p3.
    rewrite (widen_points_lookup _ _ _ _ _ _ _ _ _ R3 N3).
    now rewrite decide_True.
  - intros j J1 J2. unfold pts'. now rewrite !widen_points_other by auto.
Qed.

(** One step of the extension over a sequence of points of the store [h0]:
    the receiver encloses the points seen so far, and the points of [h0]
    are as they were. *)
Lemma within_widened ps pn p p' :
  ordered ps pn = true -> not_nan p = true -> within ps pn p' = true ->
  within (mkLatLng (Math_min (lat p) (lat ps)) (Math_min (lng p) (lng ps)) (alt ps))
         (mkLatLng (Math_max (lat p) (lat pn)) (Math_max (lng p) (lng pn)) (alt pn))
         p' = true.
Proof.
  intros [O1 O2]%ordered_not_nan [N1 N2]%not_nan_spec.
  apply not_nan_spec in O1 as [A1 A2]. apply not_nan_spec in O2 as [B1 B2].
  unfold within. rewrite !andb_true_iff. simpl.
  intros [[[W1 W2] W3] W4]. repeat split.
  - eapply le_trans; [apply Math_min_le_r|]; eauto.
  - eapply le_trans; [|apply Math_max_ge_r]; eauto.
  - eapply le_trans; [apply Math_min_le_r|]; eauto.
  - eapply le_trans; [|apply Math_max_ge_r]; eauto.
Qed.

Lemma within_new ps pn p :
  ordered ps pn = true -> not_nan p = true ->
  within (mkLatLng (Math_min (lat p) (lat ps)) (Math_min (lng p) (lng ps)) (alt ps))
         (mkLatLng (Math_max (lat p) (lat pn)) (Math_max (lng p) (lng pn)) (alt pn))
         p = true /\
  ordered (mkLatLng (Math_min (lat p) (lat ps)) (Math_min (lng p) (lng ps)) (alt ps))
          (mkLatLng (Math_max (lat p) (lat pn)) (Math_max (lng p) (lng pn)) (alt pn))
  = true.
Proof.
  intros O [N1 N2]%not_nan_spec. pose proof O as [O1 O2]%ordered_not_nan.
  apply not_nan_spec in O1 as [A1 A2]. apply not_nan_spec in O2 as [B1 B2].
  apply andb_true_iff in O as [O1 O2].
  unfold within, ordered. simpl.
  rewrite !Math_min_le_l, !Math_max_ge_l by auto. simpl. split; auto.
  apply andb_true_iff. split.
  - eapply le_trans; [apply Math_min_le_r; auto|].
    eapply le_trans; [exact O1|]. apply Math_max_ge_r; auto.
  - eapply le_trans; [apply Math_min_le_r; auto|].
    eapply le_trans; [exact O2|]. apply Math_max_ge_r; auto.
Qed.

(** One step of the extension over a sequence of points of the store [h0]. *)
Lemma grown_extend h0 this seen h r p :
  grown h0 this seen h ->
  points h0 !! r = Some p -> not_nan p = true ->
  exists h',
    LatLngBounds.extend this (VLatLng r) h = (Ret this, h') /\
    grown h0 this (r :: seen) h'.
Proof.
  intros (Hlen & Hold & b & Hb & Hst) Hp Np.
  assert (Hlt : (r < length (points h0))%nat) by (eapply lookup_lt_Some; eauto).
  assert (Hr : points h !! r = Some p) by (rewrite Hold; auto).
  assert (Hthis : (this < length (boxes h))%nat) by (eapply lookup_lt_Some; eauto).
  destruct Hst as [[-> ->]|(sw & ne & ps & pn & -> & L1 & L2 & D & Hs & Hn & O & Hin)].
  - eexists. split; [simpl; apply extend_with_unset; eauto|].
    split; [simpl; rewrite length_app; lia|].
    split; [intros j Hj; simpl; rewrite lookup_app_l by lia; auto|].
    eexists. split; [simpl; apply list_lookup_insert_eq; auto|].
    right. exists (length (points h)), (S (length (points h))),
      (mkLatLng (lat p) (lng p) None), (mkLatLng (lat p) (lng p) None).
    simpl. split; [reflexivity|]. split; [lia|]. split; [lia|].
    split; [lia|].
    split; [rewrite lookup_app_r by lia; now rewrite Nat.sub_diag|].
    split; [rewrite lookup_app_r by lia;
            now replace (S (length (points h)) - length (points h))%nat
              with 1%nat by lia|].
    apply not_nan_spec in Np as [N1 N2].
    split; [unfold ordered; simpl; now rewrite !le_refl|].
    intros r' [->|[]%elem_of_nil]%elem_of_cons. exists p.
    split; auto. unfold within. simpl. now rewrite !le_refl.
  - assert (D2 : r <> sw) by lia. assert (D3 : r <> ne) by lia.
    destruct (widen_all_with_point (points h) sw ne r ps pn p D D2 D3 Hs Hn Hr)
      as (Hs' & Hn' & Hother).
    destruct (within_new ps pn p O Np) as [Wn On].
    eexists. split; [simpl; apply extend_with_set; eauto|].
    split; [simpl; now rewrite !widen_points_length|].
    split; [intros j Hj; simpl; rewrite Hother by lia; auto|].
    exists (mkBounds (Some sw) (Some ne)). split; [exact Hb|].
    right. eexists sw, ne, _, _. simpl.
    split; [reflexivity|]. split; [lia|]. split; [lia|]. split; [auto|].
    split; [exact Hs'|]. split; [exact Hn'|]. split; [exact On|].
    intros r' [->|Hr']%elem_of_cons.
    + exists p. auto.
    + destruct (Hin r' Hr') as (p' & Hp' & W'). exists p'. split; auto.
      apply within_widened; auto.
Qed.

(** The loop of the constructor over a sequence of points of [h0]. *)
Lemma grown_for_of h0 this (ps : list ref) :
  Forall (fun r => exists p, points h0 !! r = Some p /\ not_nan p = true) ps ->
  forall seen h,
    grown h0 this seen h ->
    exists h',
      for_of (VArr (VLatLng <$> ps))
             (fun latlng => LatLngBounds.extend this latlng ;; ret tt) h
      = (Ret tt, h') /\
      grown h0 this (rev ps ++ seen) h'.
Proof.
  induction 1 as [|r ps (p & Hp & Np) _ IH]; intros seen h G.
  - exists h. split; [reflexivity|exact G].
  - destruct (grown_extend h0 this seen h r p G Hp Np) as (h1 & E1 & G1).
    destruct (IH (r :: seen) h1 G1) as (h' & E & G').
    exists h'. split.
    + change (for_of (VArr (VLatLng <$> r :: ps)) ?body h)
        with ((body (VLatLng r) ;; for_of (VArr (VLatLng <$> ps)) body) h).
      rewrite bind_run, bind_run, E1. simpl. exact E.
    + simpl. now rewrite <- app_assoc.
Qed.

(** C2: a new bounds extended in turn with every point of a sequence, each
    with coordinates that are numbers (not [NaN]; every finite coordinate is
    one), contains every point of the sequence; [contains] with a point
    compares with [>=] and [<=] on both axes. *)
Theorem extension_contains_every_point h0 (ps : list ref)
  (Hps : Forall (fun r => exists p, points h0 !! r = Some p /\ not_nan p = true) ps) :
  (exists this h',
      bounds_of_points ps h0 = (Ret this, h') /\
      forall r, r ∈ ps ->
                LatLngBounds.contains this (VLatLng r) h' = (Ret true, h')) /\
  (forall (h : store) this sw ne r psw pne p,
      boxes h !! this = Some (mkBounds (Some sw) (Some ne)) ->
      points h !! sw = Some psw -> points h !! ne = Some pne ->
      points h !! r = Some p ->
      LatLngBounds.contains this (VLatLng r) h
      = (Ret (ge (lat p) (lat psw) && le (lat p) (lat pne)
              && ge (lng p) (lng psw) && le (lng p) (lng pne)), h)).
Proof.
  split; [|intros; eapply contains_point_run; eassumption].
  set (this := length (boxes h0)).
  set (h1 := snd (alloc_box LatLngBounds.unset h0)).
  assert (G1 : grown h0 this [] h1).
  { split; [simpl; lia|]. split; [auto|].
    exists LatLngBounds.unset. split; [|left; auto].
    simpl. rewrite lookup_app_r by (unfold this; lia).
    unfold this. now rewrite Nat.sub_diag. }
  destruct (grown_for_of h0 this ps Hps [] h1 G1) as (h' & E & G).
  exists this, h'. split.
  - unfold bounds_of_points. rewrite bind_run.
    change (LatLngBounds.new VUndef VUndef h0) with (Ret this, h1).
    cbv beta iota. now rewrite bind_run, E.
  - intros r Hr. apply encloses_contains.
    destruct G as (Hlen & Hold & b & Hb & [[_ Hnil]|D]).
    + rewrite app_nil_r in Hnil. apply (f_equal length) in Hnil.
      rewrite length_rev in Hnil. destruct ps; [|discriminate].
      destruct (not_elem_of_nil _ Hr).
    + destruct D as (sw & ne & psw & pne & -> & _ & _ & _ & Hs & Hn & _ & Hin).
      destruct (Hin r) as (p & Hp & W).
      { rewrite app_nil_r. apply list_elem_of_In, in_rev.
        rewrite rev_involutive. now apply list_elem_of_In. }
      exists sw, ne, psw, pne, p. repeat split; auto.
      rewrite Hold; auto. eapply lookup_lt_Some; eauto.
Qed.

(** Three points, the second south-west of the first. *)
Lemma extension_contains_every_point_witness :
  let h0 := mkStore [mkLatLng (num_of_Z 1) (num_of_Z 2) None;
                     mkLatLng (num_of_Z (-4)) (num_of_Z 7) None;
                     mkLatLng zero zero None] [] in
  exists this h',
    bounds_of_points [0; 1; 2]%nat h0 = (Ret this, h') /\
    forall r, r ∈ [0; 1; 2]%nat ->
              LatLngBounds.contains this (VLatLng r) h' = (Ret true, h').
Proof.
  intros h0. apply (extension_contains_every_point h0 [0; 1; 2]%nat).
  repeat constructor; eexists; split; reflexivity.
Defined.

(** ** The states of a bounds instance *)

(** C3, as stated, fails: after [b.extend([NaN, 5])] on a defined [b], both
    corners of [b] are set and [sw.lat <= ne.lat] is false, so that [b] is
    neither empty nor defined. *)
Lemma extend_with_NaN_breaks_ordering :
  let h := snd (LatLngBounds.new (VArr [VNum zero; VNum zero])
                                 (VArr [VNum (num_of_Z 10); VNum (num_of_Z 10)])
                                 empty_store) in
  let r := LatLngBounds.extend 0%nat (VArr [VNum NaN; VNum (num_of_Z 5)]) h in
  well_formed h /\
  fst r = Ret 0%nat /\
  exists b, boxes (snd r) !! 0%nat = Some b /\
            ~ (is_empty b \/ is_defined (snd r) b).
Proof.
  intros h r. split; [|split; [reflexivity|]].
  - unfold h. split.
    + intros i b Hi. vm_compute in Hi. destruct i as [|i]; [|destruct i; discriminate].
      injection Hi as <-. right.
      exists 1%nat, 2%nat, (mkLatLng zero zero None),
        (mkLatLng (num_of_Z 10) (num_of_Z 10) None).
      repeat split; vm_compute; reflexivity.
    + intros i j bi bj c Hi Hj _ _. vm_compute in Hi, Hj.
      destruct i as [|i]; [|destruct i; discriminate].
      destruct j as [|j]; [|destruct j; discriminate]. reflexivity.
  - exists (mkBounds (Some 1%nat) (Some 2%nat)). split; [reflexivity|].
    intros [[E _]|(sw & ne & p & q & Es & En & Hp & Hq & O)]; [discriminate|].
    injection Es as <-. injection En as <-.
    vm_compute in Hp, Hq. injection Hp as <-. injection Hq as <-.
    vm_compute in O. discriminate.
Qed.

(** The arrays that [validate] does not take for a point literal. *)
Lemma validate_array_refused (l : list value) :
  LatLng.validate (VArr l) VUndef VUndef = Ret false <->
  is_object (index l 0) = true \/ (length l <> 2%nat /\ length l <> 3%nat).
Proof.
  unfold LatLng.validate, LatLng.object_with_lat. simpl.
  destruct (is_object (index l 0)); simpl.
  - split; auto.
  - destruct (Nat.eqb_spec (length l) 3) as [E3|E3];
      destruct (Nat.eqb_spec (length l) 2) as [E2|E2]; simpl;
      split; try discriminate; try (intros [[=]|[? ?]]; congruence); auto.
Qed.

(** C3, amended to arguments whose coordinates are numbers. A bounds
    constructed without arguments is empty. In a store where every instance
    is empty or defined, with corners of its own, [extend] with nothing, a
    point without [NaN], a point literal without [NaN], a bounds instance,
    or an array of such arguments that [validate] does not take for a point
    literal (its first element is an object, or its length is neither 2
    nor 3), returns the receiver, leaves every instance empty or defined,
    keeps the corners that were set, writes to the receiver and its corners
    only, changes nothing when the argument is nothing or an empty instance
    and leaves the receiver defined when the argument holds a point.
    Whatever its argument and outcome, [extend] never unsets or replaces a
    corner of the receiver, and writes to no other instance and to no point
    but the corners of the receiver. Every other method, whatever its
    arguments and outcome, leaves every instance and every point of the
    store as it was, so that an instance that was defined is still
    defined: it can only add objects. The constructor, given two such
    arguments or an array of them, returns an instance and leaves every
    instance empty or defined. *)
Theorem bounds_state_machine :
  (forall h,
      well_formed h ->
      LatLngBounds.new VUndef VUndef h
      = (Ret (length (boxes h)), snd (alloc_box LatLngBounds.unset h)) /\
      well_formed (snd (alloc_box LatLngBounds.unset h))) /\
  (forall h this b obj,
      well_formed h -> boxes h !! this = Some b -> extend_arg h obj ->
      exists h' b',
        LatLngBounds.extend this obj h = (Ret this, h') /\
        well_formed h' /\ boxes h' !! this = Some b' /\ corners_kept b b' /\
        evolves this b b' h h' /\
        (no_op_arg h obj -> h' = h) /\
        (holds_point h obj -> is_defined h' b')) /\
  (forall obj this h o h' b,
      LatLngBounds.extend this obj h = (o, h') ->
      boxes h !! this = Some b ->
      exists b', boxes h' !! this = Some b' /\ corners_kept b b' /\
                 evolves this b b' h h') /\
  (forall obj this h o h',
      LatLngBounds.extend this obj h = (o, h') ->
      frames (length (boxes h)) this h h') /\
  (forall l,
      LatLng.validate (VArr l) VUndef VUndef = Ret false <->
      is_object (index l 0) = true \/
      (length l <> 2%nat /\ length l <> 3%nat)) /\
  (forall this v w h h',
      after_reader this v w h h' ->
      keeps (length (boxes h)) h h' /\ frozen h h' /\
      forall i b, boxes h !! i = Some b ->
                  boxes h' !! i = Some b /\
                  (is_defined h b -> is_defined h' b)) /\
  (forall h c1 c2,
      well_formed h -> truthy c1 = true -> truthy c2 = true ->
      extend_arg h c1 -> extend_arg h c2 ->
      exists r h',
        LatLngBounds.new c1 c2 h = (Ret r, h') /\
        well_formed h' /\ frozen h h') /\
  (forall h l,
      well_formed h -> Forall (extend_arg h) l ->
      exists h',
        LatLngBounds.new (VArr l) VUndef h = (Ret (length (boxes h)), h') /\
        well_formed h' /\ frozen h h').
Proof.
  split; [|split; [|split; [|split; [|split; [|split; [|split]]]]]].
  - intros h W. split; [reflexivity|]. now apply well_formed_alloc_box.
  - intros h this b obj. apply extend_well_formed.
  - exact extend_evolves.
  - intros. eapply extend_frames; eauto.
  - exact validate_array_refused.
  - intros this v w h h' R.
    pose proof (readers_freeze this v w h h' R) as Fz.
    split; [eapply readers_keep_boxes; eauto|]. split; [exact Fz|].
    intros i b Hb. split; [now apply Fz|].
    intros D. eapply is_defined_frozen; eauto.
  - exact new_from_good_corners.
  - exact new_from_good_array.
Qed.

(** A new bounds extended with the array of the point literals [0, 0] and
    [10, 10]. *)
Lemma bounds_state_machine_witness :
  let h := mkStore [] [LatLngBounds.unset] in
  let obj := VArr [VArr [VNum zero; VNum zero];
                   VArr [VNum (num_of_Z 10); VNum (num_of_Z 10)]] in
  well_formed h /\
  exists h' b',
    LatLngBounds.extend 0%nat obj h = (Ret 0%nat, h') /\
    well_formed h' /\ boxes h' !! 0%nat = Some b' /\ is_defined h' b'.
Proof.
  intros h obj.
  assert (W : well_formed h).
  { apply (well_formed_alloc_box empty_store). exact well_formed_empty. }
  assert (A0 : extend_arg h (VArr [VNum zero; VNum zero])).
  { apply (arg_literal h _ (mkLatLng zero zero None)); reflexivity. }
  assert (A1 : extend_arg h (VArr [VNum (num_of_Z 10); VNum (num_of_Z 10)])).
  { apply (arg_literal h _ (mkLatLng (num_of_Z 10) (num_of_Z 10) None));
      reflexivity. }
  assert (A : extend_arg h obj).
  { apply arg_array; [reflexivity|].
    constructor; [exact A0|]. constructor; [exact A1|constructor]. }
  assert (P : holds_point h obj).
  { apply holds_array; [reflexivity|]. left.
    apply (holds_literal h _ (mkLatLng zero zero None)); reflexivity. }
  split; [exact W|].
  destruct bounds_state_machine as (_ & E & _).
  destruct (E h 0%nat LatLngBounds.unset obj W eq_refl A)
    as (h' & b' & R & W' & Hb' & _ & _ & _ & D).
  exists h', b'. split; [exact R|]. split; [exact W'|].
  split; [exact Hb'|]. apply D. exact P.
Defined.

(** ** Intersection and overlap *)

Lemma ge_le x y : ge x y = le y x.
Proof. reflexivity. Qed.

Lemma gt_lt x y : gt x y = lt y x.
Proof. reflexivity. Qed.

Lemma new_from_instance b corner2 h :
  LatLngBounds.new (VBounds b) corner2 h = (Ret b, h).
Proof. reflexivity. Qed.

Lemma corners_run (h : store) b sw ne :
  boxes h !! b = Some (mkBounds sw ne) ->
  LatLngBounds.getSouthWest b h = (Ret sw, h) /\
  LatLngBounds.getNorthEast b h = (Ret ne, h).
Proof.
  intros Hb. unfold LatLngBounds.getSouthWest, LatLngBounds.getNorthEast.
  now rewrite !bind_run, (get_box_run _ _ _ Hb).
Qed.

(** [intersects] and [overlaps] on two bounds with all corners set. *)
Lemma intersects_run (h : store) a b sw ne sw2 ne2 p q p2 q2 :
  boxes h !! a = Some (mkBounds (Some sw) (Some ne)) ->
  boxes h !! b = Some (mkBounds (Some sw2) (Some ne2)) ->
  points h !! sw = Some p -> points h !! ne = Some q ->
  points h !! sw2 = Some p2 -> points h !! ne2 = Some q2 ->
  LatLngBounds.intersects a (VBounds b) h
  = (Ret ((ge (lat q2) (lat p) && le (lat p2) (lat q))
          && (ge (lng q2) (lng p) && le (lng p2) (lng q))), h) /\
  LatLngBounds.overlaps a (VBounds b) h
  = (Ret ((gt (lat q2) (lat p) && lt (lat p2) (lat q))
          && (gt (lng q2) (lng p) && lt (lng p2) (lng q))), h).
Proof.
  intros Ha Hb Hp Hq Hp2 Hq2.
  destruct (corners_run _ _ _ _ Hb) as [S N].
  unfold LatLngBounds.intersects, LatLngBounds.overlaps.
  rewrite !(bind_run (LatLngBounds.new _ _)), new_from_instance.
  rewrite !(bind_run (get_box _)), (get_box_run _ _ _ Ha). simpl.
  rewrite !(bind_run (LatLngBounds.getSouthWest _)), S.
  rewrite !(bind_run (LatLngBounds.getNorthEast _)), N.
  split.
  - rewrite bind_run,
      (and_then_run _ _ _ _ _ (cmp_run ge lat _ _ _ _ _ Hq2 Hp)
                              (cmp_run le lat _ _ _ _ _ Hp2 Hq)).
    now rewrite bind_run,
      (and_then_run _ _ _ _ _ (cmp_run ge lng _ _ _ _ _ Hq2 Hp)
                              (cmp_run le lng _ _ _ _ _ Hp2 Hq)).
  - rewrite bind_run,
      (and_then_run _ _ _ _ _ (cmp_run gt lat _ _ _ _ _ Hq2 Hp)
                              (cmp_run lt lat _ _ _ _ _ Hp2 Hq)).
    now rewrite bind_run,
      (and_then_run _ _ _ _ _ (cmp_run gt lng _ _ _ _ _ Hq2 Hp)
                              (cmp_run lt lng _ _ _ _ _ Hp2 Hq)).
Qed.

(** C4: [intersects] compares with [>=] and [<=], [overlaps] with [>] and
    [<]; two valid bounds that share a point and of which an edge of one
    lies on the opposite edge of the other (they share only an edge or a
    corner) intersect and do not overlap. *)
Theorem touching_bounds_intersect_without_overlap
        (h : store) a b sw ne sw2 ne2 p q p2 q2
  (Ha : boxes h !! a = Some (mkBounds (Some sw) (Some ne)))
  (Hb : boxes h !! b = Some (mkBounds (Some sw2) (Some ne2)))
  (Hp : points h !! sw = Some p) (Hq : points h !! ne = Some q)
  (Hp2 : points h !! sw2 = Some p2) (Hq2 : points h !! ne2 = Some q2)
  (Va : ordered p q = true) (Vb : ordered p2 q2 = true)
  (Hshare : share_a_point p q p2 q2)
  (Hmeet : edges_meet p q p2 q2) :
  LatLngBounds.intersects a (VBounds b) h
  = (Ret ((ge (lat q2) (lat p) && le (lat p2) (lat q))
          && (ge (lng q2) (lng p) && le (lng p2) (lng q))), h) /\
  LatLngBounds.overlaps a (VBounds b) h
  = (Ret ((gt (lat q2) (lat p) && lt (lat p2) (lat q))
          && (gt (lng q2) (lng p) && lt (lng p2) (lng q))), h) /\
  LatLngBounds.intersects a (VBounds b) h = (Ret true, h) /\
  LatLngBounds.overlaps a (VBounds b) h = (Ret false, h).
Proof.
  destruct (intersects_run h a b sw ne sw2 ne2 p q p2 q2 Ha Hb Hp Hq Hp2 Hq2)
    as [-> ->].
  destruct Hshare as (x & W1 & W2). unfold within in W1, W2.
  rewrite !andb_true_iff in W1, W2.
  destruct W1 as [[[A1 A2] A3] A4], W2 as [[[B1 B2] B3] B4].
  do 2 (split; [reflexivity|]).
  split; f_equal; f_equal.
  - rewrite !ge_le.
    rewrite (le_trans _ _ _ A1 B2), (le_trans _ _ _ B1 A2),
      (le_trans _ _ _ A3 B4), (le_trans _ _ _ B3 A4). reflexivity.
  - rewrite !gt_lt.
    destruct Hmeet as [E|[E|[E|E]]]; apply num_eq_not_lt in E as [E1 E2];
      rewrite ?E1, ?E2, ?andb_false_r; reflexivity.
Qed.

(** [new LatLngBounds([0, 0], [10, 10])] and
    [new LatLngBounds([10, 10], [20, 20])] *)
Lemma touching_bounds_intersect_without_overlap_witness :
  let ten := VNum (num_of_Z 10) in
  let twenty := VNum (num_of_Z 20) in
  let h1 := snd (LatLngBounds.new (VArr [VNum zero; VNum zero])
                                  (VArr [ten; ten]) empty_store) in
  let h := snd (LatLngBounds.new (VArr [ten; ten]) (VArr [twenty; twenty]) h1) in
  LatLngBounds.intersects 0%nat (VBounds 1%nat) h = (Ret true, h) /\
  LatLngBounds.overlaps 0%nat (VBounds 1%nat) h = (Ret false, h).
Proof.
  intros ten twenty h1 h.
  refine (proj2 (proj2 (touching_bounds_intersect_without_overlap h 0%nat 1%nat
            1%nat 2%nat 5%nat 6%nat
            (mkLatLng zero zero None)
            (mkLatLng (num_of_Z 10) (num_of_Z 10) None)
            (mkLatLng (num_of_Z 10) (num_of_Z 10) None)
            (mkLatLng (num_of_Z 20) (num_of_Z 20) None) _ _ _ _ _ _ _ _ _ _))).
  1-8: (vm_compute; reflexivity).
  - exists (mkLatLng (num_of_Z 10) (num_of_Z 10) None).
    split; vm_compute; reflexivity.
  - left. vm_compute. reflexivity.
Defined.

(** ** Padding *)

Lemma sub_zero x : sub x zero = x.
Proof. destruct x as [[]|[]| |[] m e]; reflexivity. Qed.

Lemma add_zero_key x :
  is_nan x = false -> is_nan (add x zero) = false /\ key (add x zero) = key x.
Proof. destruct x as [[]|[]| |[] m e]; try discriminate; split; reflexivity. Qed.

Lemma mul_abs_zero d : is_finite d = true -> mul (Math_abs d) zero = zero.
Proof. destruct d as [[]|[]| |[] m e]; try discriminate; reflexivity. Qed.

Lemma sub_finite_inv x y :
  is_finite (sub x y) = true -> is_finite x = true /\ is_finite y = true.
Proof.
  destruct x as [[]|[]| |[] m e], y as [[]|[]| |[] m' e'];
    try discriminate; auto.
Qed.

Lemma is_finite_not_nan x : is_finite x = true -> is_nan x = false.
Proof. destruct x; try discriminate; reflexivity. Qed.

Lemma sub_same_key x y :
  is_finite x = true -> is_nan y = false -> key x = key y ->
  Math_abs (sub x y) = zero.
Proof.
  intros F N K.
  destruct x as [sx|sx| |sx m e]; try discriminate F;
    destruct y as [sy|sy| |sy m' e']; try discriminate N;
    try (destruct sx; discriminate K); try (destruct sy; discriminate K).
  - destruct sx, sy; reflexivity.
  - assert (E : sx = sy /\ m = m' /\ e = e').
    { destruct sx, sy; simpl in K; try discriminate K;
        injection K; intros; repeat split; auto; try congruence; lia. }
    destruct E as (<- & <- & <-).
    unfold sub, SFsub. rewrite Z.sub_diag. reflexivity.
Qed.

Lemma num_eq_of_key x y :
  is_nan x = false -> is_nan y = false -> key x = key y -> num_eq x y = true.
Proof. intros. apply num_eq_key. auto. Qed.

(** Two points with the same place in the order, the first finite, are
    equal within the default margin. *)
Lemma LatLng_equals_same_keys this r h p q :
  points h !! this = Some p -> points h !! r = Some q ->
  is_finite (lat p) = true -> is_finite (lng p) = true ->
  not_nan q = true ->
  key (lat p) = key (lat q) -> key (lng p) = key (lng q) ->
  LatLng.equals this (VLatLng r) VUndef h = (Ret true, h).
Proof.
  intros Hp Hq F1 F2 [N1 N2]%not_nan_spec K1 K2.
  rewrite (LatLng_equals_run this (VLatLng r) VUndef h r h p q eq_refl Hp Hq).
  rewrite !sub_same_key by auto. reflexivity.
Qed.

(** The constructor of [LatLngBounds] with two distinct points that hold
    numbers. *)
Lemma new_from_two_points (h : store) r1 r2 c1 c2 :
  points h !! r1 = Some c1 -> points h !! r2 = Some c2 ->
  not_nan c1 = true -> not_nan c2 = true ->
  LatLngBounds.new (VLatLng r1) (VLatLng r2) h
  = (Ret (length (boxes h)), two_point_store h r2 c1).
Proof.
  intros H1 H2 N1 N2. unfold LatLngBounds.new. simpl.
  rewrite bind_run. unfold alloc_box at 1. cbv beta iota.
  set (h1 := mkStore (points h) (boxes h ++ [LatLngBounds.unset])).
  set (this := length (boxes h)).
  assert (Hb1 : boxes h1 !! this = Some LatLngBounds.unset).
  { simpl. rewrite lookup_app_r by (unfold this; lia).
    unfold this. now rewrite Nat.sub_diag. }
  rewrite !bind_run.
  rewrite (extend_with_unset h1 this r1 r1 c1 c1 Hb1 H1 H1 N1 N1).
  cbv beta iota. unfold ret at 1. cbv beta iota.
  rewrite !bind_run.
  set (L := length (points h)).
  erewrite (extend_with_set _ this r2 r2 L (S L)).
  - unfold ret. cbv beta iota. unfold two_point_store. f_equal. f_equal.
    simpl. fold L. unfold this.
    rewrite insert_app_r_alt by lia. now rewrite Nat.sub_diag.
  - simpl. apply list_lookup_insert_eq. rewrite length_app. simpl.
    unfold this. lia.
  - simpl. rewrite lookup_app_l by (eapply lookup_lt_Some; eauto). eauto.
  - simpl. rewrite lookup_app_l by (eapply lookup_lt_Some; eauto). eauto.
  - simpl. rewrite lookup_app_r by (unfold L; lia). unfold L.
    rewrite Nat.sub_diag. simpl. eauto.
  - simpl. rewrite lookup_app_r by (unfold L; lia).
    replace (S L - length (points h))%nat with 1%nat by (unfold L; lia).
    simpl. eauto.
Qed.

Lemma new_scalars_not_nan x y h :
  LatLng.new (VNum x) (VNum y) VUndef h =
  if not_nan (mkLatLng x y None) then alloc_point (mkLatLng x y None) h
  else (Throw InvalidLatLng, h).
Proof.
  rewrite new_scalars. unfold not_nan. simpl.
  destruct (is_nan x), (is_nan y); reflexivity.
Qed.

(** [pad] on bounds with both corners set. *)
Lemma pad_run (h : store) this v sw ne p q :
  boxes h !! this = Some (mkBounds (Some sw) (Some ne)) ->
  points h !! sw = Some p -> points h !! ne = Some q ->
  let heightBuffer := mul (Math_abs (sub (lat p) (lat q))) (to_number v) in
  let widthBuffer := mul (Math_abs (sub (lng p) (lng q))) (to_number v) in
  let c1 := mkLatLng (sub (lat p) heightBuffer) (sub (lng p) widthBuffer) None in
  let c2 := mkLatLng (add (lat q) heightBuffer) (add (lng q) widthBuffer) None in
  LatLngBounds.pad this v h =
  if not_nan c1 then
    if not_nan c2 then
      (Ret (length (boxes h)),
       two_point_store (mkStore (points h ++ [c1; c2]) (boxes h))
                       (S (length (points h))) c1)
    else (Throw InvalidLatLng, snd (alloc_point c1 h))
  else (Throw InvalidLatLng, h).
Proof.
  intros Hb Hp Hq heightBuffer widthBuffer c1 c2.
  unfold LatLngBounds.pad.
  rewrite bind_run, (get_box_run _ _ _ Hb). simpl _southWest. simpl _northEast.
  rewrite bind_run, (corner_set _ _ _ Hp), bind_run, (corner_set _ _ _ Hq).
  fold heightBuffer widthBuffer.
  rewrite bind_run, new_scalars_not_nan. fold c1.
  destruct (not_nan c1) eqn:N1; [|reflexivity].
  unfold alloc_point at 1. cbv beta iota.
  rewrite bind_run, new_scalars_not_nan. fold c2.
  destruct (not_nan c2) eqn:N2; [|reflexivity].
  unfold alloc_point at 1. cbv beta iota. simpl points. simpl boxes.
  rewrite length_app. simpl length.
  replace (length (points h) + 1)%nat with (S (length (points h))) by lia.
  rewrite (new_from_two_points _ _ _ c1 c2); auto.
  - f_equal. f_equal. now rewrite <- app_assoc.
  - simpl. rewrite <- app_assoc. rewrite lookup_app_r by lia.
    now rewrite Nat.sub_diag.
  - simpl. rewrite lookup_app_r by (rewrite length_app; simpl; lia).
    rewrite length_app. simpl.
    now replace (S (length (points h)) - (length (points h) + 1))%nat
      with 0%nat by lia.
Qed.

Lemma two_point_store_frame (h : store) r2 c1 :
  (forall j b, boxes h !! j = Some b ->
               boxes (two_point_store h r2 c1) !! j = Some b) /\
  (forall j p, points h !! j = Some p ->
               points (two_point_store h r2 c1) !! j = Some p).
Proof.
  unfold two_point_store. simpl. split.
  - intros j b Hj. now apply lookup_app_l_Some.
  - intros j p Hj. pose proof (lookup_lt_Some _ _ _ Hj).
    rewrite widen_all_other by lia. now apply lookup_app_l_Some.
Qed.

(** [pad], whatever its argument and its outcome, leaves every instance of
    the store as it was. *)
Lemma pad_frame this v h o h' :
  LatLngBounds.pad this v h = (o, h') ->
  (forall j b, boxes h !! j = Some b -> boxes h' !! j = Some b) /\
  (forall j p, points h !! j = Some p -> points h' !! j = Some p).
Proof.
  assert (Same : (o, h') = (Throw TypeError, h) \/
                 (o, h') = (Throw InvalidLatLng, h) ->
    (forall j b, boxes h !! j = Some b -> boxes h' !! j = Some b) /\
    (forall j p, points h !! j = Some p -> points h' !! j = Some p)).
  { intros [[= _ ->]|[= _ ->]]; auto. }
  destruct (boxes h !! this) as [[sw ne]|] eqn:Hb.
  2: { intros H. apply Same. left. rewrite <- H.
       unfold LatLngBounds.pad, get_box. rewrite bind_run, Hb. reflexivity. }
  destruct sw as [sw|].
  2: { intros H. apply Same. left. rewrite <- H.
       unfold LatLngBounds.pad. now rewrite bind_run, (get_box_run _ _ _ Hb). }
  destruct (points h !! sw) as [p|] eqn:Hp.
  2: { intros H. apply Same. left. rewrite <- H.
       unfold LatLngBounds.pad. rewrite bind_run, (get_box_run _ _ _ Hb).
       simpl. unfold get_point. rewrite bind_run, Hp. reflexivity. }
  destruct ne as [ne|].
  2: { intros H. apply Same. left. rewrite <- H.
       unfold LatLngBounds.pad. rewrite bind_run, (get_box_run _ _ _ Hb).
       simpl. now rewrite bind_run, (get_point_run _ _ _ Hp). }
  destruct (points h !! ne) as [q|] eqn:Hq.
  2: { intros H. apply Same. left. rewrite <- H.
       unfold LatLngBounds.pad. rewrite bind_run, (get_box_run _ _ _ Hb).
       simpl. rewrite bind_run, (get_point_run _ _ _ Hp).
       unfold get_point. rewrite bind_run, Hq. reflexivity. }
  rewrite (pad_run h this v sw ne p q Hb Hp Hq). cbv zeta.
  destruct (not_nan _); [destruct (not_nan _)|].
  - intros [= _ <-].
    destruct (two_point_store_frame
                (mkStore (points h ++
                   [mkLatLng (sub (lat p) (mul (Math_abs (sub (lat p) (lat q))) (to_number v)))
                             (sub (lng p) (mul (Math_abs (sub (lng p) (lng q))) (to_number v))) None;
                    mkLatLng (add (lat q) (mul (Math_abs (sub (lat p) (lat q))) (to_number v)))
                             (add (lng q) (mul (Math_abs (sub (lng p) (lng q))) (to_number v))) None])
                   (boxes h))
                (S (length (points h)))
                (mkLatLng (sub (lat p) (mul (Math_abs (sub (lat p) (lat q))) (to_number v)))
                          (sub (lng p) (mul (Math_abs (sub (lng p) (lng q))) (to_number v))) None))
      as [B P].
    split; [exact B|]. intros j x Hj. apply P. simpl.
    now apply lookup_app_l_Some.
  - intros [= _ <-]. simpl. split; auto. intros. now apply lookup_app_l_Some.
  - intros H. apply Same. now right.
Qed.

Lemma min_key_of_le x y :
  is_nan x = false -> is_nan y = false -> key_le (key y) (key x) ->
  key (Math_min x y) = key y.
Proof.
  intros Hx Hy L. destruct (Math_min_key x y Hx Hy) as (_ & [[K L']|[K _]]); auto.
  rewrite K. now apply key_le_antisym.
Qed.

Lemma max_key_of_le x y :
  is_nan x = false -> is_nan y = false -> key_le (key y) (key x) ->
  key (Math_max x y) = key x.
Proof.
  intros Hx Hy L. destruct (Math_max_key x y Hx Hy) as (_ & [[K _]|[K L']]); auto.
  rewrite K. now apply key_le_antisym.
Qed.

(** C5, as stated, fails: the bounds with corners [[-1e308, 0]] and
    [[1e308, 0]] is valid and its coordinates are finite, yet [pad(0)]
    throws: the height [sw.lat - ne.lat] overflows to an infinity, which
    multiplied by [0] is [NaN]. *)
Lemma pad_zero_throws_on_overflow :
  let big := num_of_Z (10 ^ 308) in
  let h := snd (LatLngBounds.new (VArr [VNum (neg big); VNum zero])
                                 (VArr [VNum big; VNum zero]) empty_store) in
  boxes h !! 0%nat = Some (mkBounds (Some 1%nat) (Some 2%nat)) /\
  points h !! 1%nat = Some (mkLatLng (neg big) zero None) /\
  points h !! 2%nat = Some (mkLatLng big zero None) /\
  is_finite big = true /\
  ordered (mkLatLng (neg big) zero None) (mkLatLng big zero None) = true /\
  fst (LatLngBounds.pad 0%nat (VNum zero) h) = Throw InvalidLatLng.
Proof. intros big h. repeat split; vm_compute; reflexivity. Qed.

(** C5, amended: on valid bounds whose height [sw.lat - ne.lat] and width
    [sw.lng - ne.lng] are finite, [pad(0)] returns a new instance, with
    corners of its own that are numerically equal to the corners of the
    receiver, and the receiver [equals] it. Whatever the ratio and the
    outcome, [pad] leaves every instance that was in the store as it was:
    the receiver and its corners are not mutated. *)
Theorem pad_zero_equals_and_pad_never_mutates :
  (forall (h : store) this sw ne p q,
      boxes h !! this = Some (mkBounds (Some sw) (Some ne)) ->
      points h !! sw = Some p -> points h !! ne = Some q ->
      ordered p q = true ->
      is_finite (sub (lat p) (lat q)) = true ->
      is_finite (sub (lng p) (lng q)) = true ->
      exists r h' sw' ne' p' q',
        LatLngBounds.pad this (VNum zero) h = (Ret r, h') /\
        boxes h !! r = None /\
        boxes h' !! r = Some (mkBounds (Some sw') (Some ne')) /\
        points h !! sw' = None /\ points h !! ne' = None /\
        points h' !! sw' = Some p' /\ points h' !! ne' = Some q' /\
        num_eq (lat p') (lat p) = true /\ num_eq (lng p') (lng p) = true /\
        num_eq (lat q') (lat q) = true /\ num_eq (lng q') (lng q) = true /\
        LatLngBounds.equals this (VBounds r) VUndef h' = (Ret true, h')) /\
  (forall this v h o h',
      LatLngBounds.pad this v h = (o, h') ->
      (forall j b, boxes h !! j = Some b -> boxes h' !! j = Some b) /\
      (forall j p, points h !! j = Some p -> points h' !! j = Some p)).
Proof.
  split; [|exact pad_frame].
  intros h this sw ne p q Hb Hp Hq O F1 F2.
  destruct (sub_finite_inv _ _ F1) as [Fp1 Fq1].
  destruct (sub_finite_inv _ _ F2) as [Fp2 Fq2].
  pose proof (is_finite_not_nan _ Fp1) as Np1.
  pose proof (is_finite_not_nan _ Fp2) as Np2.
  pose proof (is_finite_not_nan _ Fq1) as Nq1.
  pose proof (is_finite_not_nan _ Fq2) as Nq2.
  destruct (add_zero_key _ Nq1) as [Na1 Ka1].
  destruct (add_zero_key _ Nq2) as [Na2 Ka2].
  apply andb_true_iff in O as [O1 O2].
  apply le_key in O1 as (_ & _ & O1). apply le_key in O2 as (_ & _ & O2).
  set (c1 := mkLatLng (lat p) (lng p) None).
  set (c2 := mkLatLng (add (lat q) zero) (add (lng q) zero) None).
  set (N := length (points h)).
  set (h0 := mkStore (points h ++ [c1; c2]) (boxes h)).
  assert (Hpad : LatLngBounds.pad this (VNum zero) h
                 = (Ret (length (boxes h)), two_point_store h0 (S N) c1)).
  { rewrite (pad_run h this (VNum zero) sw ne p q Hb Hp Hq). cbv zeta.
    simpl to_number. rewrite !mul_abs_zero, !sub_zero by auto.
    fold c1 c2. unfold not_nan. simpl. now rewrite Np1, Np2, Na1, Na2. }
  set (h' := two_point_store h0 (S N) c1) in *.
  set (L := length (points h0)).
  assert (HL : L = S (S N)) by (unfold L, h0; simpl; rewrite length_app; simpl; lia).
  destruct (two_point_store_frame h0 (S N) c1) as [FB FP].
  assert (Hc2 : (points h0 ++ [c1; c1]) !! S N = Some c2).
  { apply lookup_app_l_Some. unfold h0. simpl.
    rewrite lookup_app_r by (unfold N; lia).
    now replace (S N - length (points h))%nat with 1%nat by (unfold N; lia). }
  assert (Hs0 : (points h0 ++ [c1; c1]) !! L = Some c1).
  { rewrite lookup_app_r by (unfold L; lia). unfold L. now rewrite Nat.sub_diag. }
  assert (Hn0 : (points h0 ++ [c1; c1]) !! S L = Some c1).
  { rewrite lookup_app_r by (unfold L; lia).
    now replace (S L - length (points h0))%nat with 1%nat by (unfold L; lia). }
  destruct (widen_all_with_point (points h0 ++ [c1; c1]) L (S L) (S N) c1 c1 c2)
    as (Hs' & Hn' & _); auto; try lia.
  assert (Hthis : boxes h' !! this = Some (mkBounds (Some sw) (Some ne)))
    by (apply FB; exact Hb).
  assert (Hp' : points h' !! sw = Some p)
    by (apply FP; simpl; now apply lookup_app_l_Some).
  assert (Hq' : points h' !! ne = Some q)
    by (apply FP; simpl; now apply lookup_app_l_Some).
  assert (Hr : boxes h' !! length (boxes h) = Some (mkBounds (Some L) (Some (S L)))).
  { unfold h', two_point_store. simpl. rewrite lookup_app_r by lia.
    now rewrite Nat.sub_diag. }
  assert (K1 : key (Math_min (lat c2) (lat c1)) = key (lat p)).
  { apply min_key_of_le; auto. simpl. now rewrite Ka1. }
  assert (K2 : key (Math_min (lng c2) (lng c1)) = key (lng p)).
  { apply min_key_of_le; auto. simpl. now rewrite Ka2. }
  assert (K3 : key (Math_max (lat c2) (lat c1)) = key (lat q)).
  { rewrite max_key_of_le; auto. simpl. now rewrite Ka1. }
  assert (K4 : key (Math_max (lng c2) (lng c1)) = key (lng q)).
  { rewrite max_key_of_le; auto. simpl. now rewrite Ka2. }
  assert (M1 : is_nan (Math_min (lat c2) (lat c1)) = false)
    by (apply Math_min_key; auto).
  assert (M2 : is_nan (Math_min (lng c2) (lng c1)) = false)
    by (apply Math_min_key; auto).
  assert (M3 : is_nan (Math_max (lat c2) (lat c1)) = false)
    by (apply Math_max_key; auto).
  assert (M4 : is_nan (Math_max (lng c2) (lng c1)) = false)
    by (apply Math_max_key; auto).
  exists (length (boxes h)), h', L, (S L),
    (mkLatLng (Math_min (lat c2) (lat c1)) (Math_min (lng c2) (lng c1)) (alt c1)),
    (mkLatLng (Math_max (lat c2) (lat c1)) (Math_max (lng c2) (lng c1)) (alt c1)).
  split; [exact Hpad|].
  split; [apply lookup_ge_None; lia|].
  split; [exact Hr|].
  split; [apply lookup_ge_None; unfold N in *; lia|].
  split; [apply lookup_ge_None; unfold N in *; lia|].
  split; [exact Hs'|]. split; [exact Hn'|].
  split; [apply num_eq_of_key; auto|]. split; [apply num_eq_of_key; auto|].
  split; [apply num_eq_of_key; auto|]. split; [apply num_eq_of_key; auto|].
  unfold LatLngBounds.equals. simpl.
  rewrite bind_run. simpl. rewrite bind_run, (get_box_run _ _ _ Hthis).
  destruct (corners_run _ _ _ _ Hr) as [GS GN].
  apply (and_then_run _ _ _ true true).
  - simpl. rewrite bind_run, GS.
    apply (LatLng_equals_same_keys sw L h' p _ Hp' Hs'); auto.
    apply not_nan_spec. auto.
  - rewrite bind_run, (get_box_run _ _ _ Hthis). simpl. rewrite bind_run, GN.
    apply (LatLng_equals_same_keys ne (S L) h' q _ Hq' Hn'); auto.
    apply not_nan_spec. auto.
Qed.

(** [new LatLngBounds([0, 0], [10, 10]).pad(0)] *)
Lemma pad_zero_equals_and_pad_never_mutates_witness :
  let h := snd (LatLngBounds.new (VArr [VNum zero; VNum zero])
                                 (VArr [VNum (num_of_Z 10); VNum (num_of_Z 10)])
                                 empty_store) in
  exists r h',
    LatLngBounds.pad 0%nat (VNum zero) h = (Ret r, h') /\
    LatLngBounds.equals 0%nat (VBounds r) VUndef h' = (Ret true, h').
Proof.
  intros h.
  destruct pad_zero_equals_and_pad_never_mutates as [P _].
  destruct (P h 0%nat 1%nat 2%nat (mkLatLng zero zero None)
              (mkLatLng (num_of_Z 10) (num_of_Z 10) None))
    as (r & h' & sw' & ne' & p' & q' & E & _ & _ & _ & _ & _ & _ & _ & _ & _ & _ & Q).
  1-6: (vm_compute; reflexivity).
  exists r, h'. split; assumption.
Defined.

(** ** The empty bounds *)

Lemma edge_unset (f : LatLngObj -> num) (sel : LatLngBoundsObj -> option ref)
      this (h : store) b :
  boxes h !! this = Some b -> sel b = None ->
  (let* b := get_box this in let* p := corner (sel b) in ret (f p)) h
  = (Throw TypeError, h).
Proof.
  intros Hb Hc. now rewrite bind_run, (get_box_run _ _ _ Hb), Hc.
Qed.

(** C10, as stated, fails: on an empty bounds, [equals([[NaN, 1]])], whose
    argument is present, throws the error of the [LatLng] constructor and
    not a [TypeError]: the conversion of the argument to a bounds fails
    before a corner of the receiver is read. *)
Lemma equals_on_empty_bounds_throws_conversion_error :
  let h := snd (LatLngBounds.new VUndef VUndef empty_store) in
  let arg := VArr [VArr [VNum NaN; VNum (num_of_Z 1)]] in
  boxes h !! 0%nat = Some LatLngBounds.unset /\
  truthy arg = true /\
  fst (LatLngBounds.equals 0%nat arg VUndef h) = Throw InvalidLatLng.
Proof. intros h arg. split; [|split]; vm_compute; reflexivity. Qed.

(** C10, amended: on an empty bounds, [pad], [getCenter], the four edges,
    the two derived corners and [toBBoxString], and also [contains],
    [intersects] and [overlaps] with an instance, read a corner that is
    unset and throw a [TypeError]. [equals] with a present argument never
    returns: it throws a [TypeError] when the conversion of its argument to
    a bounds returns, and the error of that conversion when it throws.
    [isValid] answers [false], [getSouthWest] and [getNorthEast] return the
    unset value, and [extend] returns the receiver, for an absent argument
    and for a point without [NaN]. *)
Theorem empty_bounds_queries_throw (h : store) this
  (Hempty : boxes h !! this = Some LatLngBounds.unset) :
  (forall ratio, LatLngBounds.pad this ratio h = (Throw TypeError, h)) /\
  LatLngBounds.getCenter this h = (Throw TypeError, h) /\
  LatLngBounds.getWest this h = (Throw TypeError, h) /\
  LatLngBounds.getSouth this h = (Throw TypeError, h) /\
  LatLngBounds.getEast this h = (Throw TypeError, h) /\
  LatLngBounds.getNorth this h = (Throw TypeError, h) /\
  LatLngBounds.getNorthWest this h = (Throw TypeError, h) /\
  LatLngBounds.getSouthEast this h = (Throw TypeError, h) /\
  LatLngBounds.toBBoxString this h = (Throw TypeError, h) /\
  (forall bounds maxMargin,
      truthy bounds = true ->
      exists e h',
        LatLngBounds.equals this bounds maxMargin h = (Throw e, h') /\
        (forall o h1, LatLngBounds.new bounds VUndef h = (Ret o, h1) ->
                      e = TypeError /\ h' = h1) /\
        (forall e1 h1, LatLngBounds.new bounds VUndef h = (Throw e1, h1) ->
                       e = e1 /\ h' = h1)) /\
  (forall r p, points h !! r = Some p ->
               LatLngBounds.contains this (VLatLng r) h = (Throw TypeError, h)) /\
  (forall b o, boxes h !! b = Some o ->
               LatLngBounds.intersects this (VBounds b) h = (Throw TypeError, h) /\
               LatLngBounds.overlaps this (VBounds b) h = (Throw TypeError, h)) /\
  LatLngBounds.isValid this h = (Ret false, h) /\
  LatLngBounds.getSouthWest this h = (Ret None, h) /\
  LatLngBounds.getNorthEast this h = (Ret None, h) /\
  (forall obj, truthy obj = false ->
               LatLngBounds.extend this obj h = (Ret this, h)) /\
  (forall r p, points h !! r = Some p -> not_nan p = true ->
               exists h', LatLngBounds.extend this (VLatLng r) h = (Ret this, h')).
Proof.
  assert (W : LatLngBounds.getWest this h = (Throw TypeError, h))
    by (apply (edge_unset lng _southWest _ _ _ Hempty eq_refl)).
  assert (S : LatLngBounds.getSouth this h = (Throw TypeError, h))
    by (apply (edge_unset lat _southWest _ _ _ Hempty eq_refl)).
  assert (E : LatLngBounds.getEast this h = (Throw TypeError, h))
    by (apply (edge_unset lng _northEast _ _ _ Hempty eq_refl)).
  assert (N : LatLngBounds.getNorth this h = (Throw TypeError, h))
    by (apply (edge_unset lat _northEast _ _ _ Hempty eq_refl)).
  repeat apply conj; try assumption.
  - intros ratio. unfold LatLngBounds.pad.
    now rewrite bind_run, (get_box_run _ _ _ Hempty).
  - unfold LatLngBounds.getCenter.
    now rewrite bind_run, (get_box_run _ _ _ Hempty).
  - unfold LatLngBounds.getNorthWest. now rewrite bind_run, N.
  - unfold LatLngBounds.getSouthEast. now rewrite bind_run, S.
  - unfold LatLngBounds.toBBoxString. now rewrite bind_run, W.
  - intros bounds maxMargin T. unfold LatLngBounds.equals. rewrite T. simpl.
    rewrite bind_run.
    destruct (LatLngBounds.new bounds VUndef h) as [[o|e] h1] eqn:Hnew.
    + exists TypeError, h1.
      assert (Hb1 : boxes h1 !! this = Some LatLngBounds.unset).
      { destruct (new_LatLngBounds_keeps _ _ _ _ _ (length (boxes h)) Hnew)
          as [_ K]; [lia|].
        rewrite K; auto. eapply lookup_lt_Some; eauto. }
      split; [|split; [intros ? ? [= _ <-]; auto|discriminate]].
      unfold and_then. rewrite !bind_run, (get_box_run _ _ _ Hb1). reflexivity.
    + exists e, h1. split; [reflexivity|].
      split; [discriminate|intros ? ? [= <- <-]; auto].
  - intros r p Hp. unfold LatLngBounds.contains.
    rewrite bind_run. unfold lift. simpl. rewrite !bind_run. simpl.
    rewrite bind_run, (get_box_run _ _ _ Hempty), bind_run. simpl.
    unfold and_then, LatLngBounds.cmp.
    now rewrite !bind_run, (corner_set _ _ _ Hp).
  - intros b [sw2 ne2] Hb.
    destruct (corners_run _ _ _ _ Hb) as [GS GN].
    unfold LatLngBounds.intersects, LatLngBounds.overlaps.
    rewrite !(bind_run (LatLngBounds.new _ _)), new_from_instance.
    rewrite !(bind_run (get_box _)), (get_box_run _ _ _ Hempty). simpl.
    rewrite !(bind_run (LatLngBounds.getSouthWest _)), GS.
    rewrite !(bind_run (LatLngBounds.getNorthEast _)), GN.
    unfold and_then, LatLngBounds.cmp. rewrite !bind_run.
    destruct ne2 as [ne2|]; [|split; reflexivity].
    simpl. unfold get_point.
    destruct (points h !! ne2); split; reflexivity.
  - unfold LatLngBounds.isValid.
    now rewrite bind_run, (get_box_run _ _ _ Hempty).
  - unfold LatLngBounds.getSouthWest.
    now rewrite bind_run, (get_box_run _ _ _ Hempty).
  - unfold LatLngBounds.getNorthEast.
    now rewrite bind_run, (get_box_run _ _ _ Hempty).
  - intros obj T. rewrite extend_unfold.
    destruct obj; try discriminate T; unfold extend_other; now rewrite T.
  - intros r p Hp Np. eexists. simpl.
    apply (extend_with_unset h this r r p p); auto.
Qed.

(** [new LatLngBounds()] in the empty store, and [equals([[NaN, 1]])] on
    it. *)
Lemma empty_bounds_queries_throw_witness :
  let h := snd (LatLngBounds.new VUndef VUndef empty_store) in
  LatLngBounds.isValid 0%nat h = (Ret false, h) /\
  LatLngBounds.getCenter 0%nat h = (Throw TypeError, h) /\
  LatLngBounds.toBBoxString 0%nat h = (Throw TypeError, h) /\
  LatLngBounds.pad 0%nat (VNum zero) h = (Throw TypeError, h) /\
  fst (LatLngBounds.equals 0%nat (VBounds 0%nat) VUndef h) = Throw TypeError /\
  fst (LatLngBounds.equals 0%nat (VArr [VArr [VNum NaN; VNum (num_of_Z 1)]])
                           VUndef h) = Throw InvalidLatLng.
Proof.
  intros h.
  destruct (empty_bounds_queries_throw h 0%nat eq_refl)
    as (P & C & _ & _ & _ & _ & _ & _ & B & Q & _ & _ & V & _).
  split; [exact V|]. split; [exact C|]. split; [exact B|]. split; [apply P|].
  split.
  - destruct (Q (VBounds 0%nat) VUndef eq_refl) as (e & h' & E & R & _).
    rewrite E. destruct (R 0%nat h eq_refl) as [-> _]. reflexivity.
  - destruct (Q (VArr [VArr [VNum NaN; VNum (num_of_Z 1)]]) VUndef eq_refl)
      as (e & h' & E & _ & T).
    rewrite E.
    destruct (T InvalidLatLng
                (mkStore [mkLatLng NaN (num_of_Z 1) None]
                         [LatLngBounds.unset; LatLngBounds.unset]))
      as [-> _]; reflexivity.
Defined.

(** * Further properties *)

(** ** Numbers: differences *)

Lemma abs_normalize_opp z e :
  SFabs (binary_normalize prec emax (- z) e false)
  = SFabs (binary_normalize prec emax z e false).
Proof.
  destruct z as [|m|m]; simpl; auto; unfold binary_round;
    destruct (shl_align _ _ _) as [mz ez]; unfold binary_round_aux;
    destruct (shr_fexp _ _ _ _ _) as [mrs' e'];
    destruct (shr_fexp _ _ _ _ _) as [mrs'' e''];
    destruct (shr_m mrs''); try reflexivity;
    destruct (Z.leb _ _); reflexivity.
Qed.

(** [|x - y|] and [|y - x|] are the same number. *)
Lemma abs_sub_comm x y : Math_abs (sub x y) = Math_abs (sub y x).
Proof.
  destruct x as [sx|sx| |sx mx ex], y as [sy|sy| |sy my ey];
    try reflexivity; try (destruct sx, sy; reflexivity);
    try (destruct sx; reflexivity); try (destruct sy; reflexivity).
  unfold Math_abs, sub, SFsub.
  rewrite (Z.min_comm ey ex), <- abs_normalize_opp.
  f_equal. f_equal. lia.
Qed.

(** [x - x] is [0] for a finite [x] and [NaN] otherwise. *)
Lemma abs_sub_self x :
  Math_abs (sub x x) = if is_finite x then zero else NaN.
Proof.
  destruct x as [[]|[]| |s m e]; try reflexivity.
  unfold sub, SFsub. rewrite Z.sub_diag. reflexivity.
Qed.

(** ** LatLng: copies *)

Lemma set_point_run (h : store) r p f :
  points h !! r = Some p ->
  set_point r f h = (Ret tt, mkStore (<[r := f p]> (points h)) (boxes h)).
Proof. intros H. unfold set_point. now rewrite H. Qed.

(** An assignment to a field of the newest instance, read from [this]. *)
Lemma assign_newest {A} (h : store) this p x
      (g : LatLngObj -> LatLngObj -> LatLngObj) (k : M A) :
  points h !! this = Some p ->
  (let* q := get_point this in
   set_point (length (points h)) (g q) ;; k)
    (mkStore (points h ++ [x]) (boxes h))
  = k (mkStore (points h ++ [g p x]) (boxes h)).
Proof.
  intros Hp.
  assert (Hold : points (mkStore (points h ++ [x]) (boxes h)) !! this = Some p)
    by (simpl; now apply lookup_app_l_Some).
  assert (Hlast : points (mkStore (points h ++ [x]) (boxes h)) !! length (points h)
                  = Some x).
  { simpl. rewrite lookup_app_r by lia. now rewrite Nat.sub_diag. }
  rewrite bind_run, (get_point_run _ _ _ Hold).
  rewrite bind_run, (set_point_run _ _ _ _ Hlast). simpl.
  rewrite insert_app_r_alt by lia. now rewrite Nat.sub_diag.
Qed.

(** [clone] on an instance of the store. *)
Lemma clone_run (h : store) this p :
  points h !! this = Some p ->
  LatLng.clone this h
  = (Ret (length (points h)), mkStore (points h ++ [p]) (boxes h)).
Proof.
  intros Hp. unfold LatLng.clone.
  rewrite bind_run, new_scalars. simpl. unfold alloc_point.
  rewrite (assign_newest h this p _ (fun q => set_lat (lat q)) _ Hp).
  rewrite (assign_newest h this p _ (fun q => set_lng (lng q)) _ Hp).
  rewrite (assign_newest h this p _ (fun q => set_alt (alt q)) _ Hp).
  unfold ret. destruct p; reflexivity.
Qed.

(** X1: [clone] never throws, whatever numbers the receiver holds ([NaN]
    included, which the constructor refuses): it returns a new instance
    with the [lat], [lng] and [alt] of the receiver, and every instance
    that was in the store is as it was. *)
Theorem clone_is_a_fresh_copy (h : store) this p
  (Hp : points h !! this = Some p) :
  LatLng.clone this h
  = (Ret (length (points h)), mkStore (points h ++ [p]) (boxes h)) /\
  this <> length (points h) /\
  (is_nan (lat p) = true ->
   LatLng.new (VNum (lat p)) (VNum (lng p)) VUndef h = (Throw InvalidLatLng, h)).
Proof.
  split; [now apply clone_run|]. split.
  - apply lookup_lt_Some in Hp. lia.
  - intros N. rewrite new_scalars, N. reflexivity.
Qed.

(** The clone of a point whose latitude is [NaN]. *)
Lemma clone_is_a_fresh_copy_witness :
  let h := mkStore [mkLatLng NaN (num_of_Z 7) None] [] in
  LatLng.clone 0%nat h
  = (Ret 1%nat, mkStore [mkLatLng NaN (num_of_Z 7) None;
                         mkLatLng NaN (num_of_Z 7) None] []).
Proof.
  intros h.
  exact (proj1 (clone_is_a_fresh_copy h 0%nat (mkLatLng NaN (num_of_Z 7) None)
                  eq_refl)).
Defined.

(** X2: a point [equals] its clone exactly when its latitude and longitude
    are finite: the difference of an infinity with itself is [NaN]. *)
Theorem clone_equals_original (h : store) this p
  (Hp : points h !! this = Some p) :
  exists r h',
    LatLng.clone this h = (Ret r, h') /\
    LatLng.equals this (VLatLng r) VUndef h'
    = (Ret (is_finite (lat p) && is_finite (lng p)), h') /\
    LatLng.equals r (VLatLng this) VUndef h'
    = (Ret (is_finite (lat p) && is_finite (lng p)), h').
Proof.
  exists (length (points h)), (mkStore (points h ++ [p]) (boxes h)).
  split; [now apply clone_run|].
  assert (H1 : points (mkStore (points h ++ [p]) (boxes h)) !! this = Some p)
    by (simpl; now apply lookup_app_l_Some).
  assert (H2 : points (mkStore (points h ++ [p]) (boxes h)) !! length (points h)
               = Some p).
  { simpl. rewrite lookup_app_r by lia. now rewrite Nat.sub_diag. }
  split.
  - rewrite (LatLng_equals_max this (VLatLng (length (points h))) VUndef _
               (length (points h)) _ p p eq_refl H1 H2).
    rewrite !abs_sub_self.
    destruct (is_finite (lat p)), (is_finite (lng p)); reflexivity.
  - rewrite (LatLng_equals_max (length (points h)) (VLatLng this) VUndef _
               this _ p p eq_refl H2 H1).
    rewrite !abs_sub_self.
    destruct (is_finite (lat p)), (is_finite (lng p)); reflexivity.
Qed.

(** [new LatLng(50.5, 30.5)] equals its clone. *)
Lemma clone_equals_original_witness :
  let h := mkStore [mkLatLng (num_of_ratio 101 2) (num_of_ratio 61 2) None] [] in
  exists r h',
    LatLng.clone 0%nat h = (Ret r, h') /\
    LatLng.equals 0%nat (VLatLng r) VUndef h' = (Ret true, h').
Proof.
  intros h.
  destruct (clone_equals_original h 0%nat
              (mkLatLng (num_of_ratio 101 2) (num_of_ratio 61 2) None) eq_refl)
    as (r & h' & C & E & _).
  exists r, h'. split; [exact C|exact E].
Defined.

(** ** LatLng: equality is symmetric *)

(** X3: for two instances, [a.equals(b, m)] and [b.equals(a, m)] give the
    same answer, whatever the margin. *)
Theorem LatLng_equals_is_symmetric (h : store) a b p q maxMargin
  (Ha : points h !! a = Some p) (Hb : points h !! b = Some q) :
  LatLng.equals a (VLatLng b) maxMargin h
  = LatLng.equals b (VLatLng a) maxMargin h.
Proof.
  rewrite (LatLng_equals_max a (VLatLng b) maxMargin h b h p q eq_refl Ha Hb).
  rewrite (LatLng_equals_max b (VLatLng a) maxMargin h a h q p eq_refl Hb Ha).
  now rewrite (abs_sub_comm (lat p)), (abs_sub_comm (lng p)).
Qed.

Lemma LatLng_equals_is_symmetric_witness :
  let h := mkStore [mkLatLng (num_of_Z 50) (num_of_Z 30) None;
                    mkLatLng (num_of_Z 51) (num_of_Z 30) None] [] in
  LatLng.equals 0%nat (VLatLng 1%nat) (VNum (num_of_Z 2)) h
  = LatLng.equals 1%nat (VLatLng 0%nat) (VNum (num_of_Z 2)) h.
Proof.
  intros h.
  exact (LatLng_equals_is_symmetric h 0%nat 1%nat _ _ (VNum (num_of_Z 2))
           eq_refl eq_refl).
Defined.

(** ** LatLng: what [validate] promises *)



(** ** LatLngBounds: arguments that are refused *)

(** The constructor with one argument that is present, is no array and no
    instance of [LatLngBounds]: the loop finds nothing to iterate. *)
Lemma new_not_iterable v corner2 h :
  truthy v = true -> truthy corner2 = false ->
  isArray v = false -> instanceof_LatLngBounds v = false ->
  LatLngBounds.new v corner2 h
  = (Throw TypeError, snd (alloc_box LatLngBounds.unset h)).
Proof.
  intros Hv Hc Ha Hb. unfold LatLngBounds.new. rewrite Hv, Hc. simpl.
  destruct v; try discriminate; reflexivity.
Qed.

(** X5: [new LatLngBounds(v)] with a single argument [v] that is truthy
    (not [undefined], [null], [0] or [NaN]) and is neither an array nor an
    instance of [LatLngBounds], that is a [LatLng], a record or a number
    other than [0] and [NaN], adds an empty bounds to the store and throws
    a [TypeError] (the argument is not iterable). So [intersects],
    [overlaps] and [equals] throw a [TypeError] when they are given such an
    argument, and [extend] and [contains] throw it when they are given a
    truthy argument that is no array and no instance of [LatLng] or
    [LatLngBounds] and that [validate] refuses, as it refuses every lone
    number. [extend] with a falsy argument, [0] and [NaN] included, returns
    the receiver and changes nothing. *)
Theorem single_point_is_not_a_bounds :
  (forall v corner2 h,
      truthy v = true -> truthy corner2 = false ->
      isArray v = false -> instanceof_LatLngBounds v = false ->
      LatLngBounds.new v corner2 h
      = (Throw TypeError, snd (alloc_box LatLngBounds.unset h))) /\
  (forall this v maxMargin h,
      truthy v = true -> isArray v = false ->
      instanceof_LatLngBounds v = false ->
      fst (LatLngBounds.intersects this v h) = Throw TypeError /\
      fst (LatLngBounds.overlaps this v h) = Throw TypeError /\
      fst (LatLngBounds.equals this v maxMargin h) = Throw TypeError) /\
  (forall this v h,
      truthy v = true -> isArray v = false ->
      instanceof_LatLng v = false -> instanceof_LatLngBounds v = false ->
      LatLng.validate v VUndef VUndef = Ret false ->
      fst (LatLngBounds.extend this v h) = Throw TypeError /\
      fst (LatLngBounds.contains this v h) = Throw TypeError) /\
  (forall x, LatLng.validate (VNum x) VUndef VUndef = Ret false) /\
  (forall this v h,
      truthy v = false -> LatLngBounds.extend this v h = (Ret this, h)).
Proof.
  split; [exact new_not_iterable|]. split; [|split; [|split]].
  - intros this v maxMargin h Hv Ha Hb.
    unfold LatLngBounds.intersects, LatLngBounds.overlaps, LatLngBounds.equals.
    rewrite Hv. simpl.
    rewrite !bind_run, (new_not_iterable v VUndef h Hv eq_refl Ha Hb).
    auto.
  - intros this v h Hv Ha Hi Hb V. split.
    + rewrite extend_unfold.
      assert (E : fst (extend_other this v h) = Throw TypeError).
      { unfold extend_other. rewrite Hv. simpl.
        rewrite bind_run. unfold lift. rewrite V.
        destruct v; try discriminate; reflexivity. }
      destruct v; try discriminate; exact E.
    + unfold LatLngBounds.contains. rewrite bind_run. unfold lift. rewrite V.
      cbv beta iota.
      now rewrite bind_run, bind_run, (new_not_iterable v VUndef h Hv eq_refl Ha Hb).
  - intros x. destruct x; reflexivity.
  - intros this v h T. rewrite extend_unfold.
    destruct v; try discriminate T; unfold extend_other; now rewrite T.
Qed.

(** [new LatLngBounds(new LatLng(1, 2))] and [b.intersects({lat: 1, lng: 2})]. *)
Lemma single_point_is_not_a_bounds_witness :
  let h := mkStore [mkLatLng (num_of_Z 1) (num_of_Z 2) None]
                   [LatLngBounds.unset] in
  fst (LatLngBounds.new (VLatLng 0%nat) VUndef h) = Throw TypeError /\
  fst (LatLngBounds.intersects 0%nat
         (VRec [("lat"%string, VNum (num_of_Z 1));
                ("lng"%string, VNum (num_of_Z 2))]) h) = Throw TypeError.
Proof.
  intros h. destruct single_point_is_not_a_bounds as (A & B & _). split.
  - now rewrite (A (VLatLng 0%nat) VUndef h eq_refl eq_refl eq_refl eq_refl).
  - exact (proj1 (B 0%nat (VRec [("lat"%string, VNum (num_of_Z 1));
                                 ("lng"%string, VNum (num_of_Z 2))])
                    VUndef h eq_refl eq_refl eq_refl)).
Defined.

(** X6: the first extension checks its point, a later one does not. On an
    empty bounds, [extend] with a [LatLng] whose [lat] or [lng] is [NaN]
    throws the error of the [LatLng] constructor and changes nothing. On a
    bounds with both corners set, [extend] with any [LatLng] returns the
    receiver. *)
Theorem first_extension_checks_its_point :
  (forall (h : store) this r p,
      boxes h !! this = Some LatLngBounds.unset ->
      points h !! r = Some p -> not_nan p = false ->
      LatLngBounds.extend this (VLatLng r) h = (Throw InvalidLatLng, h)) /\
  (forall (h : store) this sw ne r,
      boxes h !! this = Some (mkBounds (Some sw) (Some ne)) ->
      is_Some (points h !! sw) -> is_Some (points h !! ne) ->
      is_Some (points h !! r) ->
      exists h', LatLngBounds.extend this (VLatLng r) h = (Ret this, h')).
Proof.
  split.
  - intros h this r p Hb Hp Hn. simpl. unfold LatLngBounds.extend_with.
    rewrite bind_run, (get_box_run _ _ _ Hb). simpl.
    rewrite bind_run, (get_point_run _ _ _ Hp), bind_run.
    rewrite new_scalars_not_nan.
    replace (not_nan (mkLatLng (lat p) (lng p) None)) with (not_nan p)
      by reflexivity.
    now rewrite Hn.
  - intros h this sw ne r Hb Hs Hn Hr. eexists. simpl.
    now apply (extend_with_set h this r r sw ne).
Qed.

(** [new LatLngBounds().extend(p)] for a point [p] with [lat] [NaN]. *)
Lemma first_extension_checks_its_point_witness :
  let h := mkStore [mkLatLng NaN (num_of_Z 5) None] [LatLngBounds.unset] in
  LatLngBounds.extend 0%nat (VLatLng 0%nat) h = (Throw InvalidLatLng, h).
Proof.
  intros h.
  exact (proj1 first_extension_checks_its_point h 0%nat 0%nat _
           eq_refl eq_refl eq_refl).
Defined.

(** ** The order of [Math.min] and [Math.max] *)

Lemma total_le_total x y : total_le x y \/ total_le y x.
Proof.
  unfold total_le. destruct (key x) as [[a1 a2] a3], (key y) as [[b1 b2] b3]. lia.
Qed.

Lemma total_le_trans x y z : total_le x y -> total_le y z -> total_le x z.
Proof.
  unfold total_le.
  destruct (key x) as [[a1 a2] a3], (key y) as [[b1 b2] b3],
    (key z) as [[c1 c2] c3]. lia.
Qed.

Lemma total_le_antisym x y :
  is_nan x = false -> is_nan y = false ->
  total_le x y -> total_le y x -> x = y.
Proof.
  unfold total_le.
  destruct x as [[]|[]| |[] mx ex], y as [[]|[]| |[] my ey];
    simpl; try discriminate; intros _ _ A B; try reflexivity; try lia;
    f_equal; lia.
Qed.

Lemma Math_min_total x y :
  is_nan x = false -> is_nan y = false ->
  (Math_min x y = x /\ total_le x y) \/ (Math_min x y = y /\ total_le y x).
Proof.
  intros Hx Hy. unfold Math_min. rewrite Hx, Hy. simpl.
  assert (D : ((if lt y x then y else x) = x /\ key_le (key x) (key y)) \/
              ((if lt y x then y else x) = y /\ key_lt (key y) (key x))).
  { destruct (lt y x) eqn:E.
    - right. split; auto. apply lt_key in E. tauto.
    - left. split; auto. apply lt_false_le, le_key in E; auto. tauto. }
  unfold total_le.
  destruct x as [[]|[]| |[] mx ex], y as [[]|[]| |[] my ey];
    try discriminate; simpl in *;
    try (left; split; [reflexivity|lia]); try (right; split; [reflexivity|lia]);
    (destruct D as [[E K]|[E K]]; [left|right]; (split; [exact E|lia])).
Qed.

Lemma Math_max_total x y :
  is_nan x = false -> is_nan y = false ->
  (Math_max x y = x /\ total_le y x) \/ (Math_max x y = y /\ total_le x y).
Proof.
  intros Hx Hy. unfold Math_max. rewrite Hx, Hy. simpl.
  assert (D : ((if lt x y then y else x) = x /\ key_le (key y) (key x)) \/
              ((if lt x y then y else x) = y /\ key_lt (key x) (key y))).
  { destruct (lt x y) eqn:E.
    - right. split; auto. apply lt_key in E. tauto.
    - left. split; auto. apply lt_false_le, le_key in E; auto. tauto. }
  unfold total_le.
  destruct x as [[]|[]| |[] mx ex], y as [[]|[]| |[] my ey];
    try discriminate; simpl in *;
    try (left; split; [reflexivity|lia]); try (right; split; [reflexivity|lia]);
    (destruct D as [[E K]|[E K]]; [left|right]; (split; [exact E|lia])).
Qed.

Lemma Math_min_nan_l x y : is_nan x = true -> Math_min x y = NaN.
Proof. intros H. unfold Math_min. now rewrite H. Qed.

Lemma Math_min_nan_r x y : is_nan y = true -> Math_min x y = NaN.
Proof. intros H. unfold Math_min. now rewrite H, orb_true_r. Qed.

Lemma Math_max_nan_l x y : is_nan x = true -> Math_max x y = NaN.
Proof. intros H. unfold Math_max. now rewrite H. Qed.

Lemma Math_max_nan_r x y : is_nan y = true -> Math_max x y = NaN.
Proof. intros H. unfold Math_max. now rewrite H, orb_true_r. Qed.

Ltac order_cases op_total op_nan_l op_nan_r x y a :=
  destruct (is_nan x) eqn:Hx;
    [now rewrite !(op_nan_l x), ?(op_nan_r _ NaN) by auto|];
  destruct (is_nan y) eqn:Hy;
    [now rewrite !(op_nan_l y), ?(op_nan_r _ NaN) by auto|];
  destruct (is_nan a) eqn:Ha;
    [now rewrite !(op_nan_r _ a), ?(op_nan_r _ NaN) by auto|];
  destruct (op_total y a Hy Ha) as [[E1 L1]|[E1 L1]]; rewrite E1;
  destruct (op_total x a Hx Ha) as [[E2 L2]|[E2 L2]]; rewrite ?E2, ?E1;
  try reflexivity;
  destruct (op_total x y Hx Hy) as [[E3 L3]|[E3 L3]]; rewrite ?E3;
  destruct (op_total y x Hy Hx) as [[E4 L4]|[E4 L4]]; rewrite ?E4;
  try reflexivity;
  apply total_le_antisym; eauto using total_le_trans.

(** [Math.min] and [Math.max] do not depend on the order in which the
    numbers come. *)
Lemma Math_min_swap x y a : Math_min x (Math_min y a) = Math_min y (Math_min x a).
Proof. order_cases Math_min_total Math_min_nan_l Math_min_nan_r x y a. Qed.

Lemma Math_max_swap x y a : Math_max x (Math_max y a) = Math_max y (Math_max x a).
Proof. order_cases Math_max_total Math_max_nan_l Math_max_nan_r x y a. Qed.

Lemma Math_min_absorb x a : Math_min x (Math_min x a) = Math_min x a.
Proof.
  destruct (is_nan x) eqn:Hx; [now rewrite !(Math_min_nan_l x) by auto|].
  destruct (is_nan a) eqn:Ha;
    [now rewrite !(Math_min_nan_r _ a), ?(Math_min_nan_r _ NaN) by auto|].
  destruct (Math_min_total x a Hx Ha) as [[E L]|[E L]]; rewrite E; auto.
  destruct (Math_min_total x x Hx Hx) as [[E' _]|[E' _]]; auto.
Qed.

Lemma Math_max_absorb x a : Math_max x (Math_max x a) = Math_max x a.
Proof.
  destruct (is_nan x) eqn:Hx; [now rewrite !(Math_max_nan_l x) by auto|].
  destruct (is_nan a) eqn:Ha;
    [now rewrite !(Math_max_nan_r _ a), ?(Math_max_nan_r _ NaN) by auto|].
  destruct (Math_max_total x a Hx Ha) as [[E L]|[E L]]; rewrite E; auto.
  destruct (Math_max_total x x Hx Hx) as [[E' _]|[E' _]]; auto.
Qed.

Lemma Math_min_Infinity x : Math_min x Infinity = x.
Proof. destruct x as [[]|[]| |[] m e]; reflexivity. Qed.

Lemma Math_max_neg_Infinity x : Math_max x (neg Infinity) = x.
Proof. destruct x as [[]|[]| |[] m e]; reflexivity. Qed.

Lemma fold_axis_permutation op f ps ps' a :
  (forall x y z, op x (op y z) = op y (op x z)) ->
  ps ≡ₚ ps' -> fold_axis op f ps a = fold_axis op f ps' a.
Proof.
  intros Hop Hperm. revert a. unfold fold_axis.
  induction Hperm as [|p ps ps' _ IH|p q ps|ps ps' ps'' _ IH1 _ IH2];
    intros a; simpl; auto.
  - now rewrite Hop.
  - now rewrite IH1.
Qed.

(** With a neutral number for [op], the first point is like the others. *)
Lemma fold_axis_first op f e p ps q qs :
  (forall x y z, op x (op y z) = op y (op x z)) ->
  (forall x, op x e = x) ->
  p :: ps ≡ₚ q :: qs ->
  fold_axis op f ps (f p) = fold_axis op f qs (f q).
Proof.
  intros Hop He Hperm.
  pose proof (fold_axis_permutation op f _ _ e Hop Hperm) as H.
  unfold fold_axis in *. simpl in H. now rewrite !He in H.
Qed.

(** ** The bounding box of a sequence of points *)

(** The four assignments of a later extension, when the corners are two
    objects and the argument is neither of them. *)
Lemma widen_all_exact (pts : list LatLngObj) sw ne sw2 ne2 ps pn p2 q2 :
  sw <> ne -> sw2 <> sw -> ne2 <> sw -> ne2 <> ne ->
  pts !! sw = Some ps -> pts !! ne = Some pn ->
  pts !! sw2 = Some p2 -> pts !! ne2 = Some q2 ->
  widen_points Math_max lng set_lng ne ne2
    (widen_points Math_max lat set_lat ne ne2
      (widen_points Math_min lng set_lng sw sw2
        (widen_points Math_min lat set_lat sw sw2 pts)))
  = <[ne := mkLatLng (Math_max (lat q2) (lat pn)) (Math_max (lng q2) (lng pn))
                     (alt pn)]>
      (<[sw := mkLatLng (Math_min (lat p2) (lat ps)) (Math_min (lng p2) (lng ps))
                        (alt ps)]> pts).
Proof.
  intros D1 D2 D3 D4 Hs Hn H2 Hq.
  assert (Ls : (sw < length pts)%nat) by (eapply lookup_lt_Some; eauto).
  assert (Ln : (ne < length pts)%nat) by (eapply lookup_lt_Some; eauto).
  unfold widen_points at 4. rewrite H2, Hs.
  unfold widen_points at 3.
  rewrite list_lookup_insert_ne, H2 by auto.
  rewrite list_lookup_insert_eq by auto.
  rewrite list_insert_insert_eq.
  unfold widen_points at 2.
  rewrite list_lookup_insert_ne, Hq by auto.
  rewrite list_lookup_insert_ne, Hn by auto.
  unfold widen_points.
  rewrite list_lookup_insert_ne by auto.
  rewrite list_lookup_insert_ne, Hq by auto.
  rewrite list_lookup_insert_eq by (rewrite length_insert; auto).
  rewrite list_insert_insert_eq. reflexivity.
Qed.

Lemma insert_last_two {A} (l : list A) (s n s' n' : A) :
  <[S (length l) := n']> (<[length l := s']> (l ++ [s; n])) = l ++ [s'; n'].
Proof.
  rewrite (insert_app_r_alt l [s; n] (length l)) by lia.
  rewrite Nat.sub_diag. simpl.
  rewrite (insert_app_r_alt l [s'; n] (S (length l))) by lia.
  replace (S (length l) - length l)%nat with 1%nat by lia. reflexivity.
Qed.

(** A later extension with a point of the store, on a bounds whose corners
    are the two newest points. *)
Lemma extend_newest_corners (l : list LatLngObj) bx this r p s n :
  bx !! this = Some (mkBounds (Some (length l)) (Some (S (length l)))) ->
  l !! r = Some p ->
  LatLngBounds.extend this (VLatLng r) (mkStore (l ++ [s; n]) bx)
  = (Ret this,
     mkStore (l ++ [mkLatLng (Math_min (lat p) (lat s)) (Math_min (lng p) (lng s))
                             (alt s);
                    mkLatLng (Math_max (lat p) (lat n)) (Math_max (lng p) (lng n))
                             (alt n)]) bx).
Proof.
  intros Hb Hr.
  assert (Lr : (r < length l)%nat) by (eapply lookup_lt_Some; eauto).
  assert (Hs : (l ++ [s; n]) !! length l = Some s).
  { rewrite lookup_app_r by lia. now rewrite Nat.sub_diag. }
  assert (Hn : (l ++ [s; n]) !! S (length l) = Some n).
  { rewrite lookup_app_r by lia.
    now replace (S (length l) - length l)%nat with 1%nat by lia. }
  assert (Hr' : (l ++ [s; n]) !! r = Some p) by now apply lookup_app_l_Some.
  simpl.
  rewrite (extend_with_set (mkStore (l ++ [s; n]) bx) this r r
             (length l) (S (length l))); simpl; eauto.
  rewrite (widen_all_exact _ _ _ _ _ s n p p) by (auto; lia).
  now rewrite insert_last_two.
Qed.

(** The loop of the constructor over points of the store, once the corners
    are set. *)
Lemma extend_loop_exact (l : list LatLngObj) bx this rs ps :
  Forall2 (fun r p => l !! r = Some p) rs ps ->
  bx !! this = Some (mkBounds (Some (length l)) (Some (S (length l)))) ->
  forall s n,
    for_of (VArr (VLatLng <$> rs))
           (fun latlng => LatLngBounds.extend this latlng ;; ret tt)
           (mkStore (l ++ [s; n]) bx)
    = (Ret tt,
       mkStore (l ++ [mkLatLng (fold_axis Math_min lat ps (lat s))
                               (fold_axis Math_min lng ps (lng s)) (alt s);
                      mkLatLng (fold_axis Math_max lat ps (lat n))
                               (fold_axis Math_max lng ps (lng n)) (alt n)])
               bx).
Proof.
  intros HF Hb. induction HF as [|r p rs ps Hr HF IH]; intros s n.
  - destruct s, n; reflexivity.
  - change (for_of (VArr (VLatLng <$> r :: rs)) ?body ?h)
      with ((body (VLatLng r) ;; for_of (VArr (VLatLng <$> rs)) body) h).
    rewrite bind_run, bind_run, (extend_newest_corners l bx this r p s n Hb Hr).
    cbv beta iota. unfold ret at 1. cbv beta iota.
    rewrite IH. reflexivity.
Qed.

(** The constructor with an array of points of the store, the first of
    which holds numbers. *)
Lemma new_from_points (h : store) r rs p ps :
  points h !! r = Some p ->
  Forall2 (fun r p => points h !! r = Some p) rs ps ->
  not_nan p = true ->
  LatLngBounds.new (VArr (VLatLng <$> r :: rs)) VUndef h
  = (Ret (length (boxes h)),
     mkStore (points h ++ [south_west_of p ps; north_east_of p ps])
             (boxes h ++ [mkBounds (Some (length (points h)))
                                   (Some (S (length (points h))))])).
Proof.
  intros Hp HF Np. unfold LatLngBounds.new.
  change (negb (truthy (VArr (VLatLng <$> r :: rs)))) with false.
  change (truthy VUndef) with false. cbv iota.
  rewrite bind_run. unfold alloc_box at 1. cbv beta iota.
  set (this := length (boxes h)).
  set (h1 := mkStore (points h) (boxes h ++ [LatLngBounds.unset])).
  assert (Hb1 : boxes h1 !! this = Some LatLngBounds.unset).
  { simpl. rewrite lookup_app_r by (unfold this; lia).
    unfold this. now rewrite Nat.sub_diag. }
  rewrite bind_run.
  change (for_of (VArr (VLatLng <$> r :: rs)) ?body ?h)
    with ((body (VLatLng r) ;; for_of (VArr (VLatLng <$> rs)) body) h).
  rewrite bind_run, bind_run.
  change (LatLngBounds.extend this (VLatLng r) h1)
    with (LatLngBounds.extend_with this r r h1).
  rewrite (extend_with_unset h1 this r r p p Hb1 Hp Hp Np Np).
  cbv beta iota. unfold ret at 1. cbv beta iota.
  assert (Hins : <[this := mkBounds (Some (length (points h1)))
                                    (Some (S (length (points h1))))]> (boxes h1)
                 = boxes h ++ [mkBounds (Some (length (points h)))
                                        (Some (S (length (points h))))]).
  { simpl. rewrite insert_app_r_alt by (unfold this; lia).
    unfold this. now rewrite Nat.sub_diag. }
  rewrite Hins. simpl points.
  rewrite (extend_loop_exact (points h) _ this rs ps HF).
  - reflexivity.
  - rewrite lookup_app_r by (unfold this; lia).
    unfold this. now rewrite Nat.sub_diag.
Qed.

(** X7: [new LatLngBounds(latlngs)] with an array of [LatLng] objects, the
    first of which holds numbers, returns a new bounds whose corners are
    two new points: the south-west one holds the [Math.min] of the
    latitudes and of the longitudes, the north-east one their [Math.max],
    taken over the points in turn. The points given are not modified. *)
Theorem constructor_computes_the_bounding_box (h : store) r rs p ps
  (Hp : points h !! r = Some p)
  (Hps : Forall2 (fun r p => points h !! r = Some p) rs ps)
  (Hn : not_nan p = true) :
  LatLngBounds.new (VArr (VLatLng <$> r :: rs)) VUndef h
  = (Ret (length (boxes h)),
     mkStore (points h ++ [south_west_of p ps; north_east_of p ps])
             (boxes h ++ [mkBounds (Some (length (points h)))
                                   (Some (S (length (points h))))])).
Proof. now apply new_from_points. Qed.

(** Three points. *)
Lemma constructor_computes_the_bounding_box_witness :
  let a := mkLatLng (num_of_Z 1) (num_of_Z 2) None in
  let b := mkLatLng (num_of_Z (-4)) (num_of_Z 7) None in
  let c := mkLatLng zero zero None in
  let h := mkStore [a; b; c] [] in
  LatLngBounds.new (VArr [VLatLng 0%nat; VLatLng 1%nat; VLatLng 2%nat]) VUndef h
  = (Ret 0%nat,
     mkStore [a; b; c; mkLatLng (num_of_Z (-4)) zero None;
              mkLatLng (num_of_Z 1) (num_of_Z 7) None]
             [mkBounds (Some 3%nat) (Some 4%nat)]).
Proof.
  intros a b c h.
  apply (constructor_computes_the_bounding_box h 0%nat [1; 2]%nat a [b; c]).
  - reflexivity.
  - repeat constructor.
  - reflexivity.
Defined.

(** X8: the bounds built from an array of [LatLng] objects that hold
    numbers does not depend on the order of the array: the constructor
    returns the same bounds, in the same store, for every permutation; and
    the two corners of [new LatLngBounds(corner1, corner2)] can be given in
    either order. *)
Theorem bounds_do_not_depend_on_order :
  (forall (h : store) (rs rs' : list ref),
      rs ≡ₚ rs' ->
      Forall (fun r => exists p, points h !! r = Some p /\ not_nan p = true) rs ->
      LatLngBounds.new (VArr (VLatLng <$> rs)) VUndef h
      = LatLngBounds.new (VArr (VLatLng <$> rs')) VUndef h) /\
  (forall (h : store) r1 r2 p1 p2,
      points h !! r1 = Some p1 -> points h !! r2 = Some p2 ->
      not_nan p1 = true -> not_nan p2 = true ->
      LatLngBounds.new (VLatLng r1) (VLatLng r2) h
      = LatLngBounds.new (VLatLng r2) (VLatLng r1) h).
Proof.
  assert (G : forall (h : store) (rs rs' : list ref),
      rs ≡ₚ rs' ->
      Forall (fun r => exists p, points h !! r = Some p /\ not_nan p = true) rs ->
      LatLngBounds.new (VArr (VLatLng <$> rs)) VUndef h
      = LatLngBounds.new (VArr (VLatLng <$> rs')) VUndef h).
  { intros h rs rs' Hperm Hps.
    set (g := fun r : ref => default (mkLatLng NaN NaN None) (points h !! r)).
    assert (Hps' : Forall (fun r => exists p, points h !! r = Some p /\
                                              not_nan p = true) rs')
      by now rewrite <- Hperm.
    assert (V : forall l,
               Forall (fun r => exists p, points h !! r = Some p /\
                                          not_nan p = true) l ->
               Forall2 (fun r p => points h !! r = Some p) l (g <$> l)).
    { induction 1 as [|r l (p & Hp & _) _ IH]; constructor; auto.
      unfold g. now rewrite Hp. }
    destruct rs as [|r rs], rs' as [|r' rs'].
    - reflexivity.
    - apply Permutation_nil_cons in Hperm as [].
    - symmetry in Hperm. apply Permutation_nil_cons in Hperm as [].
    - apply Forall_cons in Hps as [(p & Hp & Np) Hrs].
      apply Forall_cons in Hps' as [(p' & Hp' & Np') Hrs'].
      pose proof (V _ Hrs) as F. pose proof (V _ Hrs') as F'.
      assert (P : p :: fmap (M := list) g rs ≡ₚ p' :: fmap (M := list) g rs').
      { replace p with (g r) by (unfold g; now rewrite Hp).
        replace p' with (g r') by (unfold g; now rewrite Hp').
        apply (fmap_Permutation g _ _ Hperm). }
      rewrite (new_from_points h r rs p (fmap (M := list) g rs) Hp F Np).
      rewrite (new_from_points h r' rs' p' (fmap (M := list) g rs') Hp' F' Np').
      unfold south_west_of, north_east_of.
      rewrite (fold_axis_first Math_min lat Infinity _ _ _ _
                 Math_min_swap Math_min_Infinity P).
      rewrite (fold_axis_first Math_min lng Infinity _ _ _ _
                 Math_min_swap Math_min_Infinity P).
      rewrite (fold_axis_first Math_max lat (neg Infinity) _ _ _ _
                 Math_max_swap Math_max_neg_Infinity P).
      rewrite (fold_axis_first Math_max lng (neg Infinity) _ _ _ _
                 Math_max_swap Math_max_neg_Infinity P).
      reflexivity. }
  split; [exact G|].
  intros h r1 r2 p1 p2 H1 H2 N1 N2.
  change (LatLngBounds.new (VLatLng r1) (VLatLng r2) h)
    with (LatLngBounds.new (VArr (VLatLng <$> [r1; r2])) VUndef h).
  change (LatLngBounds.new (VLatLng r2) (VLatLng r1) h)
    with (LatLngBounds.new (VArr (VLatLng <$> [r2; r1])) VUndef h).
  apply G; [apply perm_swap|].
  repeat constructor; eauto.
Qed.

(** Three points, in two orders. *)
Lemma bounds_do_not_depend_on_order_witness :
  let h := mkStore [mkLatLng (num_of_Z 1) (num_of_Z 2) None;
                    mkLatLng (num_of_Z (-4)) (num_of_Z 7) None;
                    mkLatLng zero zero None] [] in
  LatLngBounds.new (VArr [VLatLng 0%nat; VLatLng 1%nat; VLatLng 2%nat]) VUndef h
  = LatLngBounds.new (VArr [VLatLng 2%nat; VLatLng 0%nat; VLatLng 1%nat]) VUndef h.
Proof.
  intros h.
  apply (proj1 bounds_do_not_depend_on_order h [0; 1; 2]%nat [2; 0; 1]%nat).
  - apply (perm_trans (l' := [0; 2; 1]%nat)).
    + apply perm_skip, perm_swap.
    + apply perm_swap.
  - repeat constructor; eexists; split; reflexivity.
Defined.

(** ** Extending again *)

Lemma record_eta (p : LatLngObj) : mkLatLng (lat p) (lng p) (alt p) = p.
Proof. now destruct p. Qed.

Lemma Math_min_same x : Math_min x x = x.
Proof.
  destruct (is_nan x) eqn:Hx.
  - rewrite Math_min_nan_l by auto. destruct x; try discriminate; reflexivity.
  - destruct (Math_min_total x x Hx Hx) as [[E _]|[E _]]; exact E.
Qed.

Lemma Math_max_same x : Math_max x x = x.
Proof.
  destruct (is_nan x) eqn:Hx.
  - rewrite Math_max_nan_l by auto. destruct x; try discriminate; reflexivity.
  - destruct (Math_max_total x x Hx Hx) as [[E _]|[E _]]; exact E.
Qed.

(** A later extension with a point that is no corner, as one update of each
    corner. *)
Lemma extend_point_exact (h : store) this sw ne r ps pn p :
  boxes h !! this = Some (mkBounds (Some sw) (Some ne)) ->
  points h !! sw = Some ps -> points h !! ne = Some pn ->
  points h !! r = Some p ->
  sw <> ne -> r <> sw -> r <> ne ->
  LatLngBounds.extend this (VLatLng r) h
  = (Ret this,
     mkStore (<[ne := mkLatLng (Math_max (lat p) (lat pn))
                               (Math_max (lng p) (lng pn)) (alt pn)]>
                (<[sw := mkLatLng (Math_min (lat p) (lat ps))
                                  (Math_min (lng p) (lng ps)) (alt ps)]>
                   (points h)))
             (boxes h)).
Proof.
  intros Hb Hs Hn Hr D1 D2 D3. simpl.
  rewrite (extend_with_set h this r r sw ne) by eauto.
  now rewrite (widen_all_exact _ _ _ _ _ ps pn p p) by auto.
Qed.

(** X9: extending a second time with the same point changes nothing, on a
    bounds that was empty as on a bounds that had its two corners. *)
Theorem extend_twice_is_extend_once :
  (forall (h : store) this sw ne r,
      boxes h !! this = Some (mkBounds (Some sw) (Some ne)) ->
      is_Some (points h !! sw) -> is_Some (points h !! ne) ->
      is_Some (points h !! r) ->
      sw <> ne -> r <> sw -> r <> ne ->
      exists h1,
        LatLngBounds.extend this (VLatLng r) h = (Ret this, h1) /\
        LatLngBounds.extend this (VLatLng r) h1 = (Ret this, h1)) /\
  (forall (h : store) this r p,
      boxes h !! this = Some LatLngBounds.unset ->
      points h !! r = Some p -> not_nan p = true ->
      exists h1,
        LatLngBounds.extend this (VLatLng r) h = (Ret this, h1) /\
        LatLngBounds.extend this (VLatLng r) h1 = (Ret this, h1)).
Proof.
  split.
  - intros h this sw ne r Hb [ps Hs] [pn Hn] [p Hr] D1 D2 D3.
    assert (Ls : (sw < length (points h))%nat) by (eapply lookup_lt_Some; eauto).
    assert (Ln : (ne < length (points h))%nat) by (eapply lookup_lt_Some; eauto).
    eexists. split; [apply (extend_point_exact h this sw ne r ps pn p); auto|].
    set (s' := mkLatLng (Math_min (lat p) (lat ps)) (Math_min (lng p) (lng ps))
                        (alt ps)).
    set (n' := mkLatLng (Math_max (lat p) (lat pn)) (Math_max (lng p) (lng pn))
                        (alt pn)).
    set (pts := <[ne := n']> (<[sw := s']> (points h))).
    assert (Hs' : pts !! sw = Some s').
    { unfold pts. rewrite list_lookup_insert_ne by auto.
      now apply list_lookup_insert_eq. }
    assert (Hn' : pts !! ne = Some n').
    { unfold pts. apply list_lookup_insert_eq. now rewrite length_insert. }
    assert (Hr' : pts !! r = Some p).
    { unfold pts. now rewrite !list_lookup_insert_ne by auto. }
    rewrite (extend_point_exact (mkStore pts (boxes h)) this sw ne r s' n' p);
      auto.
    simpl. rewrite !Math_min_absorb, !Math_max_absorb. fold s' n'.
    rewrite (list_insert_id pts sw s' Hs').
    now rewrite (list_insert_id pts ne n' Hn').
  - intros h this r p Hb Hp Np.
    assert (Hlt : (this < length (boxes h))%nat) by (eapply lookup_lt_Some; eauto).
    assert (Lr : (r < length (points h))%nat) by (eapply lookup_lt_Some; eauto).
    eexists. split; [simpl; apply (extend_with_unset h this r r p p); auto|].
    set (c := mkLatLng (lat p) (lng p) None).
    set (bx := <[this := _]> (boxes h)).
    rewrite (extend_newest_corners (points h) bx this r p c c).
    + unfold c. simpl. now rewrite !Math_min_same, !Math_max_same.
    + unfold bx. now apply list_lookup_insert_eq.
    + exact Hp.
Qed.

(** [new LatLngBounds([0, 0], [10, 10])] extended twice with a point. *)
Lemma extend_twice_is_extend_once_witness :
  let h := mkStore [mkLatLng zero zero None;
                    mkLatLng (num_of_Z 10) (num_of_Z 10) None;
                    mkLatLng (num_of_Z 20) (num_of_Z 5) None]
                   [mkBounds (Some 0%nat) (Some 1%nat)] in
  exists h1,
    LatLngBounds.extend 0%nat (VLatLng 2%nat) h = (Ret 0%nat, h1) /\
    LatLngBounds.extend 0%nat (VLatLng 2%nat) h1 = (Ret 0%nat, h1).
Proof.
  intros h.
  apply (proj1 extend_twice_is_extend_once h 0%nat 0%nat 1%nat 2%nat);
    try reflexivity; try (eexists; reflexivity); lia.
Defined.

(** ** Relations between two bounds *)

(** [contains] with an instance of [LatLngBounds], both with corners set. *)
Lemma contains_bounds_run (h : store) a b sw ne sw2 ne2 p q p2 q2 :
  boxes h !! a = Some (mkBounds (Some sw) (Some ne)) ->
  boxes h !! b = Some (mkBounds (Some sw2) (Some ne2)) ->
  points h !! sw = Some p -> points h !! ne = Some q ->
  points h !! sw2 = Some p2 -> points h !! ne2 = Some q2 ->
  LatLngBounds.contains a (VBounds b) h
  = (Ret (ge (lat p2) (lat p) && le (lat q2) (lat q)
          && ge (lng p2) (lng p) && le (lng q2) (lng q)), h).
Proof.
  intros Ha Hb Hp Hq Hp2 Hq2.
  destruct (corners_run _ _ _ _ Hb) as [S N].
  unfold LatLngBounds.contains.
  rewrite bind_run. unfold lift. simpl.
  rewrite !bind_run. simpl. rewrite bind_run, (get_box_run _ _ _ Ha).
  rewrite bind_run, bind_run, S, bind_run, N. simpl.
  repeat apply and_then_run; apply cmp_run; auto.
Qed.

(** [equals] with an instance of [LatLngBounds], both with corners set. *)
Lemma bounds_equals_run (h : store) a b sw ne sw2 ne2 p q p2 q2 maxMargin :
  boxes h !! a = Some (mkBounds (Some sw) (Some ne)) ->
  boxes h !! b = Some (mkBounds (Some sw2) (Some ne2)) ->
  points h !! sw = Some p -> points h !! ne = Some q ->
  points h !! sw2 = Some p2 -> points h !! ne2 = Some q2 ->
  LatLngBounds.equals a (VBounds b) maxMargin h
  = (Ret (le (Math_max (Math_abs (sub (lat p) (lat p2)))
                       (Math_abs (sub (lng p) (lng p2))))
             (LatLng.margin_or_default maxMargin)
          && le (Math_max (Math_abs (sub (lat q) (lat q2)))
                          (Math_abs (sub (lng q) (lng q2))))
                (LatLng.margin_or_default maxMargin)), h).
Proof.
  intros Ha Hb Hp Hq Hp2 Hq2.
  destruct (corners_run _ _ _ _ Hb) as [S N].
  unfold LatLngBounds.equals. simpl.
  rewrite bind_run. simpl. rewrite bind_run, (get_box_run _ _ _ Ha).
  apply and_then_run.
  - simpl. rewrite bind_run, S.
    apply (LatLng_equals_max sw (VLatLng sw2) maxMargin h sw2 h p p2 eq_refl Hp Hp2).
  - rewrite bind_run, (get_box_run _ _ _ Ha). simpl. rewrite bind_run, N.
    apply (LatLng_equals_max ne (VLatLng ne2) maxMargin h ne2 h q q2 eq_refl Hq Hq2).
Qed.

(** X10: on bounds with their corners set, [contains] with a bounds is
    reflexive (when the corners hold numbers) and transitive. *)
Theorem contains_is_reflexive_and_transitive :
  (forall (h : store) a sw ne p q,
      boxes h !! a = Some (mkBounds (Some sw) (Some ne)) ->
      points h !! sw = Some p -> points h !! ne = Some q ->
      not_nan p = true -> not_nan q = true ->
      LatLngBounds.contains a (VBounds a) h = (Ret true, h)) /\
  (forall (h : store) a b c sw ne sw2 ne2 sw3 ne3 p q p2 q2 p3 q3,
      boxes h !! a = Some (mkBounds (Some sw) (Some ne)) ->
      boxes h !! b = Some (mkBounds (Some sw2) (Some ne2)) ->
      boxes h !! c = Some (mkBounds (Some sw3) (Some ne3)) ->
      points h !! sw = Some p -> points h !! ne = Some q ->
      points h !! sw2 = Some p2 -> points h !! ne2 = Some q2 ->
      points h !! sw3 = Some p3 -> points h !! ne3 = Some q3 ->
      LatLngBounds.contains a (VBounds b) h = (Ret true, h) ->
      LatLngBounds.contains b (VBounds c) h = (Ret true, h) ->
      LatLngBounds.contains a (VBounds c) h = (Ret true, h)).
Proof.
  split.
  - intros h a sw ne p q Ha Hp Hq [N1 N2]%not_nan_spec [N3 N4]%not_nan_spec.
    rewrite (contains_bounds_run h a a sw ne sw ne p q p q); auto.
    rewrite !ge_le, !le_refl by auto. reflexivity.
  - intros h a b c sw ne sw2 ne2 sw3 ne3 p q p2 q2 p3 q3
           Ha Hb Hc Hp Hq Hp2 Hq2 Hp3 Hq3.
    rewrite (contains_bounds_run h a b sw ne sw2 ne2 p q p2 q2); auto.
    rewrite (contains_bounds_run h b c sw2 ne2 sw3 ne3 p2 q2 p3 q3); auto.
    rewrite (contains_bounds_run h a c sw ne sw3 ne3 p q p3 q3); auto.
    rewrite !ge_le. intros [= A] [= B]. f_equal. f_equal.
    rewrite !andb_true_iff in A, B.
    destruct A as [[[A1 A2] A3] A4], B as [[[B1 B2] B3] B4].
    rewrite (le_trans _ _ _ A1 B1), (le_trans _ _ _ B2 A2),
      (le_trans _ _ _ A3 B3), (le_trans _ _ _ B4 A4). reflexivity.
Qed.

(** Three nested squares. *)
Lemma contains_is_reflexive_and_transitive_witness :
  let pt := fun x y => mkLatLng (num_of_Z x) (num_of_Z y) None in
  let h := mkStore [pt 0 0; pt 30 30; pt 5 5; pt 20 20; pt 10 10; pt 15 15]
                   [mkBounds (Some 0%nat) (Some 1%nat);
                    mkBounds (Some 2%nat) (Some 3%nat);
                    mkBounds (Some 4%nat) (Some 5%nat)] in
  LatLngBounds.contains 0%nat (VBounds 2%nat) h = (Ret true, h).
Proof.
  intros pt h.
  refine (proj2 contains_is_reflexive_and_transitive h 0%nat 1%nat 2%nat
            0%nat 1%nat 2%nat 3%nat 4%nat 5%nat
            (pt 0 0) (pt 30 30) (pt 5 5) (pt 20 20) (pt 10 10) (pt 15 15)
            _ _ _ _ _ _ _ _ _ _ _).
  all: vm_compute; reflexivity.
Defined.

(** X11: [intersects] and [overlaps] are symmetric; bounds that overlap
    intersect; a bounds intersects every bounds it contains whose corners
    are in order. *)
Theorem intersects_and_overlaps_are_symmetric
        (h : store) a b sw ne sw2 ne2 p q p2 q2
  (Ha : boxes h !! a = Some (mkBounds (Some sw) (Some ne)))
  (Hb : boxes h !! b = Some (mkBounds (Some sw2) (Some ne2)))
  (Hp : points h !! sw = Some p) (Hq : points h !! ne = Some q)
  (Hp2 : points h !! sw2 = Some p2) (Hq2 : points h !! ne2 = Some q2) :
  LatLngBounds.intersects a (VBounds b) h = LatLngBounds.intersects b (VBounds a) h /\
  LatLngBounds.overlaps a (VBounds b) h = LatLngBounds.overlaps b (VBounds a) h /\
  (LatLngBounds.overlaps a (VBounds b) h = (Ret true, h) ->
   LatLngBounds.intersects a (VBounds b) h = (Ret true, h)) /\
  (ordered p2 q2 = true ->
   LatLngBounds.contains a (VBounds b) h = (Ret true, h) ->
   LatLngBounds.intersects a (VBounds b) h = (Ret true, h)).
Proof.
  destruct (intersects_run h a b sw ne sw2 ne2 p q p2 q2 Ha Hb Hp Hq Hp2 Hq2)
    as [-> ->].
  destruct (intersects_run h b a sw2 ne2 sw ne p2 q2 p q Hb Ha Hp2 Hq2 Hp Hq)
    as [-> ->].
  rewrite (contains_bounds_run h a b sw ne sw2 ne2 p q p2 q2); auto.
  rewrite !ge_le, !gt_lt. repeat split.
  - f_equal. f_equal.
    now rewrite (andb_comm (le (lat p) (lat q2))), (andb_comm (le (lng p) (lng q2))).
  - f_equal. f_equal.
    now rewrite (andb_comm (lt (lat p) (lat q2))), (andb_comm (lt (lng p) (lng q2))).
  - intros [= A]. f_equal. f_equal. rewrite !andb_true_iff in A.
    destruct A as [[A1 A2] [A3 A4]].
    now rewrite !lt_true_le by auto.
  - intros [O1 O2]%andb_true_iff [= A]. f_equal. f_equal.
    rewrite !andb_true_iff in A. destruct A as [[[A1 A2] A3] A4].
    rewrite (le_trans _ _ _ A1 O1), (le_trans _ _ _ O1 A2),
      (le_trans _ _ _ A3 O2), (le_trans _ _ _ O2 A4). reflexivity.
Qed.

(** [[0, 0]-[10, 10]] and [[5, 5]-[20, 20]]. *)
Lemma intersects_and_overlaps_are_symmetric_witness :
  let pt := fun x y => mkLatLng (num_of_Z x) (num_of_Z y) None in
  let h := mkStore [pt 0 0; pt 10 10; pt 5 5; pt 20 20]
                   [mkBounds (Some 0%nat) (Some 1%nat);
                    mkBounds (Some 2%nat) (Some 3%nat)] in
  LatLngBounds.overlaps 0%nat (VBounds 1%nat) h
  = LatLngBounds.overlaps 1%nat (VBounds 0%nat) h.
Proof.
  intros pt h.
  refine (proj1 (proj2 (intersects_and_overlaps_are_symmetric h 0%nat 1%nat
            0%nat 1%nat 2%nat 3%nat
            (pt 0 0) (pt 10 10) (pt 5 5) (pt 20 20) _ _ _ _ _ _))).
  all: vm_compute; reflexivity.
Defined.

(** ** Equality of bounds *)

(** X12: [equals] between two bounds with their corners set is symmetric,
    whatever the margin; a bounds [equals] itself exactly when its four
    edges are finite; two bounds with finite edges that contain each other
    are equal within the default margin. *)
Theorem bounds_equals_is_symmetric
        (h : store) a b sw ne sw2 ne2 p q p2 q2
  (Ha : boxes h !! a = Some (mkBounds (Some sw) (Some ne)))
  (Hb : boxes h !! b = Some (mkBounds (Some sw2) (Some ne2)))
  (Hp : points h !! sw = Some p) (Hq : points h !! ne = Some q)
  (Hp2 : points h !! sw2 = Some p2) (Hq2 : points h !! ne2 = Some q2) :
  (forall maxMargin,
      LatLngBounds.equals a (VBounds b) maxMargin h
      = LatLngBounds.equals b (VBounds a) maxMargin h) /\
  LatLngBounds.equals a (VBounds a) VUndef h
  = (Ret (is_finite (lat p) && is_finite (lng p)
          && (is_finite (lat q) && is_finite (lng q))), h) /\
  (is_finite (lat p) = true -> is_finite (lng p) = true ->
   is_finite (lat q) = true -> is_finite (lng q) = true ->
   LatLngBounds.contains a (VBounds b) h = (Ret true, h) ->
   LatLngBounds.contains b (VBounds a) h = (Ret true, h) ->
   LatLngBounds.equals a (VBounds b) VUndef h = (Ret true, h)).
Proof.
  split; [|split].
  - intros maxMargin.
    rewrite (bounds_equals_run h a b sw ne sw2 ne2 p q p2 q2); auto.
    rewrite (bounds_equals_run h b a sw2 ne2 sw ne p2 q2 p q); auto.
    now rewrite (abs_sub_comm (lat p)), (abs_sub_comm (lng p)),
      (abs_sub_comm (lat q)), (abs_sub_comm (lng q)).
  - rewrite (bounds_equals_run h a a sw ne sw ne p q p q); auto.
    rewrite !abs_sub_self.
    destruct (is_finite (lat p)), (is_finite (lng p)),
      (is_finite (lat q)), (is_finite (lng q)); reflexivity.
  - intros F1 F2 F3 F4.
    rewrite (contains_bounds_run h a b sw ne sw2 ne2 p q p2 q2); auto.
    rewrite (contains_bounds_run h b a sw2 ne2 sw ne p2 q2 p q); auto.
    rewrite (bounds_equals_run h a b sw ne sw2 ne2 p q p2 q2); auto.
    rewrite !ge_le. intros [= A] [= B].
    rewrite !andb_true_iff in A, B.
    destruct A as [[[A1 A2] A3] A4], B as [[[B1 B2] B3] B4].
    assert (K : forall x y, le x y = true -> le y x = true -> key x = key y /\
                                                    is_nan y = false).
    { intros x y [Nx [Ny L1]]%le_key [_ [_ L2]]%le_key.
      split; auto using key_le_antisym. }
    destruct (K _ _ A1 B1) as [K1 N1], (K _ _ B2 A2) as [K2 N2],
      (K _ _ A3 B3) as [K3 N3], (K _ _ B4 A4) as [K4 N4].
    rewrite !sub_same_key by auto. reflexivity.
Qed.

(** [[0, 0]-[10, 10]] twice. *)
Lemma bounds_equals_is_symmetric_witness :
  let pt := fun x y => mkLatLng (num_of_Z x) (num_of_Z y) None in
  let h := mkStore [pt 0 0; pt 10 10; pt 0 0; pt 10 10]
                   [mkBounds (Some 0%nat) (Some 1%nat);
                    mkBounds (Some 2%nat) (Some 3%nat)] in
  LatLngBounds.equals 0%nat (VBounds 1%nat) VUndef h = (Ret true, h).
Proof.
  intros pt h.
  refine (proj2 (proj2 (bounds_equals_is_symmetric h 0%nat 1%nat
            0%nat 1%nat 2%nat 3%nat
            (pt 0 0) (pt 10 10) (pt 0 0) (pt 10 10) _ _ _ _ _ _))
            _ _ _ _ _ _).
  all: vm_compute; reflexivity.
Defined.

(** ** An empty bounds as argument *)

(** X13: with an empty bounds as argument, a bounds with its corners set
    answers [false] to [equals], and throws a [TypeError] from [contains],
    [intersects] and [overlaps]; it does the same with [undefined], for
    which [contains], [intersects] and [overlaps] build a new empty
    bounds. *)
Theorem empty_bounds_as_argument (h : store) a b sw ne p q
  (Ha : boxes h !! a = Some (mkBounds (Some sw) (Some ne)))
  (Hb : boxes h !! b = Some LatLngBounds.unset)
  (Hp : points h !! sw = Some p) (Hq : points h !! ne = Some q) :
  (forall maxMargin,
      LatLngBounds.equals a (VBounds b) maxMargin h = (Ret false, h) /\
      LatLngBounds.equals a VUndef maxMargin h = (Ret false, h)) /\
  LatLngBounds.contains a (VBounds b) h = (Throw TypeError, h) /\
  LatLngBounds.intersects a (VBounds b) h = (Throw TypeError, h) /\
  LatLngBounds.overlaps a (VBounds b) h = (Throw TypeError, h) /\
  fst (LatLngBounds.contains a VUndef h) = Throw TypeError /\
  fst (LatLngBounds.intersects a VUndef h) = Throw TypeError /\
  fst (LatLngBounds.overlaps a VUndef h) = Throw TypeError.
Proof.
  destruct (corners_run _ _ _ _ Hb) as [S N].
  set (h1 := snd (alloc_box LatLngBounds.unset h)).
  assert (Ha1 : boxes h1 !! a = Some (mkBounds (Some sw) (Some ne)))
    by (simpl; now apply lookup_app_l_Some).
  assert (Hb1 : boxes h1 !! length (boxes h) = Some LatLngBounds.unset).
  { simpl. rewrite lookup_app_r by lia. now rewrite Nat.sub_diag. }
  destruct (corners_run _ _ _ _ Hb1) as [S1 N1].
  assert (Hnew : LatLngBounds.new VUndef VUndef h = (Ret (length (boxes h)), h1))
    by reflexivity.
  repeat apply conj.
  - intros maxMargin. split; [|reflexivity].
    unfold LatLngBounds.equals. simpl.
    rewrite bind_run. simpl. rewrite bind_run, (get_box_run _ _ _ Ha).
    unfold and_then. simpl. now rewrite !bind_run, S.
  - unfold LatLngBounds.contains.
    rewrite bind_run. unfold lift. simpl.
    rewrite !bind_run. simpl. rewrite bind_run, (get_box_run _ _ _ Ha).
    now rewrite bind_run, bind_run, S, bind_run, N.
  - unfold LatLngBounds.intersects.
    rewrite bind_run, new_from_instance, bind_run, (get_box_run _ _ _ Ha).
    now rewrite bind_run, S, bind_run, N.
  - unfold LatLngBounds.overlaps.
    rewrite bind_run, new_from_instance, bind_run, (get_box_run _ _ _ Ha).
    now rewrite bind_run, S, bind_run, N.
  - unfold LatLngBounds.contains.
    rewrite bind_run. unfold lift. simpl.
    rewrite bind_run, bind_run, Hnew. simpl.
    rewrite bind_run, (get_box_run _ _ _ Ha1).
    now rewrite bind_run, bind_run, S1, bind_run, N1.
  - unfold LatLngBounds.intersects.
    rewrite bind_run, Hnew, bind_run, (get_box_run _ _ _ Ha1).
    now rewrite bind_run, S1, bind_run, N1.
  - unfold LatLngBounds.overlaps.
    rewrite bind_run, Hnew, bind_run, (get_box_run _ _ _ Ha1).
    now rewrite bind_run, S1, bind_run, N1.
Qed.

Lemma empty_bounds_as_argument_witness :
  let pt := fun x y => mkLatLng (num_of_Z x) (num_of_Z y) None in
  let h := mkStore [pt 0 0; pt 10 10]
                   [mkBounds (Some 0%nat) (Some 1%nat); LatLngBounds.unset] in
  LatLngBounds.equals 0%nat (VBounds 1%nat) VUndef h = (Ret false, h) /\
  LatLngBounds.contains 0%nat (VBounds 1%nat) h = (Throw TypeError, h).
Proof.
  intros pt h.
  destruct (empty_bounds_as_argument h 0%nat 1%nat 0%nat 1%nat
              (pt 0 0) (pt 10 10) eq_refl eq_refl eq_refl eq_refl)
    as (E & C & _).
  split; [exact (proj1 (E VUndef))|exact C].
Defined.

(** ** The derived corners *)

(** X14: on a bounds whose corners are in order, [getNorthWest] and
    [getSouthEast] return new points, (north, west) and (south, east),
    that the bounds [contains]; the corners themselves are not returned and
    nothing that was in the store changes. *)
Theorem derived_corners_are_new_points (h : store) this sw ne p q
  (Hb : boxes h !! this = Some (mkBounds (Some sw) (Some ne)))
  (Hp : points h !! sw = Some p) (Hq : points h !! ne = Some q)
  (Ho : ordered p q = true) :
  let nw := mkLatLng (lat q) (lng p) None in
  let se := mkLatLng (lat p) (lng q) None in
  LatLngBounds.getNorthWest this h = alloc_point nw h /\
  LatLngBounds.getSouthEast this h = alloc_point se h /\
  LatLngBounds.contains this (VLatLng (length (points h))) (snd (alloc_point nw h))
  = (Ret true, snd (alloc_point nw h)) /\
  LatLngBounds.contains this (VLatLng (length (points h))) (snd (alloc_point se h))
  = (Ret true, snd (alloc_point se h)).
Proof.
  intros nw se.
  pose proof Ho as [[N1 N2]%not_nan_spec [N3 N4]%not_nan_spec]%ordered_not_nan.
  apply andb_true_iff in Ho as [O1 O2].
  assert (Hn : LatLngBounds.getNorth this h = (Ret (lat q), h))
    by (apply (edge_set lat _northEast _ _ _ _ _ Hb eq_refl Hq)).
  assert (Hw : LatLngBounds.getWest this h = (Ret (lng p), h))
    by (apply (edge_set lng _southWest _ _ _ _ _ Hb eq_refl Hp)).
  assert (Hs : LatLngBounds.getSouth this h = (Ret (lat p), h))
    by (apply (edge_set lat _southWest _ _ _ _ _ Hb eq_refl Hp)).
  assert (He : LatLngBounds.getEast this h = (Ret (lng q), h))
    by (apply (edge_set lng _northEast _ _ _ _ _ Hb eq_refl Hq)).
  assert (C : forall x,
    LatLngBounds.contains this (VLatLng (length (points h))) (snd (alloc_point x h))
    = (Ret (ge (lat x) (lat p) && le (lat x) (lat q)
            && ge (lng x) (lng p) && le (lng x) (lng q)), snd (alloc_point x h))).
  { intros x. apply (contains_point_run _ this sw ne); simpl; auto.
    - now apply lookup_app_l_Some.
    - now apply lookup_app_l_Some.
    - rewrite lookup_app_r by lia. now rewrite Nat.sub_diag. }
  repeat apply conj.
  - unfold LatLngBounds.getNorthWest.
    rewrite bind_run, Hn, bind_run, Hw, new_scalars, N3, N2. reflexivity.
  - unfold LatLngBounds.getSouthEast.
    rewrite bind_run, Hs, bind_run, He, new_scalars, N1, N4. reflexivity.
  - rewrite C. unfold nw. simpl. rewrite !ge_le.
    now rewrite O1, O2, !le_refl by auto.
  - rewrite C. unfold se. simpl. rewrite !ge_le.
    now rewrite O1, O2, !le_refl by auto.
Qed.

(** The north-west corner of [[0, 0]-[10, 20]] is [(10, 0)]. *)
Lemma derived_corners_are_new_points_witness :
  let h := mkStore [mkLatLng zero zero None;
                    mkLatLng (num_of_Z 10) (num_of_Z 20) None]
                   [mkBounds (Some 0%nat) (Some 1%nat)] in
  LatLngBounds.getNorthWest 0%nat h
  = alloc_point (mkLatLng (num_of_Z 10) zero None) h.
Proof.
  intros h.
  exact (proj1 (derived_corners_are_new_points h 0%nat 0%nat 1%nat _ _
                  eq_refl eq_refl eq_refl eq_refl)).
Defined.

(** ** Padding by no number *)

Lemma mul_NaN x : mul x NaN = NaN.
Proof. now destruct x. Qed.

Lemma sub_NaN x : sub x NaN = NaN.
Proof. now destruct x. Qed.

(** X15: [pad] with a ratio that is not a number ([pad()], [pad(NaN)],
    [pad({})]) throws the error of the [LatLng] constructor on every
    bounds with its corners set, and changes nothing. *)
Theorem pad_by_no_number_throws (h : store) this v sw ne p q
  (Hb : boxes h !! this = Some (mkBounds (Some sw) (Some ne)))
  (Hp : points h !! sw = Some p) (Hq : points h !! ne = Some q)
  (Hv : is_nan (to_number v) = true) :
  LatLngBounds.pad this v h = (Throw InvalidLatLng, h).
Proof.
  rewrite (pad_run h this v sw ne p q Hb Hp Hq). cbv zeta.
  destruct (to_number v); try discriminate Hv.
  unfold not_nan. simpl. now rewrite !mul_NaN, !sub_NaN.
Qed.

(** [pad()] on [[0, 0]-[10, 10]]. *)
Lemma pad_by_no_number_throws_witness :
  let h := mkStore [mkLatLng zero zero None;
                    mkLatLng (num_of_Z 10) (num_of_Z 10) None]
                   [mkBounds (Some 0%nat) (Some 1%nat)] in
  LatLngBounds.pad 0%nat VUndef h = (Throw InvalidLatLng, h).
Proof.
  intros h.
  exact (pad_by_no_number_throws h 0%nat VUndef 0%nat 1%nat _ _
           eq_refl eq_refl eq_refl eq_refl).
Defined.

(** ** What [isValid] promises *)

(** X16: when the corners that are set are in the store, [isValid] answers
    [true] exactly when [toBBoxString] returns a string, and exactly when
    the four edges can be read. *)
Theorem isValid_iff_edges_can_be_read (h : store) this b
  (Hb : boxes h !! this = Some b)
  (Hc : forall c, c ∈ corner_refs b -> is_Some (points h !! c)) :
  (LatLngBounds.isValid this h = (Ret true, h) <->
   exists s, LatLngBounds.toBBoxString this h = (Ret s, h)) /\
  (LatLngBounds.isValid this h = (Ret true, h) <->
   exists w s e n,
     LatLngBounds.getWest this h = (Ret w, h) /\
     LatLngBounds.getSouth this h = (Ret s, h) /\
     LatLngBounds.getEast this h = (Ret e, h) /\
     LatLngBounds.getNorth this h = (Ret n, h)).
Proof.
  assert (V : LatLngBounds.isValid this h
              = (Ret (match _southWest b, _northEast b with
                      | Some _, Some _ => true
                      | _, _ => false
                      end), h)).
  { unfold LatLngBounds.isValid. now rewrite bind_run, (get_box_run _ _ _ Hb). }
  rewrite V. destruct b as [[sw|] [ne|]]; simpl.
  - destruct (Hc sw) as [p Hp]; [unfold corner_refs; simpl; rewrite !elem_of_cons; auto|].
    destruct (Hc ne) as [q Hq]; [unfold corner_refs; simpl; rewrite !elem_of_cons; auto|].
    assert (Hn : LatLngBounds.getNorth this h = (Ret (lat q), h))
      by (apply (edge_set lat _northEast _ _ _ _ _ Hb eq_refl Hq)).
    assert (Hw : LatLngBounds.getWest this h = (Ret (lng p), h))
      by (apply (edge_set lng _southWest _ _ _ _ _ Hb eq_refl Hp)).
    assert (Hs : LatLngBounds.getSouth this h = (Ret (lat p), h))
      by (apply (edge_set lat _southWest _ _ _ _ _ Hb eq_refl Hp)).
    assert (He : LatLngBounds.getEast this h = (Ret (lng q), h))
      by (apply (edge_set lng _northEast _ _ _ _ _ Hb eq_refl Hq)).
    split; (split; [intros _|reflexivity]).
    + eexists. unfold LatLngBounds.toBBoxString.
      rewrite bind_run, Hw, bind_run, Hs, bind_run, He, bind_run, Hn. reflexivity.
    + eauto 10.
  - assert (He : LatLngBounds.getEast this h = (Throw TypeError, h))
      by (apply (edge_unset lng _northEast _ _ _ Hb eq_refl)).
    destruct (Hc sw) as [p Hp]; [unfold corner_refs; simpl; rewrite !elem_of_cons; auto|].
    assert (Hw : LatLngBounds.getWest this h = (Ret (lng p), h))
      by (apply (edge_set lng _southWest _ _ _ _ _ Hb eq_refl Hp)).
    assert (Hs : LatLngBounds.getSouth this h = (Ret (lat p), h))
      by (apply (edge_set lat _southWest _ _ _ _ _ Hb eq_refl Hp)).
    split; (split; [discriminate|]).
    + intros [s F]. unfold LatLngBounds.toBBoxString in F.
      rewrite bind_run, Hw, bind_run, Hs, bind_run, He in F. discriminate F.
    + intros (w & s & e & n & _ & _ & F & _). rewrite He in F. discriminate F.
  - assert (Hw : LatLngBounds.getWest this h = (Throw TypeError, h))
      by (apply (edge_unset lng _southWest _ _ _ Hb eq_refl)).
    split; (split; [discriminate|]).
    + intros [s F]. unfold LatLngBounds.toBBoxString in F.
      rewrite bind_run, Hw in F. discriminate F.
    + intros (w & s & e & n & F & _). rewrite Hw in F. discriminate F.
  - assert (Hw : LatLngBounds.getWest this h = (Throw TypeError, h))
      by (apply (edge_unset lng _southWest _ _ _ Hb eq_refl)).
    split; (split; [discriminate|]).
    + intros [s F]. unfold LatLngBounds.toBBoxString in F.
      rewrite bind_run, Hw in F. discriminate F.
    + intros (w & s & e & n & F & _). rewrite Hw in F. discriminate F.
Qed.

Lemma isValid_iff_edges_can_be_read_witness :
  let h := mkStore [mkLatLng zero zero None;
                    mkLatLng (num_of_Z 10) (num_of_Z 10) None]
                   [mkBounds (Some 0%nat) (Some 1%nat)] in
  LatLngBounds.isValid 0%nat h = (Ret true, h) <->
  exists s, LatLngBounds.toBBoxString 0%nat h = (Ret s, h).
Proof.
  intros h.
  apply (isValid_iff_edges_can_be_read h 0%nat
           (mkBounds (Some 0%nat) (Some 1%nat)) eq_refl).
  intros c Hc. unfold corner_refs in Hc. simpl in Hc.
  rewrite !elem_of_cons in Hc.
  destruct Hc as [->|[->|[]%elem_of_nil]]; eexists; reflexivity.
Defined.

(** ** Extension only grows a bounds *)

Lemma within_widened_by ps pn p2 q2 p' :
  ordered ps pn = true -> not_nan p2 = true -> not_nan q2 = true ->
  within ps pn p' = true ->
  within (mkLatLng (Math_min (lat p2) (lat ps)) (Math_min (lng p2) (lng ps)) (alt ps))
         (mkLatLng (Math_max (lat q2) (lat pn)) (Math_max (lng q2) (lng pn)) (alt pn))
         p' = true.
Proof.
  intros [O1 O2]%ordered_not_nan [N1 N2]%not_nan_spec [N3 N4]%not_nan_spec.
  apply not_nan_spec in O1 as [A1 A2]. apply not_nan_spec in O2 as [B1 B2].
  unfold within. rewrite !andb_true_iff. simpl.
  intros [[[W1 W2] W3] W4]. repeat split.
  - eapply le_trans; [apply Math_min_le_r|]; eauto.
  - eapply le_trans; [|apply Math_max_ge_r]; eauto.
  - eapply le_trans; [apply Math_min_le_r|]; eauto.
  - eapply le_trans; [|apply Math_max_ge_r]; eauto.
Qed.

(** X17: take a bounds whose corners are two distinct objects [sw] and [ne] with
    [sw.lat <= ne.lat] and [sw.lng <= ne.lng], and as argument a [LatLng]
    without [NaN], or a bounds whose corners are in order in the same way,
    the point or the corners of the argument being other objects than [sw]
    and [ne]. Then [extend] returns the receiver, which [contains] the
    argument afterwards and still [contains] every point of the store,
    other than [sw] and [ne] themselves, that it contained before. *)
Theorem extend_only_grows (h : store) this obj sw ne ps pn sw2 ne2 p2 q2
  (Hb : boxes h !! this = Some (mkBounds (Some sw) (Some ne)))
  (Hs : points h !! sw = Some ps) (Hn : points h !! ne = Some pn)
  (Ho : ordered ps pn = true)
  (Hobj : (obj = VLatLng sw2 /\ ne2 = sw2) \/
          (exists b, obj = VBounds b /\
                     boxes h !! b = Some (mkBounds (Some sw2) (Some ne2))))
  (H2 : points h !! sw2 = Some p2) (Hq2 : points h !! ne2 = Some q2)
  (Ho2 : ordered p2 q2 = true)
  (D : sw <> ne) (D1 : sw2 <> sw) (D2 : sw2 <> ne)
  (D3 : ne2 <> sw) (D4 : ne2 <> ne) :
  exists h',
    LatLngBounds.extend this obj h = (Ret this, h') /\
    LatLngBounds.contains this obj h' = (Ret true, h') /\
    forall j pj,
      points h !! j = Some pj -> j <> sw -> j <> ne ->
      LatLngBounds.contains this (VLatLng j) h = (Ret true, h) ->
      LatLngBounds.contains this (VLatLng j) h' = (Ret true, h').
Proof.
  pose proof Ho2 as [Np Nq]%ordered_not_nan.
  pose proof Ho as [Nps Npn]%ordered_not_nan.
  set (s' := mkLatLng (Math_min (lat p2) (lat ps)) (Math_min (lng p2) (lng ps))
                      (alt ps)).
  set (n' := mkLatLng (Math_max (lat q2) (lat pn)) (Math_max (lng q2) (lng pn))
                      (alt pn)).
  set (h' := mkStore (<[ne := n']> (<[sw := s']> (points h))) (boxes h)).
  assert (Ls : (sw < length (points h))%nat) by (eapply lookup_lt_Some; eauto).
  assert (Ln : (ne < length (points h))%nat) by (eapply lookup_lt_Some; eauto).
  assert (E : LatLngBounds.extend_with this sw2 ne2 h = (Ret this, h')).
  { rewrite (extend_with_set h this sw2 ne2 sw ne) by eauto.
    now rewrite (widen_all_exact _ _ _ _ _ ps pn p2 q2) by auto. }
  assert (Hs' : points h' !! sw = Some s').
  { simpl. rewrite list_lookup_insert_ne by auto.
    now apply list_lookup_insert_eq. }
  assert (Hn' : points h' !! ne = Some n').
  { simpl. apply list_lookup_insert_eq. now rewrite length_insert. }
  assert (Other : forall j, j <> sw -> j <> ne -> points h' !! j = points h !! j).
  { intros j J1 J2. simpl. now rewrite !list_lookup_insert_ne by auto. }
  assert (In2 : ge (lat p2) (lat s') && le (lat q2) (lat n')
                && ge (lng p2) (lng s') && le (lng q2) (lng n') = true).
  { apply not_nan_spec in Np as [N1 N2], Nq as [N3 N4],
        Nps as [A1 A2], Npn as [B1 B2].
    unfold s', n'. simpl. rewrite !ge_le.
    now rewrite !Math_min_le_l, !Math_max_ge_l by auto. }
  exists h'. split; [|split].
  - destruct Hobj as [[-> ->]|(b & -> & Hb2)]; [exact E|].
    simpl. unfold LatLngBounds.extend_bounds.
    now rewrite bind_run, (get_box_run _ _ _ Hb2).
  - destruct Hobj as [[-> ->]|(b & -> & Hb2)].
    + rewrite (contains_point_run h' this sw ne sw2 s' n' p2); auto.
      * apply andb_true_iff in Ho2 as [O1 O2].
        apply not_nan_spec in Np as [N1 N2], Nq as [N3 N4],
            Nps as [A1 A2], Npn as [B1 B2].
        unfold s', n'. simpl. rewrite !ge_le.
        rewrite !Math_min_le_l by auto.
        rewrite (le_trans _ _ _ O1 (Math_max_ge_l _ (lat pn) N3 B1)).
        now rewrite (le_trans _ _ _ O2 (Math_max_ge_l _ (lng pn) N4 B2)).
      * rewrite Other; auto.
    + rewrite (contains_bounds_run h' this b sw ne sw2 ne2 s' n' p2 q2); auto.
      * now rewrite In2.
      * rewrite Other; auto.
      * rewrite Other; auto.
  - intros j pj Hj J1 J2.
    rewrite (contains_point_run h this sw ne j ps pn pj); auto.
    rewrite (contains_point_run h' this sw ne j s' n' pj); auto.
    + rewrite !ge_le. intros [= W]. f_equal. f_equal.
      pose proof (within_widened_by ps pn p2 q2 pj Ho Np Nq) as W'.
      unfold within in W'. fold s' n' in W'. apply W'.
      rewrite !andb_true_iff in *. tauto.
    + rewrite Other; auto.
Qed.

(** [[0, 0]-[10, 10]], which contains [(5, 5)], extended with [(20, 5)]. *)
Lemma extend_only_grows_witness :
  let pt := fun x y => mkLatLng (num_of_Z x) (num_of_Z y) None in
  let h := mkStore [pt 0 0; pt 10 10; pt 20 5; pt 5 5]
                   [mkBounds (Some 0%nat) (Some 1%nat)] in
  exists h',
    LatLngBounds.extend 0%nat (VLatLng 2%nat) h = (Ret 0%nat, h') /\
    LatLngBounds.contains 0%nat (VLatLng 2%nat) h' = (Ret true, h') /\
    LatLngBounds.contains 0%nat (VLatLng 3%nat) h' = (Ret true, h').
Proof.
  intros pt h.
  destruct (extend_only_grows h 0%nat (VLatLng 2%nat) 0%nat 1%nat
              (pt 0 0) (pt 10 10) 2%nat 2%nat (pt 20 5) (pt 20 5))
    as (h' & E & C & K); try reflexivity; try lia.
  - left. split; reflexivity.
  - exists h'. split; [exact E|]. split; [exact C|].
    apply (K 3%nat (pt 5 5)); try reflexivity; lia.
Defined.

(** ** A bounds and itself *)

(** X18: a bounds [intersects] itself exactly when its corners are in
    order, and [overlaps] itself exactly when they are strictly in order on
    both axes: a bounds reduced to a point or to a segment does not overlap
    itself. *)
Theorem a_bounds_and_itself (h : store) a sw ne p q
  (Ha : boxes h !! a = Some (mkBounds (Some sw) (Some ne)))
  (Hp : points h !! sw = Some p) (Hq : points h !! ne = Some q) :
  LatLngBounds.intersects a (VBounds a) h = (Ret (ordered p q), h) /\
  LatLngBounds.overlaps a (VBounds a) h
  = (Ret (lt (lat p) (lat q) && lt (lng p) (lng q)), h).
Proof.
  destruct (intersects_run h a a sw ne sw ne p q p q Ha Ha Hp Hq Hp Hq)
    as [-> ->].
  rewrite !ge_le, !gt_lt, !andb_diag. split; reflexivity.
Qed.

(** The bounds of the single point [(3, 4)]. *)
Lemma a_bounds_and_itself_witness :
  let h := mkStore [mkLatLng (num_of_Z 3) (num_of_Z 4) None;
                    mkLatLng (num_of_Z 3) (num_of_Z 4) None]
                   [mkBounds (Some 0%nat) (Some 1%nat)] in
  LatLngBounds.intersects 0%nat (VBounds 0%nat) h = (Ret true, h) /\
  LatLngBounds.overlaps 0%nat (VBounds 0%nat) h = (Ret false, h).
Proof.
  intros h.
  exact (a_bounds_and_itself h 0%nat 0%nat 1%nat _ _ eq_refl eq_refl eq_refl).
Defined.

(** ** [null] *)

(** X19: [validate] throws a [TypeError] on [null], and on nothing else;
    so do the [LatLng] constructor and [contains], where [extend] returns
    the receiver. *)
Theorem validate_throws_on_null_only :
  (forall lng alt, LatLng.validate VNull lng alt = Throw TypeError) /\
  (forall v lng alt, v <> VNull -> exists b, LatLng.validate v lng alt = Ret b) /\
  (forall lng alt h, LatLng.new VNull lng alt h = (Throw TypeError, h)) /\
  (forall this h, LatLngBounds.contains this VNull h = (Throw TypeError, h)) /\
  (forall this h, LatLngBounds.extend this VNull h = (Ret this, h)).
Proof.
  repeat apply conj; try reflexivity.
  intros v lng alt Hv. unfold LatLng.validate.
  destruct v as [| |x|a|props|r|r]; try congruence; simpl;
    repeat match goal with
      | |- context [if ?c then _ else _] => destruct c
      end; eauto.
Qed.

Lemma validate_throws_on_null_only_witness :
  exists b, LatLng.validate (VNum zero) VUndef VUndef = Ret b.
Proof.
  apply (proj1 (proj2 validate_throws_on_null_only) (VNum zero) VUndef VUndef).
  discriminate.
Defined.

(** ** A wider margin *)

(** X20: what is equal within a margin is equal within every greater
    margin, for two points as for two bounds. *)
Theorem equals_is_monotone_in_the_margin :
  (forall (h : store) a b p q m m',
      points h !! a = Some p -> points h !! b = Some q ->
      le m m' = true ->
      LatLng.equals a (VLatLng b) (VNum m) h = (Ret true, h) ->
      LatLng.equals a (VLatLng b) (VNum m') h = (Ret true, h)) /\
  (forall (h : store) a b sw ne sw2 ne2 p q p2 q2 m m',
      boxes h !! a = Some (mkBounds (Some sw) (Some ne)) ->
      boxes h !! b = Some (mkBounds (Some sw2) (Some ne2)) ->
      points h !! sw = Some p -> points h !! ne = Some q ->
      points h !! sw2 = Some p2 -> points h !! ne2 = Some q2 ->
      le m m' = true ->
      LatLngBounds.equals a (VBounds b) (VNum m) h = (Ret true, h) ->
      LatLngBounds.equals a (VBounds b) (VNum m') h = (Ret true, h)).
Proof.
  split.
  - intros h a b p q m m' Ha Hb L.
    rewrite (LatLng_equals_max a (VLatLng b) (VNum m) h b h p q eq_refl Ha Hb).
    rewrite (LatLng_equals_max a (VLatLng b) (VNum m') h b h p q eq_refl Ha Hb).
    change (LatLng.margin_or_default (VNum m)) with m.
    change (LatLng.margin_or_default (VNum m')) with m'.
    intros [= E]. now rewrite (le_trans _ _ _ E L).
  - intros h a b sw ne sw2 ne2 p q p2 q2 m m' Ha Hb Hp Hq Hp2 Hq2 L.
    rewrite (bounds_equals_run h a b sw ne sw2 ne2 p q p2 q2 (VNum m)) by auto.
    rewrite (bounds_equals_run h a b sw ne sw2 ne2 p q p2 q2 (VNum m')) by auto.
    change (LatLng.margin_or_default (VNum m)) with m.
    change (LatLng.margin_or_default (VNum m')) with m'.
    intros [= E]. apply andb_true_iff in E as [E1 E2].
    now rewrite (le_trans _ _ _ E1 L), (le_trans _ _ _ E2 L).
Qed.

(** [(50, 30)] and [(51, 30)] are equal within [2], hence within [3]. *)
Lemma equals_is_monotone_in_the_margin_witness :
  let h := mkStore [mkLatLng (num_of_Z 50) (num_of_Z 30) None;
                    mkLatLng (num_of_Z 51) (num_of_Z 30) None] [] in
  LatLng.equals 0%nat (VLatLng 1%nat) (VNum (num_of_Z 3)) h = (Ret true, h).
Proof.
  intros h.
  refine (proj1 equals_is_monotone_in_the_margin h 0%nat 1%nat _ _
            (num_of_Z 2) (num_of_Z 3) _ _ _ _).
  all: vm_compute; reflexivity.
Defined.

(** ** Two corners given as arrays *)

(** The constructor with two arrays of numbers, the first of which holds
    no [NaN]. *)
Lemma new_from_two_arrays (h : store) x1 y1 x2 y2
  (Hx : is_nan x1 = false) (Hy : is_nan y1 = false) :
  LatLngBounds.new (VArr [VNum x1; VNum y1]) (VArr [VNum x2; VNum y2]) h
  = (Ret (length (boxes h)),
     mkStore (points h ++ [mkLatLng x1 y1 None;
                           mkLatLng (Math_min x2 x1) (Math_min y2 y1) None;
                           mkLatLng (Math_max x2 x1) (Math_max y2 y1) None;
                           mkLatLng x2 y2 None])
             (boxes h ++ [mkBounds (Some (S (length (points h))))
                                   (Some (S (S (length (points h)))))])).
Proof.
  set (L := length (points h)). set (this := length (boxes h)).
  set (p1 := mkLatLng x1 y1 None). set (p2 := mkLatLng x2 y2 None).
  assert (N1 : not_nan p1 = true) by (apply not_nan_spec; auto).
  unfold LatLngBounds.new.
  change (negb (truthy (VArr [VNum x1; VNum y1]))) with false.
  change (truthy (VArr [VNum x2; VNum y2])) with true. cbv iota.
  rewrite bind_run. unfold alloc_box at 1. cbv beta iota. fold this.
  set (h1 := mkStore (points h) (boxes h ++ [LatLngBounds.unset])).
  rewrite bind_run.
  change (for_of (VArr [?a; ?b]) ?body ?s)
    with ((body a ;; body b ;; ret tt) s).
  rewrite bind_run, bind_run.
  (* the first array *)
  assert (E1 : LatLngBounds.extend this (VArr [VNum x1; VNum y1]) h1
               = (Ret this,
                  mkStore (points h ++ [p1; p1; p1])
                          (boxes h ++ [mkBounds (Some (S L)) (Some (S (S L)))]))).
  { rewrite extend_unfold. unfold extend_other.
    change (negb (truthy (VArr [VNum x1; VNum y1]))) with false. cbv iota.
    rewrite bind_run. unfold lift.
    change (LatLng.validate (VArr [VNum x1; VNum y1]) VUndef VUndef)
      with (Ret (A := bool) true). cbv beta iota.
    rewrite bind_run.
    change (LatLng.new (VArr [VNum x1; VNum y1]) VUndef VUndef h1)
      with (alloc_point p1 h1).
    unfold alloc_point. cbv beta iota. simpl points. simpl boxes. fold L.
    rewrite (extend_with_unset _ this L L p1 p1); simpl; auto.
    - f_equal. f_equal.
      + now rewrite <- app_assoc.
      + rewrite length_app. simpl length.
        replace (length (points h) + 1)%nat with (S L) by (unfold L; lia).
        rewrite insert_app_r_alt by (unfold this; lia).
        unfold this. now rewrite Nat.sub_diag.
    - rewrite lookup_app_r by (unfold this; lia).
      unfold this. now rewrite Nat.sub_diag.
    - rewrite lookup_app_r by (unfold L; lia). unfold L. now rewrite Nat.sub_diag.
    - rewrite lookup_app_r by (unfold L; lia). unfold L. now rewrite Nat.sub_diag. }
  rewrite E1. cbv beta iota. unfold ret at 1. cbv beta iota.
  rewrite bind_run, bind_run.
  (* the second array *)
  set (bx := boxes h ++ [mkBounds (Some (S L)) (Some (S (S L)))]).
  assert (E2 : LatLngBounds.extend this (VArr [VNum x2; VNum y2])
                 (mkStore (points h ++ [p1; p1; p1]) bx)
               = (Ret this,
                  mkStore (points h ++ [p1;
                             mkLatLng (Math_min x2 x1) (Math_min y2 y1) None;
                             mkLatLng (Math_max x2 x1) (Math_max y2 y1) None;
                             p2]) bx)).
  { rewrite extend_unfold. unfold extend_other.
    change (negb (truthy (VArr [VNum x2; VNum y2]))) with false. cbv iota.
    rewrite bind_run. unfold lift.
    change (LatLng.validate (VArr [VNum x2; VNum y2]) VUndef VUndef)
      with (Ret (A := bool) true). cbv beta iota.
    rewrite bind_run.
    change (LatLng.new (VArr [VNum x2; VNum y2]) VUndef VUndef
              (mkStore (points h ++ [p1; p1; p1]) bx))
      with (alloc_point p2 (mkStore (points h ++ [p1; p1; p1]) bx)).
    unfold alloc_point. cbv beta iota. simpl points. simpl boxes.
    rewrite length_app. simpl length.
    replace (length (points h) + 3)%nat with (S (S (S L))) by (unfold L; lia).
    assert (Q : forall i x, [p1; p1; p1; p2] !! i = Some x ->
                  ((points h ++ [p1; p1; p1]) ++ [p2]) !! (L + i)%nat = Some x).
    { intros i x Hi. rewrite <- app_assoc. simpl.
      rewrite lookup_app_r by (unfold L; lia).
      now replace (L + i - length (points h))%nat with i by (unfold L; lia). }
    rewrite (extend_with_set _ this (S (S (S L))) (S (S (S L))) (S L) (S (S L)));
      simpl.
    - rewrite (widen_all_exact _ (S L) (S (S L)) (S (S (S L))) (S (S (S L)))
                 p1 p1 p2 p2); try lia.
      + f_equal. f_equal. rewrite <- app_assoc. simpl.
        rewrite (insert_app_r_alt (points h) _ (S L)) by (unfold L; lia).
        replace (S L - length (points h))%nat with 1%nat by (unfold L; lia).
        simpl.
        rewrite (insert_app_r_alt (points h) _ (S (S L))) by (unfold L; lia).
        replace (S (S L) - length (points h))%nat with 2%nat by (unfold L; lia).
        reflexivity.
      + replace (S L) with (L + 1)%nat by lia. now apply Q.
      + replace (S (S L)) with (L + 2)%nat by lia. now apply Q.
      + replace (S (S (S L))) with (L + 3)%nat by lia. now apply Q.
      + replace (S (S (S L))) with (L + 3)%nat by lia. now apply Q.
    - unfold bx. rewrite lookup_app_r by (unfold this; lia).
      unfold this. now rewrite Nat.sub_diag.
    - exists p2. replace (S (S (S L))) with (L + 3)%nat by lia. now apply Q.
    - exists p2. replace (S (S (S L))) with (L + 3)%nat by lia. now apply Q.
    - exists p1. replace (S L) with (L + 1)%nat by lia. now apply Q.
    - exists p1. replace (S (S L)) with (L + 2)%nat by lia. now apply Q. }
  rewrite E2. reflexivity.
Qed.

(** The constructor with two arrays of numbers, the first of which holds a
    [NaN]. *)
Lemma new_from_NaN_array (h : store) x1 y1 c2 :
  truthy c2 = true ->
  is_nan x1 || is_nan y1 = true ->
  LatLngBounds.new (VArr [VNum x1; VNum y1]) c2 h
  = (Throw InvalidLatLng,
     mkStore (points h ++ [mkLatLng x1 y1 None])
             (boxes h ++ [LatLngBounds.unset])).
Proof.
  intros Hc Hn. unfold LatLngBounds.new.
  change (negb (truthy (VArr [VNum x1; VNum y1]))) with false.
  rewrite Hc. cbv iota.
  rewrite bind_run. unfold alloc_box at 1. cbv beta iota.
  set (this := length (boxes h)).
  set (h1 := mkStore (points h) (boxes h ++ [LatLngBounds.unset])).
  rewrite bind_run.
  change (for_of (VArr [?a; ?b]) ?body ?s)
    with ((body a ;; body b ;; ret tt) s).
  rewrite bind_run, bind_run.
  assert (E1 : LatLngBounds.extend this (VArr [VNum x1; VNum y1]) h1
               = (Throw InvalidLatLng,
                  mkStore (points h ++ [mkLatLng x1 y1 None])
                          (boxes h ++ [LatLngBounds.unset]))).
  { rewrite extend_unfold. unfold extend_other.
    change (negb (truthy (VArr [VNum x1; VNum y1]))) with false. cbv iota.
    rewrite bind_run. unfold lift.
    change (LatLng.validate (VArr [VNum x1; VNum y1]) VUndef VUndef)
      with (Ret (A := bool) true). cbv beta iota.
    rewrite bind_run.
    change (LatLng.new (VArr [VNum x1; VNum y1]) VUndef VUndef h1)
      with (alloc_point (mkLatLng x1 y1 None) h1).
    unfold alloc_point. cbv beta iota. simpl points. simpl boxes.
    unfold LatLngBounds.extend_with.
    rewrite bind_run. unfold get_box. simpl boxes.
    rewrite lookup_app_r by (unfold this; lia).
    unfold this. rewrite Nat.sub_diag. simpl.
    rewrite bind_run. unfold get_point. simpl points.
    rewrite lookup_app_r by lia. rewrite Nat.sub_diag. simpl.
    rewrite bind_run, new_scalars. simpl. now rewrite Hn. }
  now rewrite E1.
Qed.

(** X21: [new LatLngBounds([x1, y1], [x2, y2])]. With [x1] and [y1]
    numbers, each array becomes a point and the corners of the new bounds
    are two further points, the south-west one with the [Math.min] of the
    latitudes and of the longitudes, the north-east one with their
    [Math.max]. With [x1] or [y1] [NaN], the constructor throws the error of
    the [LatLng] constructor. *)
Theorem constructor_from_two_arrays (h : store) x1 y1 x2 y2 :
  (is_nan x1 = false -> is_nan y1 = false ->
   LatLngBounds.new (VArr [VNum x1; VNum y1]) (VArr [VNum x2; VNum y2]) h
   = (Ret (length (boxes h)),
      mkStore (points h ++ [mkLatLng x1 y1 None;
                            mkLatLng (Math_min x2 x1) (Math_min y2 y1) None;
                            mkLatLng (Math_max x2 x1) (Math_max y2 y1) None;
                            mkLatLng x2 y2 None])
              (boxes h ++ [mkBounds (Some (S (length (points h))))
                                    (Some (S (S (length (points h)))))]))) /\
  (is_nan x1 || is_nan y1 = true ->
   LatLngBounds.new (VArr [VNum x1; VNum y1]) (VArr [VNum x2; VNum y2]) h
   = (Throw InvalidLatLng,
      mkStore (points h ++ [mkLatLng x1 y1 None])
              (boxes h ++ [LatLngBounds.unset]))).
Proof.
  split.
  - intros Hx Hy. now apply new_from_two_arrays.
  - intros Hn. now apply new_from_NaN_array.
Qed.

(** [new LatLngBounds([40, -74], [39, -73])] *)
Lemma constructor_from_two_arrays_witness :
  LatLngBounds.new (VArr [VNum (num_of_Z 40); VNum (num_of_Z (-74))])
                   (VArr [VNum (num_of_Z 39); VNum (num_of_Z (-73))]) empty_store
  = (Ret 0%nat,
     mkStore [mkLatLng (num_of_Z 40) (num_of_Z (-74)) None;
              mkLatLng (num_of_Z 39) (num_of_Z (-74)) None;
              mkLatLng (num_of_Z 40) (num_of_Z (-73)) None;
              mkLatLng (num_of_Z 39) (num_of_Z (-73)) None]
             [mkBounds (Some 1%nat) (Some 2%nat)]).
Proof.
  exact (proj1 (constructor_from_two_arrays empty_store
                  (num_of_Z 40) (num_of_Z (-74)) (num_of_Z 39) (num_of_Z (-73)))
           eq_refl eq_refl).
Defined.

(** ** The box around a point *)

(** X22: [toBounds(sizeInMeters)], whatever [Math.cos] returns: it throws
    the error of the [LatLng] constructor when the south-west corner it
    computes has a [NaN] coordinate, as it does when the size is not a
    number, and otherwise returns a new bounds, with the [Math.min] and
    the [Math.max] of the two corners it computes. The receiver is not
    modified. *)
Theorem toBounds_builds_the_box_around (Math_cos : num -> num)
        (h : store) this p size
  (Hp : points h !! this = Some p) :
  let a := div (mul (num_of_Z 180) (to_number size)) (num_of_Z 40075017) in
  let b := div a (Math_cos (mul (div Math_PI (num_of_Z 180)) (lat p))) in
  let c1 := mkLatLng (sub (lat p) a) (sub (lng p) b) None in
  let c2 := mkLatLng (add (lat p) a) (add (lng p) b) None in
  (not_nan c1 = true ->
   LatLng_toBounds Math_cos this size h
   = (Ret (length (boxes h)),
      mkStore (points h ++
                 [c1;
                  mkLatLng (Math_min (lat c2) (lat c1))
                           (Math_min (lng c2) (lng c1)) None;
                  mkLatLng (Math_max (lat c2) (lat c1))
                           (Math_max (lng c2) (lng c1)) None;
                  c2])
              (boxes h ++ [mkBounds (Some (S (length (points h))))
                                    (Some (S (S (length (points h)))))]))) /\
  (not_nan c1 = false ->
   LatLng_toBounds Math_cos this size h
   = (Throw InvalidLatLng,
      mkStore (points h ++ [c1]) (boxes h ++ [LatLngBounds.unset]))) /\
  (is_nan (to_number size) = true -> not_nan c1 = false).
Proof.
  intros a b c1 c2.
  assert (E : LatLng_toBounds Math_cos this size h
              = LatLngBounds.new (VArr [VNum (lat c1); VNum (lng c1)])
                                 (VArr [VNum (lat c2); VNum (lng c2)]) h).
  { unfold LatLng_toBounds. now rewrite bind_run, (get_point_run _ _ _ Hp). }
  rewrite E. repeat apply conj.
  - intros [N1 N2]%not_nan_spec.
    apply (new_from_two_arrays h _ _ (lat c2) (lng c2) N1 N2).
  - intros N. apply new_from_NaN_array; [reflexivity|].
    unfold not_nan in N. apply andb_false_iff in N.
    rewrite !negb_false_iff in N. apply orb_true_iff. exact N.
  - intros N. unfold not_nan, c1, a. simpl lat.
    destruct (to_number size); try discriminate N.
    replace (div (mul (num_of_Z 180) S754_nan) (num_of_Z 40075017)) with NaN
      by reflexivity.
    rewrite sub_NaN. reflexivity.
Qed.

(** [toBounds()] without a size. *)
Lemma toBounds_builds_the_box_around_witness :
  let h := mkStore [mkLatLng (num_of_Z 50) (num_of_Z 30) None] [] in
  fst (LatLng_toBounds (fun _ => num_of_Z 1) 0%nat VUndef h) = Throw InvalidLatLng.
Proof.
  intros h.
  destruct (toBounds_builds_the_box_around (fun _ => num_of_Z 1) h 0%nat
              (mkLatLng (num_of_Z 50) (num_of_Z 30) None) VUndef eq_refl)
    as (_ & T & N).
  now rewrite (T (N eq_refl)).
Defined.

(** ** Corners are widened in place *)

(** X23: [getSouthWest] and [getNorthEast] return the corner objects of
    the bounds themselves, and a later [extend] with a point (that is not
    one of them) writes to these objects: afterwards the south-west corner
    holds the [Math.min] of the point's coordinates and its own, the
    north-east corner their [Math.max], their altitude is kept, and the
    point and every other object are as they were. *)
Theorem corners_are_widened_in_place (h : store) this sw ne r ps pn p
  (Hb : boxes h !! this = Some (mkBounds (Some sw) (Some ne)))
  (Hs : points h !! sw = Some ps) (Hn : points h !! ne = Some pn)
  (Hr : points h !! r = Some p)
  (D1 : sw <> ne) (D2 : r <> sw) (D3 : r <> ne) :
  LatLngBounds.getSouthWest this h = (Ret (Some sw), h) /\
  LatLngBounds.getNorthEast this h = (Ret (Some ne), h) /\
  exists h',
    LatLngBounds.extend this (VLatLng r) h = (Ret this, h') /\
    boxes h' = boxes h /\
    points h' !! sw = Some (mkLatLng (Math_min (lat p) (lat ps))
                                     (Math_min (lng p) (lng ps)) (alt ps)) /\
    points h' !! ne = Some (mkLatLng (Math_max (lat p) (lat pn))
                                     (Math_max (lng p) (lng pn)) (alt pn)) /\
    forall j, j <> sw -> j <> ne -> points h' !! j = points h !! j.
Proof.
  destruct (corners_run _ _ _ _ Hb) as [S N].
  split; [exact S|]. split; [exact N|].
  assert (Ls : (sw < length (points h))%nat) by (eapply lookup_lt_Some; eauto).
  assert (Ln : (ne < length (points h))%nat) by (eapply lookup_lt_Some; eauto).
  eexists. split; [apply (extend_point_exact h this sw ne r ps pn p); auto|].
  simpl. split; [reflexivity|]. split; [|split].
  - rewrite list_lookup_insert_ne by auto. now apply list_lookup_insert_eq.
  - apply list_lookup_insert_eq. now rewrite length_insert.
  - intros j J1 J2. now rewrite !list_lookup_insert_ne by auto.
Qed.

(** [[0, 0]-[10, 10]] extended with [(20, -5)]. *)
Lemma corners_are_widened_in_place_witness :
  let pt := fun x y => mkLatLng (num_of_Z x) (num_of_Z y) None in
  let h := mkStore [pt 0 0; pt 10 10; pt 20 (-5)]
                   [mkBounds (Some 0%nat) (Some 1%nat)] in
  exists h',
    LatLngBounds.extend 0%nat (VLatLng 2%nat) h = (Ret 0%nat, h') /\
    points h' !! 0%nat = Some (pt 0 (-5)) /\
    points h' !! 1%nat = Some (pt 20 10).
Proof.
  intros pt h.
  destruct (corners_are_widened_in_place h 0%nat 0%nat 1%nat 2%nat
              (pt 0 0) (pt 10 10) (pt 20 (-5)) eq_refl eq_refl eq_refl eq_refl
              ltac:(lia) ltac:(lia) ltac:(lia))
    as (_ & _ & h' & E & _ & S' & N' & _).
  exists h'. split; [exact E|]. split; [exact S'|exact N'].
Defined.

(** ** The bounds that [pad] returns *)

(** X24: whenever [pad] returns, whatever the ratio (a negative one may
    move each computed corner past the other), what it returns is a new
    bounds with two corners that are in order. *)
Theorem pad_returns_ordered_bounds (h : store) this v r h'
  (Hpad : LatLngBounds.pad this v h = (Ret r, h')) :
  boxes h !! r = None /\
  exists sw ne p q,
    boxes h' !! r = Some (mkBounds (Some sw) (Some ne)) /\
    points h' !! sw = Some p /\ points h' !! ne = Some q /\
    ordered p q = true.
Proof.
  destruct (boxes h !! this) as [[sw ne]|] eqn:Hb.
  2: { exfalso. revert Hpad. unfold LatLngBounds.pad, get_box.
       rewrite bind_run, Hb. discriminate. }
  destruct sw as [sw|].
  2: { exfalso. revert Hpad. unfold LatLngBounds.pad.
       rewrite bind_run, (get_box_run _ _ _ Hb). discriminate. }
  destruct (points h !! sw) as [p|] eqn:Hp.
  2: { exfalso. revert Hpad. unfold LatLngBounds.pad.
       rewrite bind_run, (get_box_run _ _ _ Hb). simpl.
       unfold get_point. rewrite bind_run, Hp. discriminate. }
  destruct ne as [ne|].
  2: { exfalso. revert Hpad. unfold LatLngBounds.pad.
       rewrite bind_run, (get_box_run _ _ _ Hb). simpl.
       rewrite bind_run, (get_point_run _ _ _ Hp). discriminate. }
  destruct (points h !! ne) as [q|] eqn:Hq.
  2: { exfalso. revert Hpad. unfold LatLngBounds.pad.
       rewrite bind_run, (get_box_run _ _ _ Hb). simpl.
       rewrite bind_run, (get_point_run _ _ _ Hp).
       unfold get_point. rewrite bind_run, Hq. discriminate. }
  rewrite (pad_run h this v sw ne p q Hb Hp Hq) in Hpad. cbv zeta in Hpad.
  set (hb := mul (Math_abs (sub (lat p) (lat q))) (to_number v)) in *.
  set (wb := mul (Math_abs (sub (lng p) (lng q))) (to_number v)) in *.
  set (c1 := mkLatLng (sub (lat p) hb) (sub (lng p) wb) None) in *.
  set (c2 := mkLatLng (add (lat q) hb) (add (lng q) wb) None) in *.
  destruct (not_nan c1) eqn:N1; [|discriminate Hpad].
  destruct (not_nan c2) eqn:N2; [|discriminate Hpad].
  injection Hpad as <- <-.
  split; [apply lookup_ge_None; lia|].
  set (h0 := mkStore (points h ++ [c1; c2]) (boxes h)).
  set (L := length (points h0)).
  set (N := length (points h)).
  assert (HL : L = S (S N)) by (unfold L, h0; simpl; rewrite length_app; simpl; lia).
  assert (Hc2 : (points h0 ++ [c1; c1]) !! S N = Some c2).
  { apply lookup_app_l_Some. unfold h0. simpl.
    rewrite lookup_app_r by (unfold N; lia).
    now replace (S N - length (points h))%nat with 1%nat by (unfold N; lia). }
  assert (Hs0 : (points h0 ++ [c1; c1]) !! L = Some c1).
  { rewrite lookup_app_r by (unfold L; lia). unfold L. now rewrite Nat.sub_diag. }
  assert (Hn0 : (points h0 ++ [c1; c1]) !! S L = Some c1).
  { rewrite lookup_app_r by (unfold L; lia).
    now replace (S L - length (points h0))%nat with 1%nat by (unfold L; lia). }
  destruct (widen_all_with_point (points h0 ++ [c1; c1]) L (S L) (S N) c1 c1 c2)
    as (Hs' & Hn' & _); auto; try lia.
  exists L, (S L),
    (mkLatLng (Math_min (lat c2) (lat c1)) (Math_min (lng c2) (lng c1)) (alt c1)),
    (mkLatLng (Math_max (lat c2) (lat c1)) (Math_max (lng c2) (lng c1)) (alt c1)).
  split; [|split; [exact Hs'|split; [exact Hn'|]]].
  - unfold two_point_store. simpl. rewrite lookup_app_r by lia.
    now rewrite Nat.sub_diag.
  - apply (within_new c1 c1 c2); auto. now apply ordered_refl.
Qed.

(** [new LatLngBounds([0, 0], [10, 10]).pad(-1)] *)
Lemma pad_returns_ordered_bounds_witness :
  let h := mkStore [mkLatLng zero zero None;
                    mkLatLng (num_of_Z 10) (num_of_Z 10) None]
                   [mkBounds (Some 0%nat) (Some 1%nat)] in
  let res := LatLngBounds.pad 0%nat (VNum (num_of_Z (-1))) h in
  exists sw ne p q,
    boxes (snd res) !! 1%nat = Some (mkBounds (Some sw) (Some ne)) /\
    points (snd res) !! sw = Some p /\ points (snd res) !! ne = Some q /\
    ordered p q = true.
Proof.
  intros h res.
  refine (proj2 (pad_returns_ordered_bounds h 0%nat (VNum (num_of_Z (-1)))
                   1%nat (snd res) _)).
  vm_compute. reflexivity.
Defined.
